(** * activity_klog: the probe lifecycle manager and the secure log ring buffer

    A shallow embedding of the kernel modules of activity_klog:
    - [Probes]: planting and unplanting of the network probes
      (plant_probe, unplant_probe_locked and their helpers);
    - [SecureLog]: the circular buffer behind the log device
      (find_new_record_place, store_netlog_record, store_execlog_record,
      next_record, secure_log_llseek, secure_log_read and the renderers);
    - [NetlogProbes]: the handlers of the probes (the table match_socket,
      log_if_not_whitelisted and the entry and exit handlers);
    - [Device]: the creation and the removal of the device
      (init_secure_dev, destroy_secure_dev).

    Machine integers are integers of [Z] with the wrap-around of their C
    type written out; the log buffer is a byte addressed memory. *)

From Stdlib Require Import ZArith List Bool Lia String Ascii.
Import ListNotations.
Open Scope Z_scope.

(** ** Bit tests shared by both modules *)

(** [x & (1 << p)] used as a C condition. *)
Definition has_bit (x p : Z) : bool := negb (Z.land x (Z.shiftl 1 p) =? 0).

(** ** The probe lifecycle manager *)

Module Probes.

(** probes.h is not among the files embedded here: the bit number of each
    category and the error codes enter as parameters. *)
Record probes_h : Type := {
  PROBE_TCP_CONNECT : Z;
  PROBE_TCP_ACCEPT : Z;
  PROBE_TCP_CLOSE : Z;
  PROBE_UDP_CONNECT : Z;
  PROBE_UDP_BIND : Z;
  PROBE_UDP_CLOSE : Z;
  PROBES_NUMBER : Z;
  CONNECT_PROBE_FAILED : Z;
  ACCEPT_PROBE_FAILED : Z;
  CLOSE_PROBE_FAILED : Z;
  BIND_PROBE_FAILED : Z
}.

Definition categories (c : probes_h) : list Z :=
  [PROBE_TCP_CONNECT c; PROBE_TCP_ACCEPT c; PROBE_TCP_CLOSE c;
   PROBE_UDP_CONNECT c; PROBE_UDP_BIND c; PROBE_UDP_CLOSE c].

Fixpoint distinctb (l : list Z) : bool :=
  match l with
  | [] => true
  | x :: r => negb (existsb (Z.eqb x) r) && distinctb r
  end.

(** What the code relies on: six different bits of a u32 (reached by
    shifting the int 1) and error codes that are not 0. *)
Definition wf_probes_h (c : probes_h) : bool :=
  forallb (fun p => (0 <=? p) && (p <? 31)) (categories c)
  && distinctb (categories c)
  && negb (CONNECT_PROBE_FAILED c =? 0) && negb (ACCEPT_PROBE_FAILED c =? 0)
  && negb (CLOSE_PROBE_FAILED c =? 0) && negb (BIND_PROBE_FAILED c =? 0).

(** The static jprobe and kretprobe objects. *)
Inductive hook : Type :=
  | stream_connect_jprobe
  | stream_connect_kretprobe
  | dgram_connect_jprobe
  | dgram_connect_kretprobe
  | accept_kretprobe
  | close_jprobe
  | bind_kretprobe
  | bind_jprobe.

Definition hook_eqb (a b : hook) : bool :=
  match a, b with
  | stream_connect_jprobe, stream_connect_jprobe
  | stream_connect_kretprobe, stream_connect_kretprobe
  | dgram_connect_jprobe, dgram_connect_jprobe
  | dgram_connect_kretprobe, dgram_connect_kretprobe
  | accept_kretprobe, accept_kretprobe
  | close_jprobe, close_jprobe
  | bind_kretprobe, bind_kretprobe
  | bind_jprobe, bind_jprobe => true
  | _, _ => false
  end.

(** [loaded_probes] and, for each hook, whether the kernel holds it
    registered. *)
Record probe_state : Type := {
  loaded_probes : Z;
  registered : hook -> bool
}.

Definition set_registered (h : hook) (b : bool) (s : probe_state) : probe_state :=
  {| loaded_probes := loaded_probes s;
     registered := fun x => if hook_eqb x h then b else registered s x |}.

Definition set_loaded (v : Z) (s : probe_state) : probe_state :=
  {| loaded_probes := v; registered := registered s |}.

Definition bit (p : Z) : Z := Z.shiftl 1 p.

Section WithKernel.

Variable c : probes_h.

(** The value register_jprobe / register_kretprobe returns for a hook. *)
Variable register_result : hook -> Z.

Definition unplant_jprobe (h : hook) (s : probe_state) : probe_state :=
  set_registered h false s.

Definition unplant_kretprobe (h : hook) (s : probe_state) : probe_state :=
  set_registered h false s.

Definition unplant_tcp_connect (s : probe_state) : probe_state :=
  unplant_kretprobe stream_connect_kretprobe (unplant_jprobe stream_connect_jprobe s).

Definition unplant_udp_connect (s : probe_state) : probe_state :=
  unplant_kretprobe dgram_connect_kretprobe (unplant_jprobe dgram_connect_jprobe s).

Definition unplant_tcp_accept (s : probe_state) : probe_state :=
  unplant_kretprobe accept_kretprobe s.

Definition unplant_close (s : probe_state) : probe_state :=
  unplant_jprobe close_jprobe s.

Definition unplant_udp_bind (s : probe_state) : probe_state :=
  unplant_kretprobe bind_kretprobe (unplant_jprobe bind_jprobe s).

Definition when (b : bool) (f : probe_state -> probe_state) (s : probe_state) : probe_state :=
  if b then f s else s.

Definition close_bits : Z := Z.lor (bit (PROBE_TCP_CLOSE c)) (bit (PROBE_UDP_CLOSE c)).

Definition unplant_probe_locked (probe : Z) (s : probe_state) : probe_state :=
  let removed_probes := Z.land (loaded_probes s) probe in
  let s := set_loaded (Z.lxor (loaded_probes s) removed_probes) s in
  let s := when (has_bit removed_probes (PROBE_TCP_CONNECT c)) unplant_tcp_connect s in
  let s := when (has_bit removed_probes (PROBE_TCP_ACCEPT c)) unplant_tcp_accept s in
  let s := when (negb (Z.land removed_probes close_bits =? 0))
             (fun s => when (Z.land (loaded_probes s) close_bits =? 0) unplant_close s) s in
  let s := when (has_bit removed_probes (PROBE_UDP_CONNECT c)) unplant_udp_connect s in
  when (has_bit removed_probes (PROBE_UDP_BIND c)) unplant_udp_bind s.

Definition unplant_probe (probe : Z) (s : probe_state) : probe_state :=
  unplant_probe_locked probe s.

Definition unplant_all (s : probe_state) : probe_state :=
  unplant_probe (Z.shiftl 1 (PROBES_NUMBER c + 1) - 1) s.

(** A call that returns an int and may change the state. *)
Definition call : Type := probe_state -> Z * probe_state.

Definition plant_jprobe (h : hook) : call := fun s =>
  let err := register_result h in
  (err, if err <? 0 then s else set_registered h true s).

Definition plant_kretprobe (h : hook) : call := fun s =>
  let err := register_result h in
  (err, if err <? 0 then s else set_registered h true s).

(** The two-hook planters: the jprobe, then the kretprobe, the jprobe
    taken back when the kretprobe fails. *)
Definition plant_pair (j k : hook) (failed : Z) : call := fun s =>
  let (err, s1) := plant_jprobe j s in
  if err <? 0 then (- failed, s1)
  else
    let (err, s2) := plant_kretprobe k s1 in
    if err <? 0 then (- failed, unplant_jprobe j s2) else (0, s2).

Definition plant_tcp_connect : call :=
  plant_pair stream_connect_jprobe stream_connect_kretprobe (CONNECT_PROBE_FAILED c).

Definition plant_udp_connect : call :=
  plant_pair dgram_connect_jprobe dgram_connect_kretprobe (CONNECT_PROBE_FAILED c).

Definition plant_tcp_accept : call := fun s =>
  let (err, s1) := plant_kretprobe accept_kretprobe s in
  if err <? 0 then (- ACCEPT_PROBE_FAILED c, s1) else (0, s1).

Definition plant_close : call := fun s =>
  let (err, s1) := plant_jprobe close_jprobe s in
  if err <? 0 then (- CLOSE_PROBE_FAILED c, s1) else (0, s1).

Definition plant_udp_bind : call :=
  plant_pair bind_jprobe bind_kretprobe (BIND_PROBE_FAILED c).

Definition mark (p : Z) (s : probe_state) : probe_state :=
  set_loaded (Z.lor (loaded_probes s) (bit p)) s.

(** One block of plant_probe:
    [if (new_probes & (1 << p)) { err = plant(); if (err) goto unlock;
    loaded_probes |= 1 << p; }]; the result 0 lets the next block run. *)
Definition plant_block (new_probes p : Z) (plant : call) : call := fun s =>
  if has_bit new_probes p then
    let (err, s1) := plant s in
    if err =? 0 then (0, mark p s1) else (err, s1)
  else (0, s).

(** The close blocks plant the shared hook only when the sibling category
    does not hold it. *)
Definition plant_close_unless (sibling : Z) : call := fun s =>
  if has_bit (loaded_probes s) sibling then (0, s) else plant_close s.

(** [goto unlock] on a result that is not 0. *)
Definition and_then (a b : call) : call := fun s =>
  let (err, s1) := a s in
  if err =? 0 then b s1 else (err, s1).

Definition plant_probe (probe : Z) : call := fun s =>
  let new_probes := Z.land (Z.lxor probe (loaded_probes s)) probe in
  and_then (plant_block new_probes (PROBE_TCP_CONNECT c) plant_tcp_connect)
  (and_then (plant_block new_probes (PROBE_TCP_ACCEPT c) plant_tcp_accept)
  (and_then (plant_block new_probes (PROBE_TCP_CLOSE c)
               (plant_close_unless (PROBE_UDP_CLOSE c)))
  (and_then (plant_block new_probes (PROBE_UDP_CONNECT c) plant_udp_connect)
  (and_then (plant_block new_probes (PROBE_UDP_BIND c) plant_udp_bind)
            (plant_block new_probes (PROBE_UDP_CLOSE c)
               (plant_close_unless (PROBE_TCP_CLOSE c))))))) s.

Definition probe_status (probe : Z) (s : probe_state) : Z :=
  if Z.land probe (loaded_probes s) =? 0 then 0 else 1.

(** The hooks a set of active categories needs. *)
Definition needed (loaded : Z) (h : hook) : bool :=
  match h with
  | stream_connect_jprobe | stream_connect_kretprobe => has_bit loaded (PROBE_TCP_CONNECT c)
  | dgram_connect_jprobe | dgram_connect_kretprobe => has_bit loaded (PROBE_UDP_CONNECT c)
  | accept_kretprobe => has_bit loaded (PROBE_TCP_ACCEPT c)
  | close_jprobe => has_bit loaded (PROBE_TCP_CLOSE c) || has_bit loaded (PROBE_UDP_CLOSE c)
  | bind_kretprobe | bind_jprobe => has_bit loaded (PROBE_UDP_BIND c)
  end.

(** The registered hooks are those of the active categories. *)
Definition consistent (s : probe_state) : Prop :=
  forall h, registered s h = needed (loaded_probes s) h.

End WithKernel.

(** *** Invariants of planting and unplanting *)

(** The content of wf_probes_h. *)
Record wf_facts (c : probes_h) : Prop := {
  wf_range : forall p, In p (categories c) -> 0 <= p < 31;
  wf_distinct : NoDup (categories c);
  wf_connect : CONNECT_PROBE_FAILED c <> 0;
  wf_accept : ACCEPT_PROBE_FAILED c <> 0;
  wf_close : CLOSE_PROBE_FAILED c <> 0;
  wf_bind : BIND_PROBE_FAILED c <> 0
}.

(** What a planter of category [p] does on a state where [p] is not
    active: on success the registered hooks are those of the active set
    with [p] added, on failure nothing is left behind. *)
Definition plant_ok (c : probes_h) (p : Z) (plant : call) : Prop :=
  forall s, consistent c s -> has_bit (loaded_probes s) p = false ->
    loaded_probes (snd (plant s)) = loaded_probes s /\
    (fst (plant s) = 0 ->
     forall h, registered (snd (plant s)) h
               = needed c (Z.lor (loaded_probes s) (bit p)) h) /\
    (fst (plant s) <> 0 -> forall h, registered (snd (plant s)) h = registered s h).

(** The state between two blocks of plant_probe, started from the active
    set [l0] with the request [probe]: [done] are the categories whose
    block has run without error, [todo] those whose block is still ahead. *)
Record between (c : probes_h) (l0 probe : Z) (done todo : list Z)
       (s : probe_state) : Prop := {
  btw_consistent : consistent c s;
  btw_todo : forall q, In q todo -> has_bit (loaded_probes s) q = has_bit l0 q;
  btw_kept : forall n, 0 <= n -> Z.testbit l0 n = true ->
             Z.testbit (loaded_probes s) n = true;
  btw_bound : forall n, 0 <= n -> Z.testbit (loaded_probes s) n = true ->
              Z.testbit l0 n = true \/ (Z.testbit probe n = true /\ In n (categories c));
  btw_done : forall q, In q done -> has_bit probe q = true ->
             has_bit (loaded_probes s) q = true
}.

(** What plant_probe guarantees, whether it fails or not. *)
Definition plant_probe_post (c : probes_h) (probe : Z) (s : probe_state)
           (r : Z * probe_state) : Prop :=
  consistent c (snd r) /\
  (forall n, 0 <= n -> Z.testbit (loaded_probes s) n = true ->
             Z.testbit (loaded_probes (snd r)) n = true) /\
  (forall h, registered s h = true -> registered (snd r) h = true) /\
  (forall n, 0 <= n -> Z.testbit (loaded_probes (snd r)) n = true ->
             Z.testbit (loaded_probes s) n = true
             \/ (Z.testbit probe n = true /\ In n (categories c))) /\
  (fst r <> 0 ->
   exists before p after,
     categories c = before ++ p :: after /\
     has_bit probe p = true /\ has_bit (loaded_probes (snd r)) p = false /\
     (forall q, In q before -> has_bit probe q = true ->
                has_bit (loaded_probes (snd r)) q = true) /\
     (forall q, In q after ->
                has_bit (loaded_probes (snd r)) q = has_bit (loaded_probes s) q)) /\
  (fst r = 0 ->
   forall p, In p (categories c) -> has_bit probe p = true ->
             has_bit (loaded_probes (snd r)) p = true).

(** The hooks unplant_probe_locked unregisters, given the categories it
    removes and those that stay. *)
Definition dropped (c : probes_h) (removed remaining : Z) (h : hook) : bool :=
  match h with
  | stream_connect_jprobe | stream_connect_kretprobe =>
      has_bit removed (PROBE_TCP_CONNECT c)
  | dgram_connect_jprobe | dgram_connect_kretprobe =>
      has_bit removed (PROBE_UDP_CONNECT c)
  | accept_kretprobe => has_bit removed (PROBE_TCP_ACCEPT c)
  | close_jprobe =>
      (has_bit removed (PROBE_TCP_CLOSE c) || has_bit removed (PROBE_UDP_CLOSE c))
      && negb (has_bit remaining (PROBE_TCP_CLOSE c)
               || has_bit remaining (PROBE_UDP_CLOSE c))
  | bind_kretprobe | bind_jprobe => has_bit removed (PROBE_UDP_BIND c)
  end.

(** The state of a freshly loaded module. *)
Definition initial : probe_state :=
  {| loaded_probes := 0; registered := fun _ => false |}.

(** A numbering in the order plant_probe goes through the categories. *)
Definition numbering : probes_h :=
  {| PROBE_TCP_CONNECT := 0; PROBE_TCP_ACCEPT := 1; PROBE_TCP_CLOSE := 2;
     PROBE_UDP_CONNECT := 3; PROBE_UDP_BIND := 4; PROBE_UDP_CLOSE := 5;
     PROBES_NUMBER := 6;
     CONNECT_PROBE_FAILED := 1; ACCEPT_PROBE_FAILED := 2;
     CLOSE_PROBE_FAILED := 3; BIND_PROBE_FAILED := 4 |}.

(** A kernel that registers every hook. *)
Definition all_registered (h : hook) : Z := 0.

(** A kernel that refuses the accept kretprobe with -EINVAL. *)
Definition accept_refused (h : hook) : Z :=
  match h with
  | accept_kretprobe => -22
  | _ => 0
  end.

(** *** Sequences of calls *)

(** A call of the interface of the module: plant_probe, with the answers
    the kernel gives to the registrations made during the call,
    unplant_probe or unplant_all. *)
Inductive request : Type :=
  | Plant (probe : Z) (register_result : hook -> Z)
  | Unplant (probe : Z)
  | UnplantAll.

Definition serve (c : probes_h) (s : probe_state) (r : request) : probe_state :=
  match r with
  | Plant probe register_result => snd (plant_probe c register_result probe s)
  | Unplant probe => unplant_probe c probe s
  | UnplantAll => unplant_all c s
  end.

Definition serve_all (c : probes_h) (l : list request) (s : probe_state) : probe_state :=
  fold_left (serve c) l s.

(** The error codes plant_probe can return. *)
Definition failures (c : probes_h) : list Z :=
  [- CONNECT_PROBE_FAILED c; - ACCEPT_PROBE_FAILED c;
   - CLOSE_PROBE_FAILED c; - BIND_PROBE_FAILED c].

(** A kernel that refuses the bind kretprobe with -EINVAL. *)
Definition bind_refused (h : hook) : Z :=
  match h with
  | bind_kretprobe => -22
  | _ => 0
  end.

End Probes.

(** ** The secure log device *)

Module SecureLog.

(** *** Machine integers and byte addressed memory *)

Definition u64 (x : Z) : Z := x mod 2 ^ 64.
Definition u32 (x : Z) : Z := x mod 2 ^ 32.

(** A cast to int. *)
Definition to_int (x : Z) : Z := (x + 2 ^ 31) mod 2 ^ 32 - 2 ^ 31.

Definition INT_MAX : Z := 2 ^ 31 - 1.

(** Memory: the byte held at each address.  It stands for the static
    buffer log_buf, addressed from 0, and for the buffer of a session.
    The function is total: an address outside the array has a byte
    here, where the C program reads or writes outside its object.  A
    statement about a load at an index outside [0, LOG_BUF_LEN)
    therefore describes this function only, not the program. *)
Definition mem : Type := Z -> Z.

(** A static array starts zeroed. *)
Definition zeroed : mem := fun _ => 0.

(** memcpy of the bytes [bs] to the address [o]. *)
Definition write_bytes (m : mem) (o : Z) (bs : list Z) : mem :=
  fun a =>
    if (o <=? a) && (a <? o + Z.of_nat (List.length bs))
    then nth (Z.to_nat (a - o)) bs 0
    else m a.

Fixpoint read_bytes (m : mem) (o : Z) (n : nat) : list Z :=
  match n with
  | O => []
  | S k => m o :: read_bytes m (o + 1) k
  end.

(** Little endian integers of [n] bytes. *)
Fixpoint le_bytes (n : nat) (v : Z) : list Z :=
  match n with
  | O => []
  | S k => v mod 256 :: le_bytes k (v / 256)
  end.

Fixpoint le_value (bs : list Z) : Z :=
  match bs with
  | [] => 0
  | b :: r => b + 256 * le_value r
  end.

Definition store (n : nat) (m : mem) (o v : Z) : mem := write_bytes m o (le_bytes n v).
Definition load (n : nat) (m : mem) (o : Z) : Z := le_value (read_bytes m o n).

(** The text of a C string literal. *)
Definition text (s : string) : list Z :=
  map (fun a => Z.of_nat (nat_of_ascii a)) (list_ascii_of_string s).

(** *** Constants of log.h and current_details.h

    Neither header is among the files embedded here: the sizes of the two
    buffers, the syslog facility and level, the values of
    enum secure_log_type, the size of struct current_details, the place
    of its nsec member, the text CURRENT_DETAILS_FORMAT renders and the
    text print_netlog renders (None when it returns a negative number)
    are parameters. *)
Record platform : Type := {
  LOG_BUF_LEN : Z;
  USER_BUFFER_SIZE : Z;
  LOG_FACILITY : Z;
  LOG_LEVEL : Z;
  LOG_NETWORK_INTERACTION : Z;
  LOG_EXECUTION : Z;
  sizeof_current_details : Z;
  offsetof_nsec : Z;
  current_details_text : list Z -> list Z;
  print_netlog_text : Z -> Z -> Z -> list Z -> Z -> list Z -> Z -> option (list Z)
}.

(** Constants of the Linux headers. *)
Definition AF_INET : Z := 2.
Definition AF_INET6 : Z := 10.
Definition EAGAIN : Z := 11.
Definition EFAULT : Z := 14.
Definition EINVAL : Z := 22.
Definition EPIPE : Z := 32.

Section WithPlatform.

Variable P : platform.

(** *** Layout of the records (LP64: size_t of 8 bytes aligned on 8,
    int and enum of 4 bytes, struct current_details a block whose size is
    a multiple of 8) *)

Definition sizeof_size_t : Z := 8.

(** struct sec_log *)
Definition off_len : Z := 0.
Definition off_process : Z := 8.
Definition off_type : Z := 8 + sizeof_current_details P.
Definition sizeof_sec_log : Z := 16 + sizeof_current_details P.

(** struct netlog_log *)
Definition off_net_path_len : Z := sizeof_sec_log.
Definition off_protocol : Z := sizeof_sec_log + 8.
Definition off_action : Z := sizeof_sec_log + 12.
Definition off_family : Z := sizeof_sec_log + 16.
Definition off_src_port : Z := sizeof_sec_log + 20.
Definition off_dst_port : Z := sizeof_sec_log + 24.
Definition off_src : Z := sizeof_sec_log + 28.
Definition off_dst : Z := sizeof_sec_log + 44.
Definition sizeof_netlog_log : Z := sizeof_sec_log + 64.

(** struct execlog_log *)
Definition off_exec_path_len : Z := sizeof_sec_log.
Definition off_argv_len : Z := sizeof_sec_log + 8.
Definition sizeof_execlog_log : Z := sizeof_sec_log + 16.

(** [__alignof__(struct netlog_log)] *)
Definition LOG_ALIGN : Z := 8.

(** *** The buffer and its indices *)

Record log_state : Type := {
  log_buf : mem;
  log_first_seq : Z;
  log_first_idx : Z;
  log_next_seq : Z;
  log_next_idx : Z;
  first_read : bool
}.

Definition initial : log_state :=
  {| log_buf := zeroed;
     log_first_seq := 0; log_first_idx := 0;
     log_next_seq := 0; log_next_idx := 0;
     first_read := true |}.

Definition with_buf (m : mem) (st : log_state) : log_state :=
  {| log_buf := m;
     log_first_seq := log_first_seq st; log_first_idx := log_first_idx st;
     log_next_seq := log_next_seq st; log_next_idx := log_next_idx st;
     first_read := first_read st |}.

Definition with_first (seq idx : Z) (st : log_state) : log_state :=
  {| log_buf := log_buf st;
     log_first_seq := seq; log_first_idx := idx;
     log_next_seq := log_next_seq st; log_next_idx := log_next_idx st;
     first_read := first_read st |}.

Definition with_next (seq idx : Z) (st : log_state) : log_state :=
  {| log_buf := log_buf st;
     log_first_seq := log_first_seq st; log_first_idx := log_first_idx st;
     log_next_seq := seq; log_next_idx := idx;
     first_read := first_read st |}.

Definition get_netlog_path (log : Z) : Z := log + sizeof_netlog_log.
Definition get_execlog_path (log : Z) : Z := log + sizeof_execlog_log.
Definition get_execlog_argv (m : mem) (log : Z) : Z :=
  log + sizeof_execlog_log + load 8 m (log + off_exec_path_len).

Definition next_record (m : mem) (idx : Z) : Z :=
  let len := load 8 m (idx + off_len) in
  if len =? 0 then 0 else u32 (idx + len).

Definition copy_ip (m : mem) (dst : Z) (src : list Z) (family : Z) : mem :=
  if family =? AF_INET then write_bytes m dst (firstn 4 src)
  else if family =? AF_INET6 then write_bytes m dst (firstn 16 src)
  else m.

(** [size += (-size) & (LOG_ALIGN - 1)] *)
Definition align_size (size : Z) : Z :=
  u64 (size + Z.land (u64 (- size)) (LOG_ALIGN - 1)).

(** The variable [free] of find_new_record_place. *)
Definition free_space (st : log_state) : Z :=
  if log_first_idx st <? log_next_idx st
  then Z.max (u32 (LOG_BUF_LEN P - log_next_idx st)) (log_first_idx st)
  else u32 (log_first_idx st - log_next_idx st).

(** Drop the oldest record. *)
Definition drop_first (st : log_state) : log_state :=
  with_first (u64 (log_first_seq st + 1))
             (next_record (log_buf st) (log_first_idx st)) st.

(** The while loop of find_new_record_place; every turn adds 1 to
    log_first_seq, which stays below log_next_seq, so that
    log_next_seq - log_first_seq turns are enough. *)
Fixpoint drop_old (turns : nat) (size : Z) (st : log_state) : log_state :=
  match turns with
  | O => st
  | S k =>
      if log_first_seq st <? log_next_seq st then
        if u64 (size + sizeof_sec_log) <? free_space st then st
        else drop_old k size (drop_first st)
      else st
  end.

(** The state in which the loop leaves the buffer. *)
Definition after_loop (size : Z) (st : log_state) : log_state :=
  drop_old (Z.to_nat (log_next_seq st - log_first_seq st)) (align_size size) st.

Definition find_new_record_place (size : Z) (st : log_state) : log_state :=
  let size := align_size size in
  let st := drop_old (Z.to_nat (log_next_seq st - log_first_seq st)) size st in
  if LOG_BUF_LEN P <=? u64 (log_next_idx st + size + sizeof_sec_log) then
    with_next (log_next_seq st) 0
      (with_buf (store 8 (log_buf st) (log_next_idx st) 0) st)
  else st.

(** The length kept of a path or of an argument block, capped at
    LOG_BUF_LEN >> [shift]. *)
Definition capped (shift len : Z) : Z :=
  if (Z.shiftr (LOG_BUF_LEN P) shift <? len) || (INT_MAX <? len)
  then Z.min (Z.shiftr (LOG_BUF_LEN P) shift) INT_MAX
  else len.

(** An address argument: NULL, or the bytes found at the pointer. *)
Definition fill_ip (m : mem) (dst : Z) (ip : option (list Z)) (family : Z) : mem :=
  match ip with
  | None => write_bytes m dst (repeat 0 16)
  | Some src => copy_ip m dst src family
  end.

(** The assignments store_netlog_record makes to the record at [record],
    in their order.  [cur] are the bytes fill_current_details stores;
    [path] is the text of the C string, without its closing NUL. *)
Definition write_netlog_record (m : mem) (record : Z) (cur path : list Z)
    (path_len record_size : Z) (action protocol family : Z)
    (src_ip : option (list Z)) (src_port : Z)
    (dst_ip : option (list Z)) (dst_port : Z) : mem :=
  let m := write_bytes m (record + off_process)
             (firstn (Z.to_nat (sizeof_current_details P)) cur) in
  let m := store 4 m (record + off_type) (LOG_NETWORK_INTERACTION P) in
  let m := store 8 m (record + off_len) record_size in
  let m := store 8 m (record + off_net_path_len) path_len in
  let m := store 4 m (record + off_action) action in
  let m := store 4 m (record + off_protocol) protocol in
  let m := store 2 m (record + off_family) family in
  let m := fill_ip m (record + off_src) src_ip family in
  let m := fill_ip m (record + off_dst) dst_ip family in
  let m := store 4 m (record + off_src_port) src_port in
  let m := store 4 m (record + off_dst_port) dst_port in
  write_bytes m (get_netlog_path record)
    (firstn (Z.to_nat path_len) (path ++ [0])).

Definition netlog_path_len (path : list Z) : Z :=
  capped 4 (u64 (Z.of_nat (List.length path) + 1)).

Definition netlog_record_size (path : list Z) : Z :=
  u64 (sizeof_netlog_log + netlog_path_len path).

Definition store_netlog_record (cur path : list Z) (action protocol family : Z)
    (src_ip : option (list Z)) (src_port : Z)
    (dst_ip : option (list Z)) (dst_port : Z) (st : log_state) : log_state :=
  let path_len := netlog_path_len path in
  let record_size := netlog_record_size path in
  let st := find_new_record_place record_size st in
  let record := log_next_idx st in
  let m := write_netlog_record (log_buf st) record cur path path_len record_size
             action protocol family src_ip src_port dst_ip dst_port in
  with_next (u64 (log_next_seq st + 1)) (u32 (log_next_idx st + record_size))
    (with_buf m st).

Definition write_execlog_record (m : mem) (record : Z) (cur path argv : list Z)
    (path_len argv_size record_size : Z) : mem :=
  let m := write_bytes m (record + off_process)
             (firstn (Z.to_nat (sizeof_current_details P)) cur) in
  let m := store 4 m (record + off_type) (LOG_EXECUTION P) in
  let m := store 8 m (record + off_len) record_size in
  let m := store 8 m (record + off_exec_path_len) path_len in
  let m := write_bytes m (get_execlog_path record)
             (firstn (Z.to_nat path_len) (path ++ [0])) in
  let m := store 8 m (record + off_argv_len) argv_size in
  write_bytes m (get_execlog_argv m record) (firstn (Z.to_nat argv_size) argv).

Definition execlog_path_len (path : list Z) : Z :=
  capped 5 (u64 (Z.of_nat (List.length path) + 1)).

Definition execlog_record_size (path : list Z) (argv_size : Z) : Z :=
  u64 (sizeof_execlog_log + execlog_path_len path + capped 5 argv_size).

Definition store_execlog_record (cur path argv : list Z) (argv_size : Z)
    (st : log_state) : log_state :=
  let path_len := execlog_path_len path in
  let record_size := execlog_record_size path argv_size in
  let argv_size := capped 5 argv_size in
  let st := find_new_record_place record_size st in
  let record := log_next_idx st in
  let m := write_execlog_record (log_buf st) record cur path argv
             path_len argv_size record_size in
  with_next (u64 (log_next_seq st + 1)) (u32 (log_next_idx st + record_size))
    (with_buf m st).

(** *** Sequences of appends *)

Inductive append : Type :=
  | Netlog (cur path : list Z) (action protocol family : Z)
           (src_ip : option (list Z)) (src_port : Z)
           (dst_ip : option (list Z)) (dst_port : Z)
  | Execlog (cur path argv : list Z) (argv_size : Z).

Definition record_size (a : append) : Z :=
  match a with
  | Netlog _ path _ _ _ _ _ _ _ => netlog_record_size path
  | Execlog _ path _ argv_size => execlog_record_size path argv_size
  end.

(** argv_size is a size_t. *)
Definition valid_append (a : append) : bool :=
  match a with
  | Netlog _ _ _ _ _ _ _ _ _ => true
  | Execlog _ _ _ argv_size => (0 <=? argv_size) && (argv_size <? 2 ^ 64)
  end.

Definition do_append (st : log_state) (a : append) : log_state :=
  match a with
  | Netlog cur path action protocol family src_ip src_port dst_ip dst_port =>
      store_netlog_record cur path action protocol family
        src_ip src_port dst_ip dst_port st
  | Execlog cur path argv argv_size =>
      store_execlog_record cur path argv argv_size st
  end.

Definition do_appends (l : list append) (st : log_state) : log_state :=
  fold_left do_append l st.

(** The bytes a sequence of appends asks for. *)
Definition total_size (l : list append) : Z :=
  fold_right (fun a t => record_size a + t) 0 l.

(** No call of the sequence drops a record. *)
Fixpoint no_eviction (l : list append) (st : log_state) : bool :=
  match l with
  | [] => true
  | a :: r =>
      (log_first_seq (do_append st a) =? log_first_seq st)
      && no_eviction r (do_append st a)
  end.

(** Where an append puts its record. *)
Definition placed (st : log_state) (a : append) : Z :=
  log_next_idx (find_new_record_place (record_size a) st).

(** The records as they are stored: for each append, the index of its
    record and the bytes of the record right after the call. *)
Fixpoint stored (l : list append) (st : log_state) : list (Z * list Z) :=
  match l with
  | [] => []
  | a :: r =>
      let st' := do_append st a in
      (placed st a, read_bytes (log_buf st') (placed st a) (Z.to_nat (record_size a)))
      :: stored r st'
  end.

(** The walk of a reader: [n] records from [idx], each with its index
    and the bytes its length field spans, moving on with next_record. *)
Fixpoint walk (m : mem) (idx : Z) (n : nat) : list (Z * list Z) :=
  match n with
  | O => []
  | S k =>
      (idx, read_bytes m idx (Z.to_nat (load 8 m (idx + off_len))))
      :: walk m (next_record m idx) k
  end.

(** *** Sessions *)

Record user_data : Type := {
  log_curr_seq : Z;
  log_curr_idx : Z;
  simple_format : Z;
  send_eof : Z;
  buf : mem
}.

Definition with_cursor (seq idx : Z) (d : user_data) : user_data :=
  {| log_curr_seq := seq; log_curr_idx := idx;
     simple_format := simple_format d; send_eof := send_eof d; buf := buf d |}.

Definition with_user_buf (b : mem) (d : user_data) : user_data :=
  {| log_curr_seq := log_curr_seq d; log_curr_idx := log_curr_idx d;
     simple_format := simple_format d; send_eof := send_eof d; buf := b |}.

(** [!!x] *)
Definition truth (x : Z) : Z := if x =? 0 then 0 else 1.

(** secure_log_open, the allocation granted: [junk] is what kmalloc
    hands out, [fmt] and [eof] are the module parameters simple_format
    and send_eof. *)
Definition secure_log_open (junk : mem) (fmt eof : Z) (st : log_state)
  : user_data * log_state :=
  if first_read st then
    ({| log_curr_seq := log_first_seq st; log_curr_idx := log_first_idx st;
        simple_format := truth fmt; send_eof := truth eof; buf := junk |},
     {| log_buf := log_buf st;
        log_first_seq := log_first_seq st; log_first_idx := log_first_idx st;
        log_next_seq := log_next_seq st; log_next_idx := log_next_idx st;
        first_read := false |})
  else
    ({| log_curr_seq := log_next_seq st; log_curr_idx := log_next_idx st;
        simple_format := truth fmt; send_eof := truth eof; buf := junk |},
     st).


(** *** Rendering *)

(** sprintf of the text [s] to the address [at]: the text and its NUL. *)
Definition sprintf (b : mem) (at_ : Z) (s : list Z) : mem :=
  write_bytes b at_ (s ++ [0]).

(** snprintf of the text [s] within [size] bytes. *)
Definition snprintf (b : mem) (at_ size : Z) (s : list Z) : mem :=
  if size <=? 0 then b
  else write_bytes b at_ (firstn (Z.to_nat (size - 1)) s ++ [0]).

(** The bytes from [at_] up to a NUL, [n] at most. *)
Fixpoint chars (m : mem) (at_ : Z) (n : nat) : list Z :=
  match n with
  | O => []
  | S k => if m at_ =? 0 then [] else m at_ :: chars m (at_ + 1) k
  end.

(** What [%.*s] prints for the precision [prec] within a buffer of
    [size] bytes: a negative precision counts as none, and what lies
    beyond [size] bytes changes neither the bytes written nor the test
    of the result against [size]. *)
Definition precision_chars (m : mem) (at_ prec size : Z) : list Z :=
  chars m at_ (Z.to_nat (if prec <? 0 then size else prec)).

(** Decimal digits. *)
Fixpoint digits (fuel : nat) (n : Z) (acc : list Z) : list Z :=
  match fuel with
  | O => acc
  | S k =>
      let acc := (48 + n mod 10) :: acc in
      if n / 10 =? 0 then acc else digits k (n / 10) acc
  end.

Definition decimal (n : Z) : list Z := digits 20 n [].

Definition padded (width : nat) (fill : Z) (s : list Z) : list Z :=
  repeat fill (width - List.length s) ++ s.

(** The result of a renderer: the session buffer and the new [len],
    0 when the output was cut. *)
Definition rendered : Type := (mem * Z)%type.

(** UPDATE_POINTERS, followed by [k] when it does not return. *)
Definition UPDATE_POINTERS (b : mem) (change remaining len : Z)
    (k : Z -> Z -> rendered) : rendered :=
  if remaining <=? change then (b, 0)
  else k (u64 (len + change)) (u64 (remaining - change)).

(** The text print_netlog renders for the record at [record]. *)
Definition netlog_text_of (m : mem) (record : Z) : option (list Z) :=
  print_netlog_text P
    (load 4 m (record + off_protocol))
    (load 2 m (record + off_family))
    (load 4 m (record + off_action))
    (read_bytes m (record + off_src) 16)
    (to_int (load 4 m (record + off_src_port)))
    (read_bytes m (record + off_dst) 16)
    (to_int (load 4 m (record + off_dst_port))).

Definition netlog_print (m : mem) (record : Z) (data : mem) (len : Z) : rendered :=
  let remaining := u64 (USER_BUFFER_SIZE P - len) in
  if load 8 m (record + off_len) <? sizeof_netlog_log then
    let s := text "BROKEN RECCORD" in
    let data := snprintf data len remaining s in
    UPDATE_POINTERS data (Z.of_nat (List.length s)) remaining len
      (fun len _ => (data, len))
  else
    let s := precision_chars m (get_netlog_path record)
               (to_int (load 8 m (record + off_net_path_len))) remaining
             ++ text " " in
    let data := snprintf data len remaining s in
    UPDATE_POINTERS data (Z.of_nat (List.length s)) remaining len
      (fun len remaining =>
         match netlog_text_of m record with
         | None => (data, 0)
         | Some s =>
             let data := snprintf data len remaining s in
             UPDATE_POINTERS data (Z.of_nat (List.length s)) remaining len
               (fun len _ => (data, len))
         end).

Definition execlog_print (m : mem) (record : Z) (data : mem) (len : Z) : rendered :=
  let remaining := u64 (USER_BUFFER_SIZE P - len) in
  if load 8 m (record + off_len) <? sizeof_execlog_log then
    let s := text "BROKEN RECCORD" in
    let data := snprintf data len remaining s in
    UPDATE_POINTERS data (Z.of_nat (List.length s)) remaining len
      (fun len _ => (data, len))
  else
    let path := precision_chars m (get_execlog_path record)
                  (to_int (load 8 m (record + off_exec_path_len))) remaining in
    let argv := precision_chars m (get_execlog_argv m record)
                  (to_int (load 8 m (record + off_argv_len))) remaining in
    let s := path ++ text " " ++ argv in
    let data := snprintf data len remaining s in
    UPDATE_POINTERS data (Z.of_nat (List.length s)) remaining len
      (fun len _ => (data, len)).

Definition get_module_name (type : Z) : list Z :=
  if type =? LOG_NETWORK_INTERACTION P then text "netlog"
  else if type =? LOG_EXECUTION P then text "execlog"
  else text "unknown".

(** The text CURRENT_DETAILS_FORMAT renders for the record at
    [record]. *)
Definition details_text_of (m : mem) (record : Z) : list Z :=
  current_details_text P
    (read_bytes m (record + off_process) (Z.to_nat (sizeof_current_details P))).

Definition secure_log_read_fill_record (m : mem) (b : mem) (len : Z) (record : Z)
  : rendered :=
  let s := details_text_of m record ++ text " " in
  let b := sprintf b len s in
  let len := u64 (len + Z.of_nat (List.length s)) in
  let type := load 4 m (record + off_type) in
  let '(b, len) :=
    if type =? LOG_NETWORK_INTERACTION P then netlog_print m record b len
    else if type =? LOG_EXECUTION P then execlog_print m record b len
    else
      let s := text "Unknown entry" in
      (sprintf b len s, u64 (len + Z.of_nat (List.length s))) in
  let '(b, len) :=
    if len =? 0 then
      (sprintf b (USER_BUFFER_SIZE P - 7) (text "TRUNC"), USER_BUFFER_SIZE P - 2)
    else (b, len) in
  (sprintf b len (text (String "010"%char EmptyString)), u64 (len + 1)).

(** The line header secure_log_read prints first. *)
Definition line_header (m : mem) (record : Z) (simple : Z) : list Z :=
  let nsec := load 8 m (record + off_process + offsetof_nsec P) in
  let ts := nsec / 1000000000 in
  let rem_nsec := nsec mod 1000000000 in
  let stamp :=
    text "[" ++ padded 5 32 (decimal ts) ++ text "."
    ++ padded 6 48 (decimal (rem_nsec / 1000)) ++ text "]: " in
  let name := get_module_name (load 4 m (record + off_type)) in
  if simple =? 0 then
    text "<" ++ decimal (Z.lor (Z.shiftl (LOG_FACILITY P) 3) (LOG_LEVEL P))
    ++ text ">1 - - " ++ name ++ text " - - - " ++ stamp
  else name ++ text " " ++ stamp.

(** *** Reading *)

(** Whether the bytes [sub] occur in [l], one behind the other. *)
Fixpoint starts_with (sub l : list Z) : bool :=
  match sub, l with
  | [], _ => true
  | _ :: _, [] => false
  | x :: sub', y :: l' => (x =? y) && starts_with sub' l'
  end.

Fixpoint contains (sub l : list Z) : bool :=
  starts_with sub l
  || match l with
     | [] => false
     | _ :: r => contains sub r
     end.

(** How a call of secure_log_read ends: it returns [ret], with the bytes
    copy_to_user has put in the buffer of the caller, or it sleeps on
    log_wait (an append wakes it up and the call goes on from the test of
    its loop, a signal ends it). *)
Inductive outcome : Type :=
  | Returns (ret : Z) (copied : list Z)
  | Sleeps.

(** The line of the record the cursor of [d] is at, and the session
    once the cursor has moved on. *)
Definition deliver (st : log_state) (d : user_data) : Z * user_data :=
  let m := log_buf st in
  let record :=
    if load 8 m (log_curr_idx d + off_len) =? 0 then 0 else log_curr_idx d in
  let s := line_header m record (simple_format d) in
  let b := sprintf (buf d) 0 s in
  let '(b, len) := secure_log_read_fill_record m b (Z.of_nat (List.length s)) record in
  (len,
   with_cursor (u64 (log_curr_seq d + 1)) (next_record m (log_curr_idx d))
     (with_user_buf b d)).

(** secure_log_read on a session that is not NULL and whose mutex is
    free; [nonblock] is O_NONBLOCK, [count] the size of the buffer of the
    caller, [writable] whether copy_to_user succeeds. *)
Definition secure_log_read (st : log_state) (d : user_data) (nonblock : bool)
    (count : Z) (writable : bool) : outcome * user_data :=
  if log_curr_seq d =? log_next_seq st then
    if nonblock then (Returns (- EAGAIN) [], d)
    else if negb (send_eof d =? 0) then (Returns 0 [], d)
    else (Sleeps, d)
  else if log_curr_seq d <? log_first_seq st then
    (Returns (- EPIPE) [],
     with_cursor (log_first_seq st) (log_first_idx st) d)
  else
    let '(len, d) := deliver st d in
    if count <? len then (Returns (- EINVAL) [], d)
    else if negb writable then (Returns (- EFAULT) [], d)
    else (Returns len (read_bytes (buf d) 0 (Z.to_nat len)), d).



(** What the code needs of the constants: a block of details of whole
    words that holds nsec, a buffer of an int size in which two records
    of the largest size and a header fit, two different record types and
    a session buffer that holds the cut mark. *)
Definition wf_platform : bool :=
  (0 <=? sizeof_current_details P)
  && (sizeof_current_details P mod 8 =? 0)
  && (0 <=? offsetof_nsec P)
  && (offsetof_nsec P + 8 <=? sizeof_current_details P)
  && (LOG_BUF_LEN P <? 2 ^ 31)
  && (2 * (sizeof_netlog_log + LOG_BUF_LEN P / 16 + 8) + sizeof_sec_log <? LOG_BUF_LEN P)
  && (0 <=? LOG_NETWORK_INTERACTION P) && (LOG_NETWORK_INTERACTION P <? 2 ^ 32)
  && (0 <=? LOG_EXECUTION P) && (LOG_EXECUTION P <? 2 ^ 32)
  && negb (LOG_NETWORK_INTERACTION P =? LOG_EXECUTION P)
  && (7 <? USER_BUFFER_SIZE P) && (USER_BUFFER_SIZE P <? 2 ^ 31).

End WithPlatform.

(** *** Invariants of the buffer *)

(** The content of wf_platform. *)
Record wf_facts (P : platform) : Prop := {
  wf_details : 0 <= sizeof_current_details P;
  wf_details_words : sizeof_current_details P mod 8 = 0;
  wf_nsec : 0 <= offsetof_nsec P /\ offsetof_nsec P + 8 <= sizeof_current_details P;
  wf_int : LOG_BUF_LEN P < 2 ^ 31;
  wf_room : 2 * (sizeof_netlog_log P + LOG_BUF_LEN P / 16 + 8) + sizeof_sec_log P
            < LOG_BUF_LEN P;
  wf_net : 0 <= LOG_NETWORK_INTERACTION P < 2 ^ 32;
  wf_exec : 0 <= LOG_EXECUTION P < 2 ^ 32;
  wf_types : LOG_NETWORK_INTERACTION P <> LOG_EXECUTION P;
  wf_user : 7 < USER_BUFFER_SIZE P < 2 ^ 31
}.

(** The writes of [m'] over [m] stay within [lo, hi). *)
Definition unchanged_outside (m m' : mem) (lo hi : Z) : Prop :=
  forall a, a < lo \/ hi <= a -> m' a = m a.

(** [n] records lie one behind the other from [idx] to [stop]. *)
Fixpoint chain (m : mem) (idx : Z) (n : nat) (stop : Z) : Prop :=
  match n with
  | O => idx = stop
  | S k =>
      8 <= load 8 m (idx + off_len) /\ 0 <= idx /\
      idx + load 8 m (idx + off_len) <= stop /\ stop < 2 ^ 32 /\
      chain m (idx + load 8 m (idx + off_len)) k stop
  end.

(** The buffer after [n] appends none of which dropped a record. *)
Record filled (P : platform) (n : nat) (st : log_state) : Prop := {
  filled_first_seq : log_first_seq st = 0;
  filled_first_idx : log_first_idx st = 0;
  filled_next_seq : log_next_seq st = Z.of_nat n;
  filled_next_idx : 0 <= log_next_idx st < LOG_BUF_LEN P;
  filled_chain : chain (log_buf st) 0 n (log_next_idx st)
}.

(** A small instance, to run the code on: a buffer of [len] bytes,
    session buffers of [size] bytes, details of 8 bytes that hold nsec
    and render as the text pid, and a print_netlog that renders the two
    ports. *)
Definition small (len size : Z) : platform :=
  {| LOG_BUF_LEN := len;
     USER_BUFFER_SIZE := size;
     LOG_FACILITY := 4;
     LOG_LEVEL := 5;
     LOG_NETWORK_INTERACTION := 0;
     LOG_EXECUTION := 1;
     sizeof_current_details := 8;
     offsetof_nsec := 0;
     current_details_text := fun _ => text "pid";
     print_netlog_text := fun _ _ _ _ src_port _ dst_port =>
       Some (decimal src_port ++ text " -> " ++ decimal dst_port) |}.

Definition demo : platform := small 512 64.

(** A connect of the program "a" from the port [port] to 10.0.0.1:443,
    seen at 1 ns. *)
Definition demo_record (port : Z) : append :=
  Netlog [1; 0; 0; 0; 0; 0; 0; 0] [97] 1 2 AF_INET
    (Some [10; 0; 0; 1]) port None 443.

(** A session opened on the empty buffer, in the simple format. *)
Definition demo_session : user_data := fst (secure_log_open zeroed 1 0 initial).

(** Six such records: the sixth does not fit behind the fifth, the two
    oldest are dropped and the sixth goes to the index 0, behind a
    marker at the index 450. *)
Definition demo_wrapped : log_state :=
  do_appends demo (map demo_record [1; 2; 3; 4; 5; 6]) initial.

(** A non-blocking read into a buffer of [count] bytes. *)
Definition demo_read (st : log_state) (count : Z) (d : user_data) : outcome * user_data :=
  secure_log_read demo st d true count true.

(** The five records that fit, and the session once it has read
    them. *)
Definition demo_filled : log_state :=
  do_appends demo (map demo_record [1; 2; 3; 4; 5]) initial.

Definition demo_reader : user_data :=
  let next d := snd (demo_read demo_filled 100 d) in
  next (next (next (next (next demo_session)))).

(** The same with session buffers of 256 bytes. *)
Definition roomy : platform := small 512 256.

(** A path of 40 bytes, longer than the 32 bytes these instances keep. *)
Definition long_path : list Z := repeat 97 40.

Definition long_record : append :=
  Netlog [1; 0; 0; 0; 0; 0; 0; 0] long_path 1 2 AF_INET
    (Some [10; 0; 0; 1]) 1 None 443.

(** *** Sequences of reads *)

(** The arguments of a call of secure_log_read: O_NONBLOCK, the size of
    the buffer of the caller and whether copy_to_user succeeds. *)
Definition read_args : Type := (bool * Z * bool)%type.

(** The session after a call. *)
Definition read_on (P : platform) (st : log_state) (d : user_data) (a : read_args)
  : user_data :=
  snd (secure_log_read P st d (fst (fst a)) (snd (fst a)) (snd a)).

Definition reads (P : platform) (st : log_state) (l : list read_args) (d : user_data)
  : user_data :=
  fold_left (read_on P st) l d.

(** The execution of the program "a" with the arguments "a -l". *)
Definition demo_exec : append :=
  Execlog [1; 0; 0; 0; 0; 0; 0; 0] [97] [97; 32; 45; 108] 4.


(** Nine connects: the sixth wraps, the seventh to the ninth follow it
    and each drops the oldest record. *)
Definition demo_nine : log_state :=
  do_appends demo (map demo_record [1; 2; 3; 4; 5; 6; 7; 8; 9]) initial.

(** Eighteen connects of "a", then six of the program with the long
    path, whose record takes 120 bytes. *)
Definition demo_mixed : list append :=
  map demo_record (repeat 1 18) ++ repeat long_record 6.

End SecureLog.

(** ** The handlers of the network probes *)

Module NetlogProbes.

(** netlog.h, whitelist.h and internal.h are not among the files embedded
    here: the values of enum netlog_protocol and of enum netlog_action,
    MAX_EXEC_PATH, the switch WHITELISTING and the answer of
    is_whitelisted (to a path, a family, a destination address and a
    destination port) enter as parameters. *)
Record netlog_h : Type := {
  PROTO_TCP : Z;
  PROTO_UDP : Z;
  ACTION_CONNECT : Z;
  ACTION_ACCEPT : Z;
  ACTION_CLOSE : Z;
  ACTION_BIND : Z;
  MAX_EXEC_PATH : Z;
  WHITELISTING : bool;
  is_whitelisted : list Z -> Z -> option (list Z) -> Z -> bool
}.

(** Constants of the Linux headers. *)
Definition IPPROTO_TCP : Z := 6.
Definition IPPROTO_UDP : Z := 17.
Definition NULL : Z := 0.

(** struct sock with the members of inet_sk and inet6_sk the handlers
    read: the ports as the __be16 values the host loads, the addresses
    as the bytes found at them. *)
Record sock : Type := {
  sk_family : Z;
  sk_protocol : Z;
  DPORT : Z;
  SPORT : Z;
  DADDR : list Z;
  SADDR : list Z;
  daddr : list Z;
  saddr : list Z
}.

(** struct socket: [sk] is None for NULL. *)
Record socket : Type := { sk : option sock }.

(** The executable of a process: what d_path answers for a buffer of a
    given length, None when it answers an error pointer. *)
Record file : Type := { d_path : Z -> option (list Z) }.

Record mm_struct : Type := { exe_file : option file }.

Record task_struct : Type := {
  pid : Z;
  mm : option mm_struct
}.

(** What a handler finds in the kernel when it runs: the task [current]
    (never NULL in the context of a system call, so that the tests the
    handlers make of it always pass), the bytes fill_current_details
    stores for it, the struct socket behind each pointer and the pointer
    sockfd_lookup returns for each descriptor (NULL when it is not a
    socket). *)
Record kernel : Type := {
  current : task_struct;
  details : list Z;
  socket_at : Z -> socket;
  sockfd_lookup : Z -> Z
}.

(** The state the handlers share: the table match_socket, loaded_probes
    with the hooks, the log buffer, and for each socket the references
    sockfd_lookup has taken that sockfd_put has not given back. *)
Record state : Type := {
  match_socket : Z -> Z;
  probes : Probes.probe_state;
  log : SecureLog.log_state;
  held : Z -> Z
}.

Definition initial : state :=
  {| match_socket := fun _ => NULL;
     probes := Probes.initial;
     log := SecureLog.initial;
     held := fun _ => 0 |}.

(** [match_socket[p] = sock] *)
Definition set_match (p sock : Z) (st : state) : state :=
  {| match_socket := fun x => if x =? p then sock else match_socket st x;
     probes := probes st; log := log st; held := held st |}.

Definition with_log (lg : SecureLog.log_state) (st : state) : state :=
  {| match_socket := match_socket st; probes := probes st; log := lg;
     held := held st |}.

(** The reference a successful sockfd_lookup takes. *)
Definition get (sock : Z) (st : state) : state :=
  {| match_socket := match_socket st; probes := probes st; log := log st;
     held := fun x => if x =? sock then held st x + 1 else held st x |}.

Definition sockfd_put (sock : Z) (st : state) : state :=
  {| match_socket := match_socket st; probes := probes st; log := log st;
     held := fun x => if x =? sock then held st x - 1 else held st x |}.

(** A cast to u8. *)
Definition u8 (x : Z) : Z := x mod 2 ^ 8.

(** ntohs on a little endian host. *)
Definition ntohs (x : Z) : Z := (x mod 256) * 256 + (x / 256) mod 256.

Definition path_from_mm (mm : option mm_struct) (length : Z) : option (list Z) :=
  match mm with
  | None => None
  | Some mm =>
      match exe_file mm with
      | None => None
      | Some f => d_path f length
      end
  end.

(** The addresses log_if_not_whitelisted points at: the IPv4 or the IPv6
    ones by the family, NULL for any other family. *)
Definition dst_ip_of (s : sock) : option (list Z) :=
  if sk_family s =? SecureLog.AF_INET then Some (DADDR s)
  else if sk_family s =? SecureLog.AF_INET6 then Some (daddr s)
  else None.

Definition src_ip_of (s : sock) : option (list Z) :=
  if sk_family s =? SecureLog.AF_INET then Some (SADDR s)
  else if sk_family s =? SecureLog.AF_INET6 then Some (saddr s)
  else None.

Section WithHeaders.

Variable c : Probes.probes_h.
Variable N : netlog_h.
Variable P : SecureLog.platform.

(** log_if_not_whitelisted on a socket whose struct sock is [s]. *)
Definition log_if_not_whitelisted (K : kernel) (s : sock) (protocol action : Z)
    (lg : SecureLog.log_state) : SecureLog.log_state :=
  match path_from_mm (mm (current K)) (MAX_EXEC_PATH N) with
  | None => lg
  | Some path =>
      let family := sk_family s in
      let dst_port := ntohs (DPORT s) in
      let src_port := ntohs (SPORT s) in
      let dst_ip := dst_ip_of s in
      let src_ip := src_ip_of s in
      if WHITELISTING N && is_whitelisted N path family dst_ip dst_port then lg
      else
        SecureLog.store_netlog_record P (details K) path (u8 action) (u8 protocol)
          family src_ip src_port dst_ip dst_port lg
  end.

Definition is_inet (s : sock) : bool :=
  (sk_family s =? SecureLog.AF_INET) || (sk_family s =? SecureLog.AF_INET6).

(** The test of the post handlers on a socket that is not NULL:
    [sock->sk != NULL], a family AF_INET or AF_INET6 and the protocol
    [ipproto]; the record is logged when it passes. *)
Definition log_inet (K : kernel) (sock ipproto protocol action : Z) (st : state)
  : state :=
  match sk (socket_at K sock) with
  | None => st
  | Some s =>
      if is_inet s && (sk_protocol s =? ipproto)
      then with_log (log_if_not_whitelisted K s protocol action (log st)) st
      else st
  end.

Definition pre_inet_stream_connect (K : kernel) (sock : Z) (st : state) : state :=
  set_match (pid (current K)) sock st.

Definition post_inet_stream_connect (K : kernel) (st : state) : state :=
  let sock := match_socket st (pid (current K)) in
  let st :=
    if sock =? NULL then st
    else log_inet K sock IPPROTO_TCP (PROTO_TCP N) (ACTION_CONNECT N) st in
  set_match (pid (current K)) NULL st.

Definition pre_inet_dgram_connect (K : kernel) (sock : Z) (st : state) : state :=
  set_match (pid (current K)) sock st.

Definition post_inet_dgram_connect (K : kernel) (st : state) : state :=
  let sock := match_socket st (pid (current K)) in
  let st :=
    if sock =? NULL then st
    else log_inet K sock IPPROTO_UDP (PROTO_UDP N) (ACTION_CONNECT N) st in
  set_match (pid (current K)) NULL st.

(** [fd] is the value of the return register. *)
Definition post_sys_accept (K : kernel) (fd : Z) (st : state) : state :=
  let sock := sockfd_lookup K fd in
  if sock =? NULL then st
  else
    sockfd_put sock
      (log_inet K sock IPPROTO_TCP (PROTO_TCP N) (ACTION_ACCEPT N) (get sock st)).

Definition pre_sys_close (K : kernel) (fd : Z) (st : state) : state :=
  let sock := sockfd_lookup K fd in
  if sock =? NULL then st
  else
    let st := get sock st in
    let st :=
      match sk (socket_at K sock) with
      | None => st
      | Some s =>
          if negb (is_inet s) then st
          else if has_bit (Probes.loaded_probes (probes st)) (Probes.PROBE_TCP_CLOSE c)
                  && (sk_protocol s =? IPPROTO_TCP) && negb (DPORT s =? 0)
          then with_log (log_if_not_whitelisted K s (PROTO_TCP N) (ACTION_CLOSE N)
                           (log st)) st
          else if has_bit (Probes.loaded_probes (probes st)) (Probes.PROBE_UDP_CLOSE c)
                  && (sk_protocol s =? IPPROTO_UDP) && negb (SPORT s =? 0)
          then with_log (log_if_not_whitelisted K s (PROTO_UDP N) (ACTION_CLOSE N)
                           (log st)) st
          else st
      end in
    sockfd_put sock st.

Definition post_sys_bind (K : kernel) (st : state) : state :=
  let sock := match_socket st (pid (current K)) in
  let st :=
    if sock =? NULL then st
    else sockfd_put sock
           (log_inet K sock IPPROTO_UDP (PROTO_UDP N) (ACTION_BIND N) st) in
  set_match (pid (current K)) NULL st.

Definition pre_sys_bind (K : kernel) (sockfd : Z) (st : state) : state :=
  let sock := sockfd_lookup K sockfd in
  if sock =? NULL then st
  else set_match (pid (current K)) sock (get sock st).

(** handler_fault: every trap is left to the kernel. *)
Definition handler_fault (trap_number : Z) : Z := 0.

(** *** Runs of handlers *)

(** A probe that fires, with the arguments of the probed function or its
    return value. *)
Inductive event : Type :=
  | Pre_inet_stream_connect (sock : Z)
  | Post_inet_stream_connect
  | Pre_inet_dgram_connect (sock : Z)
  | Post_inet_dgram_connect
  | Post_sys_accept (fd : Z)
  | Pre_sys_close (fd : Z)
  | Post_sys_bind
  | Pre_sys_bind (sockfd : Z).

Definition handle (st : state) (e : kernel * event) : state :=
  let K := fst e in
  match snd e with
  | Pre_inet_stream_connect sock => pre_inet_stream_connect K sock st
  | Post_inet_stream_connect => post_inet_stream_connect K st
  | Pre_inet_dgram_connect sock => pre_inet_dgram_connect K sock st
  | Post_inet_dgram_connect => post_inet_dgram_connect K st
  | Post_sys_accept fd => post_sys_accept K fd st
  | Pre_sys_close fd => pre_sys_close K fd st
  | Post_sys_bind => post_sys_bind K st
  | Pre_sys_bind sockfd => pre_sys_bind K sockfd st
  end.

Definition handle_all (l : list (kernel * event)) (st : state) : state :=
  fold_left handle l st.

(** The events of [l] come from tasks other than [p]. *)
Definition others (p : Z) (l : list (kernel * event)) : bool :=
  forallb (fun e => negb (pid (current (fst e)) =? p)) l.

(** The record a handler logs for the struct sock [s]: the path of the
    executable, which is not whitelisted, and the family, the ports and
    the addresses of [s]. *)
Definition logged (K : kernel) (s : sock) (protocol action : Z)
    (before after : SecureLog.log_state) : Prop :=
  exists path,
    path_from_mm (mm (current K)) (MAX_EXEC_PATH N) = Some path /\
    WHITELISTING N
    && is_whitelisted N path (sk_family s) (dst_ip_of s) (ntohs (DPORT s)) = false /\
    after = SecureLog.store_netlog_record P (details K) path (u8 action)
              (u8 protocol) (sk_family s) (src_ip_of s) (ntohs (SPORT s))
              (dst_ip_of s) (ntohs (DPORT s)) before.

End WithHeaders.

(** *** An instance to run the handlers on *)

(** Values for the constants, no whitelist. *)
Definition headers : netlog_h :=
  {| PROTO_TCP := 0; PROTO_UDP := 1;
     ACTION_CONNECT := 0; ACTION_ACCEPT := 1; ACTION_CLOSE := 2; ACTION_BIND := 3;
     MAX_EXEC_PATH := 950;
     WHITELISTING := false;
     is_whitelisted := fun _ _ _ _ => false |}.

(** A TCP socket over IPv4, from 10.0.0.2:40000 to 10.0.0.1:443 (the
    ports as a little endian host loads their big endian bytes). *)
Definition tcp_sock : sock :=
  {| sk_family := SecureLog.AF_INET; sk_protocol := IPPROTO_TCP;
     DPORT := 47873; SPORT := 16540;
     DADDR := [10; 0; 0; 1]; SADDR := [10; 0; 0; 2];
     daddr := repeat 0 16; saddr := repeat 0 16 |}.

(** A UDP socket over IPv4 bound to the port 53. *)
Definition udp_sock : sock :=
  {| sk_family := SecureLog.AF_INET; sk_protocol := IPPROTO_UDP;
     DPORT := 0; SPORT := 13568;
     DADDR := [0; 0; 0; 0]; SADDR := [10; 0; 0; 2];
     daddr := repeat 0 16; saddr := repeat 0 16 |}.

(** The task [p] running the program "a": the socket at the address 100
    is the TCP socket and the descriptor 3 of the task, the socket at
    200 the UDP socket and the descriptor 4. *)
Definition task (p : Z) : kernel :=
  {| current := {| pid := p;
                   mm := Some {| exe_file := Some {| d_path := fun _ => Some [97] |} |} |};
     details := [1; 0; 0; 0; 0; 0; 0; 0];
     socket_at := fun a => if a =? 100 then {| sk := Some tcp_sock |}
                           else if a =? 200 then {| sk := Some udp_sock |}
                           else {| sk := None |};
     sockfd_lookup := fun fd => if fd =? 3 then 100 else if fd =? 4 then 200 else NULL |}.

End NetlogProbes.

(** ** Creation of the device *)

Module Device.

(** The objects init_secure_dev creates: the class secure_class, the
    region of device numbers secure_dev, the character device
    secure_c_dev and the device dev. *)
Inductive object : Type :=
  | secure_class
  | secure_dev
  | secure_c_dev
  | dev.

(** What the kernel answers to the four calls of init_secure_dev.
    class_create and device_create answer a pointer: it is an error
    pointer when it lies in the last 4095 addresses, a negative number
    here, which PTR_ERR gives back; alloc_chrdev_region and cdev_add
    answer an int. *)
Record answers : Type := {
  class_create : Z;
  alloc_chrdev_region : Z;
  cdev_add : Z;
  device_create : Z
}.

Definition IS_ERR (ptr : Z) : bool := (-4095 <=? ptr) && (ptr <? 0).
Definition PTR_ERR (ptr : Z) : Z := ptr.

(** The objects that exist. *)
Definition objects : Type := object -> bool.

Definition nothing : objects := fun _ => false.

Definition object_eqb (a b : object) : bool :=
  match a, b with
  | secure_class, secure_class
  | secure_dev, secure_dev
  | secure_c_dev, secure_c_dev
  | dev, dev => true
  | _, _ => false
  end.

Definition set (o : object) (b : bool) (s : objects) : objects :=
  fun x => if object_eqb x o then b else s x.

Definition class_destroy (s : objects) : objects := set secure_class false s.
Definition unregister_chrdev_region (s : objects) : objects := set secure_dev false s.
Definition cdev_del (s : objects) : objects := set secure_c_dev false s.
Definition device_destroy (s : objects) : objects := set dev false s.

Definition init_secure_dev (k : answers) (s : objects) : Z * objects :=
  if IS_ERR (class_create k) then (PTR_ERR (class_create k), s)
  else
    let s := set secure_class true s in
    let err := alloc_chrdev_region k in
    if err <? 0 then (err, class_destroy s)
    else
      let s := set secure_dev true s in
      let err := cdev_add k in
      if err <? 0 then (err, class_destroy (unregister_chrdev_region s))
      else
        let s := set secure_c_dev true s in
        if IS_ERR (device_create k) then
          (PTR_ERR (device_create k),
           class_destroy (unregister_chrdev_region (cdev_del s)))
        else (0, set dev true s).

Definition destroy_secure_dev (s : objects) : objects :=
  class_destroy (unregister_chrdev_region (cdev_del (device_destroy s))).

End Device.
(** ** Facts on bit tests *)

Lemma shiftl_1_testbit (p n : Z) :
  0 <= p -> Z.testbit (Z.shiftl 1 p) n = (p =? n).
Proof.
  intros Hp. rewrite Z.shiftl_1_l. apply Z.pow2_bits_eqb. exact Hp.
Qed.

Lemma land_bit_cases (x p : Z) :
  0 <= p ->
  Z.land x (Z.shiftl 1 p) = if Z.testbit x p then Z.shiftl 1 p else 0.
Proof.
  intros Hp. apply Z.bits_inj'. intros n Hn.
  rewrite Z.land_spec, shiftl_1_testbit by exact Hp.
  destruct (Z.eqb_spec p n) as [->|Hne].
  - destruct (Z.testbit x n) eqn:E.
    + rewrite shiftl_1_testbit, Z.eqb_refl by exact Hn. reflexivity.
    + rewrite Z.bits_0. reflexivity.
  - rewrite andb_false_r. destruct (Z.testbit x p).
    + rewrite shiftl_1_testbit by exact Hp.
      symmetry. apply Z.eqb_neq. exact Hne.
    + rewrite Z.bits_0. reflexivity.
Qed.

Lemma has_bit_testbit (x p : Z) : 0 <= p -> has_bit x p = Z.testbit x p.
Proof.
  intros Hp. unfold has_bit. rewrite land_bit_cases by exact Hp.
  destruct (Z.testbit x p); [|reflexivity].
  rewrite Z.shiftl_1_l.
  assert (0 < 2 ^ p) by (apply Z.pow_pos_nonneg; lia).
  destruct (Z.eqb_spec (2 ^ p) 0); [lia | reflexivity].
Qed.


(** ** Facts on the probe lifecycle manager *)

Module ProbesFacts.
Import Probes.

Lemma distinctb_NoDup (l : list Z) : distinctb l = true -> NoDup l.
Proof.
  induction l as [|x r IH]; simpl; intros H.
  - constructor.
  - apply andb_true_iff in H. destruct H as [Hx Hr].
    constructor; [|auto].
    intros Hin. apply negb_true_iff in Hx.
    assert (existsb (Z.eqb x) r = true); [|congruence].
    apply existsb_exists. exists x. split; [exact Hin | apply Z.eqb_refl].
Qed.

Lemma wf_probes_h_facts (c : probes_h) : wf_probes_h c = true -> wf_facts c.
Proof.
  unfold wf_probes_h. intros H.
  apply andb_true_iff in H. destruct H as [H H4].
  apply andb_true_iff in H. destruct H as [H H3].
  apply andb_true_iff in H. destruct H as [H H2].
  apply andb_true_iff in H. destruct H as [H H1].
  apply andb_true_iff in H. destruct H as [Hr Hd].
  apply negb_true_iff, Z.eqb_neq in H1, H2, H3, H4.
  constructor; try assumption.
  - intros p Hp. rewrite forallb_forall in Hr. specialize (Hr p Hp). lia.
  - apply distinctb_NoDup. assumption.
Qed.

Lemma has_bit_lor (x p q : Z) :
  0 <= p -> 0 <= q -> has_bit (Z.lor x (bit p)) q = has_bit x q || (p =? q).
Proof.
  intros Hp Hq. rewrite !has_bit_testbit by assumption.
  rewrite Z.lor_spec. unfold bit. rewrite shiftl_1_testbit by assumption.
  reflexivity.
Qed.

Lemma has_bit_new (probe loaded p : Z) :
  0 <= p ->
  has_bit (Z.land (Z.lxor probe loaded) probe) p
  = has_bit probe p && negb (has_bit loaded p).
Proof.
  intros Hp. rewrite !has_bit_testbit by assumption.
  rewrite Z.land_spec, Z.lxor_spec.
  destruct (Z.testbit probe p), (Z.testbit loaded p); reflexivity.
Qed.

Lemma has_bit_removed (loaded probe p : Z) :
  0 <= p ->
  has_bit (Z.lxor loaded (Z.land loaded probe)) p
  = has_bit loaded p && negb (has_bit probe p).
Proof.
  intros Hp. rewrite !has_bit_testbit by assumption.
  rewrite Z.lxor_spec, Z.land_spec.
  destruct (Z.testbit probe p), (Z.testbit loaded p); reflexivity.
Qed.


Lemma wf_pairwise (c : probes_h) :
  wf_facts c ->
  PROBE_TCP_CONNECT c <> PROBE_TCP_ACCEPT c /\ PROBE_TCP_CONNECT c <> PROBE_TCP_CLOSE c /\
  PROBE_TCP_CONNECT c <> PROBE_UDP_CONNECT c /\ PROBE_TCP_CONNECT c <> PROBE_UDP_BIND c /\
  PROBE_TCP_CONNECT c <> PROBE_UDP_CLOSE c /\ PROBE_TCP_ACCEPT c <> PROBE_TCP_CLOSE c /\
  PROBE_TCP_ACCEPT c <> PROBE_UDP_CONNECT c /\ PROBE_TCP_ACCEPT c <> PROBE_UDP_BIND c /\
  PROBE_TCP_ACCEPT c <> PROBE_UDP_CLOSE c /\ PROBE_TCP_CLOSE c <> PROBE_UDP_CONNECT c /\
  PROBE_TCP_CLOSE c <> PROBE_UDP_BIND c /\ PROBE_TCP_CLOSE c <> PROBE_UDP_CLOSE c /\
  PROBE_UDP_CONNECT c <> PROBE_UDP_BIND c /\ PROBE_UDP_CONNECT c <> PROBE_UDP_CLOSE c /\
  PROBE_UDP_BIND c <> PROBE_UDP_CLOSE c.
Proof.
  intros [_ Hd _ _ _ _]. unfold categories in Hd.
  repeat match goal with
         | H : NoDup (_ :: _) |- _ => inversion H; subst; clear H
         end.
  cbn [In] in *.
  repeat split; intros E;
    repeat match goal with H : ~ _ |- _ => apply H; clear H; auto 10 end.
Qed.

Lemma wf_nonneg (c : probes_h) :
  wf_facts c ->
  0 <= PROBE_TCP_CONNECT c /\ 0 <= PROBE_TCP_ACCEPT c /\ 0 <= PROBE_TCP_CLOSE c /\
  0 <= PROBE_UDP_CONNECT c /\ 0 <= PROBE_UDP_BIND c /\ 0 <= PROBE_UDP_CLOSE c.
Proof.
  intros [Hr _ _ _ _ _].
  repeat split; apply Hr; unfold categories; simpl; tauto.
Qed.

Lemma opp_nonzero (x : Z) : x <> 0 -> - x <> 0.
Proof. lia. Qed.

Section Planting.

Variable c : probes_h.
Variable register_result : hook -> Z.
Hypothesis Hwf : wf_facts c.

(** Brings the numbering facts into the context. *)
Ltac numbering_facts :=
  let P := fresh "P" in let N := fresh "N" in
  pose proof (wf_pairwise c Hwf) as P; pose proof (wf_nonneg c Hwf) as N;
  pose proof (wf_connect c Hwf); pose proof (wf_accept c Hwf);
  pose proof (wf_close c Hwf); pose proof (wf_bind c Hwf);
  repeat match goal with H : _ /\ _ |- _ => destruct H end.

Ltac decide_eqb :=
  repeat match goal with
         | |- context [?a =? ?b] => destruct (Z.eqb_spec a b); try congruence
         end.

Ltac plant_ok_tac :=
  intros s Hc Hp; numbering_facts;
  repeat match goal with
         | |- context [register_result ?h <? 0] => destruct (register_result h <? 0)
         end;
  cbn [fst snd loaded_probes registered set_registered];
  (split; [reflexivity|]); split; intros E h;
  try congruence;
  try (exfalso; revert E; apply opp_nonzero; assumption);
  rewrite ?(Hc h); destruct h; cbn [hook_eqb needed];
  rewrite ?has_bit_lor by assumption;
  decide_eqb; rewrite ?Hp, ?orb_false_r, ?orb_true_r; try reflexivity.

Lemma plant_tcp_connect_ok :
  plant_ok c (PROBE_TCP_CONNECT c) (plant_tcp_connect c register_result).
Proof.
  unfold plant_tcp_connect, plant_pair, plant_jprobe, plant_kretprobe, unplant_jprobe.
  plant_ok_tac.
Qed.


Lemma plant_tcp_accept_ok :
  plant_ok c (PROBE_TCP_ACCEPT c) (plant_tcp_accept c register_result).
Proof.
  unfold plant_tcp_accept, plant_kretprobe. plant_ok_tac.
Qed.

Lemma plant_udp_connect_ok :
  plant_ok c (PROBE_UDP_CONNECT c) (plant_udp_connect c register_result).
Proof.
  unfold plant_udp_connect, plant_pair, plant_jprobe, plant_kretprobe, unplant_jprobe.
  plant_ok_tac.
Qed.

Lemma plant_udp_bind_ok :
  plant_ok c (PROBE_UDP_BIND c) (plant_udp_bind c register_result).
Proof.
  unfold plant_udp_bind, plant_pair, plant_jprobe, plant_kretprobe, unplant_jprobe.
  plant_ok_tac.
Qed.

Lemma plant_tcp_close_ok :
  plant_ok c (PROBE_TCP_CLOSE c)
    (plant_close_unless c register_result (PROBE_UDP_CLOSE c)).
Proof.
  unfold plant_close_unless, plant_close, plant_jprobe.
  intros s Hc Hp.
  destruct (has_bit (loaded_probes s) (PROBE_UDP_CLOSE c)) eqn:Hs; revert s Hc Hp Hs;
    plant_ok_tac; rewrite ?Hs; reflexivity.
Qed.

Lemma plant_udp_close_ok :
  plant_ok c (PROBE_UDP_CLOSE c)
    (plant_close_unless c register_result (PROBE_TCP_CLOSE c)).
Proof.
  unfold plant_close_unless, plant_close, plant_jprobe.
  intros s Hc Hp.
  destruct (has_bit (loaded_probes s) (PROBE_TCP_CLOSE c)) eqn:Hs; revert s Hc Hp Hs;
    plant_ok_tac; rewrite ?Hs; reflexivity.
Qed.


Lemma plant_block_between (l0 probe p : Z) (plant : call) (done todo : list Z)
      (s : probe_state) :
  plant_ok c p plant ->
  In p (categories c) -> ~ In p todo ->
  incl todo (categories c) -> incl done (categories c) ->
  between c l0 probe done (p :: todo) s ->
  let r := plant_block (Z.land (Z.lxor probe l0) probe) p plant s in
  (fst r = 0 -> between c l0 probe (p :: done) todo (snd r)) /\
  (fst r <> 0 ->
   between c l0 probe done todo (snd r) /\
   has_bit probe p = true /\ has_bit (loaded_probes (snd r)) p = false).
Proof.
  intros Hplant Hp Hnot Htodo Hdone [Hc Ht Hk Hb Hd].
  assert (P0 : 0 <= p) by (apply (wf_range c Hwf) in Hp; lia).
  assert (T0 : forall q, In q todo -> 0 <= q).
  { intros q Hq. apply Htodo, (wf_range c Hwf) in Hq. lia. }
  assert (D0 : forall q, In q done -> 0 <= q).
  { intros q Hq. apply Hdone, (wf_range c Hwf) in Hq. lia. }
  unfold plant_block. rewrite has_bit_new by exact P0.
  pose proof (Ht p (or_introl eq_refl)) as Hp0.
  destruct (has_bit probe p) eqn:Hprobe; simpl.
  2: { split; [intros _ | intros E; congruence].
       constructor; auto.
       - intros q Hq. apply Ht. right. exact Hq.
       - intros q [<-|Hq] Hq'; [congruence | auto]. }
  destruct (has_bit l0 p) eqn:Hl0; simpl.
  { split; [intros _ | intros E; congruence].
    constructor; auto.
    - intros q Hq. apply Ht. right. exact Hq.
    - intros q [<-|Hq] Hq'; [congruence | auto]. }
  destruct (Hplant s Hc Hp0) as (Hl & Hok & Hko).
  destruct (plant s) as [err s1]. simpl in Hl, Hok, Hko.
  destruct (Z.eqb_spec err 0) as [->|Herr]; simpl.
  - split; [intros _ | intros E; congruence].
    specialize (Hok eq_refl).
    constructor; unfold mark, set_loaded; cbn [loaded_probes registered].
    + intros h. cbn [loaded_probes registered]. rewrite Hok, Hl. reflexivity.
    + intros q Hq. rewrite Hl, has_bit_lor by auto.
      destruct (Z.eqb_spec p q) as [->|_]; [contradiction|].
      rewrite orb_false_r. apply Ht. right. exact Hq.
    + intros n Hn Hn'. rewrite Hl, Z.lor_spec, (Hk n Hn Hn'). reflexivity.
    + intros n Hn. rewrite Hl, Z.lor_spec. unfold bit.
      rewrite shiftl_1_testbit by exact P0.
      destruct (Z.eqb_spec p n) as [<-|_].
      * intros _. right. rewrite <- has_bit_testbit by exact P0. auto.
      * rewrite orb_false_r. apply Hb. exact Hn.
    + intros q Hq Hq'. rewrite Hl.
      destruct Hq as [<-|Hq].
      * rewrite has_bit_lor, Z.eqb_refl, orb_true_r by exact P0. reflexivity.
      * rewrite has_bit_lor, (Hd q Hq Hq') by auto. reflexivity.
  - split; [intros E; congruence | intros _].
    specialize (Hko Herr).
    split; [|split; [reflexivity | rewrite Hl; exact Hp0]].
    constructor.
    + intros h. rewrite Hko, Hl. apply Hc.
    + intros q Hq. rewrite Hl. apply Ht. right. exact Hq.
    + intros n Hn Hn'. rewrite Hl. auto.
    + intros n Hn. rewrite Hl. auto.
    + intros q Hq Hq'. rewrite Hl. auto.
Qed.


Lemma needed_mono (l l' : Z) (h : hook) :
  (forall n, 0 <= n -> Z.testbit l n = true -> Z.testbit l' n = true) ->
  needed c l h = true -> needed c l' h = true.
Proof.
  intros Hm. numbering_facts.
  destruct h; simpl; rewrite !has_bit_testbit by assumption;
    rewrite ?orb_true_iff; intuition auto.
Qed.

Lemma post_of_between (probe : Z) (s s' : probe_state) (done todo : list Z) :
  consistent c s ->
  between c (loaded_probes s) probe done todo s' ->
  consistent c s' /\
  (forall n, 0 <= n -> Z.testbit (loaded_probes s) n = true ->
             Z.testbit (loaded_probes s') n = true) /\
  (forall h, registered s h = true -> registered s' h = true) /\
  (forall n, 0 <= n -> Z.testbit (loaded_probes s') n = true ->
             Z.testbit (loaded_probes s) n = true
             \/ (Z.testbit probe n = true /\ In n (categories c))).
Proof.
  intros Hc [Hc' _ Hk Hb _]. repeat split; auto.
  intros h Hh. rewrite Hc'. rewrite Hc in Hh.
  eapply needed_mono; eauto.
Qed.

Lemma post_failure (probe p err : Z) (s s' : probe_state) (done todo : list Z) :
  categories c = rev done ++ p :: todo ->
  consistent c s -> err <> 0 ->
  between c (loaded_probes s) probe done todo s' /\
  has_bit probe p = true /\ has_bit (loaded_probes s') p = false ->
  plant_probe_post c probe s (err, s').
Proof.
  intros Hcat Hc He (Hb & H1 & H2).
  destruct (post_of_between _ _ _ _ _ Hc Hb) as (A & B & C & D).
  unfold plant_probe_post; cbn [fst snd].
  split; [exact A|]. split; [exact B|]. split; [exact C|]. split; [exact D|].
  split.
  - intros _. exists (rev done), p, todo.
    split; [exact Hcat|]. split; [exact H1|]. split; [exact H2|]. split.
    + intros q Hq. apply in_rev in Hq. apply (btw_done _ _ _ _ _ _ Hb). exact Hq.
    + apply (btw_todo _ _ _ _ _ _ Hb).
  - intros E. contradiction.
Qed.

Lemma post_success (probe : Z) (s s' : probe_state) (done : list Z) :
  consistent c s ->
  incl (categories c) done ->
  between c (loaded_probes s) probe done [] s' ->
  plant_probe_post c probe s (0, s').
Proof.
  intros Hc Hall Hb.
  destruct (post_of_between _ _ _ _ _ Hc Hb) as (A & B & C & D).
  unfold plant_probe_post; cbn [fst snd].
  split; [exact A|]. split; [exact B|]. split; [exact C|]. split; [exact D|].
  split.
  - intros E. contradiction.
  - intros _ p Hp Hprobe. apply (btw_done _ _ _ _ _ _ Hb); auto.
Qed.

Section Blocks.

Variables (probe : Z) (s : probe_state).
Hypothesis Hc : consistent c s.

Let new_probes : Z := Z.land (Z.lxor probe (loaded_probes s)) probe.

Lemma block_then (p : Z) (plant k : call) (done todo : list Z) :
  categories c = rev done ++ p :: todo ->
  plant_ok c p plant ->
  In p (categories c) -> ~ In p todo ->
  incl todo (categories c) -> incl done (categories c) ->
  (forall s1, between c (loaded_probes s) probe (p :: done) todo s1 ->
              plant_probe_post c probe s (k s1)) ->
  forall s0, between c (loaded_probes s) probe done (p :: todo) s0 ->
             plant_probe_post c probe s (and_then (plant_block new_probes p plant) k s0).
Proof.
  intros Hcat Hplant Hp Hnot Htodo Hdone Hk s0 Hb.
  pose proof (plant_block_between _ _ _ _ _ _ _ Hplant Hp Hnot Htodo Hdone Hb) as R.
  simpl in R. unfold and_then. fold new_probes in R.
  destruct (plant_block new_probes p plant s0) as [err s1]. simpl in R.
  destruct R as [Rok Rko].
  destruct (Z.eqb_spec err 0) as [->|Herr].
  - apply Hk. auto.
  - eapply post_failure; eauto.
Qed.

Lemma block_last (p : Z) (plant : call) (done : list Z) :
  categories c = rev done ++ [p] ->
  plant_ok c p plant ->
  In p (categories c) ->
  incl done (categories c) -> incl (categories c) (p :: done) ->
  forall s0, between c (loaded_probes s) probe done [p] s0 ->
             plant_probe_post c probe s (plant_block new_probes p plant s0).
Proof.
  intros Hcat Hplant Hp Hdone Hall s0 Hb.
  assert (Hnot : ~ In p []) by (intros []).
  assert (Htodo : incl [] (categories c)) by (intros q []).
  pose proof (plant_block_between _ _ _ _ _ _ _ Hplant Hp Hnot Htodo Hdone Hb) as R.
  simpl in R. fold new_probes in R.
  assert (E : fst (plant_block new_probes p plant s0) = 0 ->
              plant_block new_probes p plant s0
              = (0, snd (plant_block new_probes p plant s0))).
  { destruct (plant_block new_probes p plant s0); simpl; congruence. }
  destruct R as [Rok Rko].
  destruct (Z.eq_dec (fst (plant_block new_probes p plant s0)) 0) as [H0|H0].
  - rewrite (E H0). eapply post_success; eauto.
  - destruct (plant_block new_probes p plant s0) as [err s1]. cbn [fst snd] in *.
    eapply post_failure; eauto.
Qed.

Lemma blocks_post (s0 : probe_state) :
  between c (loaded_probes s) probe [] (categories c) s0 ->
  plant_probe_post c probe s
    (and_then (plant_block new_probes (PROBE_TCP_CONNECT c)
                 (plant_tcp_connect c register_result))
    (and_then (plant_block new_probes (PROBE_TCP_ACCEPT c)
                 (plant_tcp_accept c register_result))
    (and_then (plant_block new_probes (PROBE_TCP_CLOSE c)
                 (plant_close_unless c register_result (PROBE_UDP_CLOSE c)))
    (and_then (plant_block new_probes (PROBE_UDP_CONNECT c)
                 (plant_udp_connect c register_result))
    (and_then (plant_block new_probes (PROBE_UDP_BIND c)
                 (plant_udp_bind c register_result))
              (plant_block new_probes (PROBE_UDP_CLOSE c)
                 (plant_close_unless c register_result (PROBE_TCP_CLOSE c)))))))
       s0).
Proof.
  pose proof (wf_pairwise c Hwf) as P.
  repeat match goal with H : _ /\ _ |- _ => destruct H end.
  revert s0. unfold categories.
  repeat (apply block_then;
          [ reflexivity
          | auto using plant_tcp_connect_ok, plant_tcp_accept_ok, plant_tcp_close_ok,
              plant_udp_connect_ok, plant_udp_bind_ok
          | unfold categories; cbn [In]; tauto
          | cbn [In]; intuition congruence
          | unfold categories; intros q; cbn [In]; tauto
          | unfold categories; intros q; cbn [In]; tauto
          | ]).
  apply block_last; auto using plant_udp_close_ok.
  - unfold categories; cbn [In]; tauto.
  - unfold categories; intros q; cbn [In]; tauto.
  - unfold categories; intros q; cbn [In]; tauto.
Qed.

End Blocks.

Lemma plant_probe_post_holds (probe : Z) (s : probe_state) :
  consistent c s ->
  plant_probe_post c probe s (plant_probe c register_result probe s).
Proof.
  intros Hc. unfold plant_probe. apply blocks_post; [exact Hc|].
  constructor; auto; intros q [].
Qed.

(** *** Unplanting *)

Lemma has_bit_land (x y p : Z) :
  0 <= p -> has_bit (Z.land x y) p = has_bit x p && has_bit y p.
Proof.
  intros Hp. rewrite !has_bit_testbit by assumption. apply Z.land_spec.
Qed.

Lemma land_close_bits (x : Z) :
  (Z.land x (close_bits c) =? 0)
  = negb (has_bit x (PROBE_TCP_CLOSE c) || has_bit x (PROBE_UDP_CLOSE c)).
Proof.
  unfold close_bits, has_bit, bit. rewrite Z.land_lor_distr_r.
  destruct (Z.eqb_spec (Z.land x (Z.shiftl 1 (PROBE_TCP_CLOSE c))) 0) as [E1|E1];
    destruct (Z.eqb_spec (Z.land x (Z.shiftl 1 (PROBE_UDP_CLOSE c))) 0) as [E2|E2];
    cbn [negb orb]; apply Z.eqb_eq || apply Z.eqb_neq;
    rewrite Z.lor_eq_0_iff; tauto.
Qed.

Lemma unplant_loaded (probe : Z) (s : probe_state) :
  loaded_probes (unplant_probe_locked c probe s)
  = Z.lxor (loaded_probes s) (Z.land (loaded_probes s) probe).
Proof.
  unfold unplant_probe_locked. cbv zeta.
  repeat match goal with
         | |- context [when ?b _ _] => destruct b; cbn [when]
         end; reflexivity.
Qed.

Lemma unplant_registered (probe : Z) (s : probe_state) (h : hook) :
  registered (unplant_probe_locked c probe s) h
  = registered s h
    && negb (dropped c (Z.land (loaded_probes s) probe)
               (Z.lxor (loaded_probes s) (Z.land (loaded_probes s) probe)) h).
Proof.
  unfold unplant_probe_locked, dropped. cbv zeta.
  rewrite land_close_bits, negb_involutive.
  set (l' := Z.lxor (loaded_probes s) (Z.land (loaded_probes s) probe)).
  set (r := Z.land (loaded_probes s) probe).
  destruct (has_bit r (PROBE_TCP_CONNECT c)), (has_bit r (PROBE_TCP_ACCEPT c)),
    (has_bit r (PROBE_UDP_CONNECT c)), (has_bit r (PROBE_UDP_BIND c)),
    (has_bit r (PROBE_TCP_CLOSE c) || has_bit r (PROBE_UDP_CLOSE c));
    cbn [when unplant_tcp_connect unplant_tcp_accept unplant_udp_connect
           unplant_udp_bind unplant_kretprobe unplant_jprobe set_registered
           set_loaded loaded_probes];
    rewrite ?land_close_bits;
    destruct (has_bit l' (PROBE_TCP_CLOSE c) || has_bit l' (PROBE_UDP_CLOSE c));
    destruct h; cbn; rewrite ?andb_true_r, ?andb_false_r; reflexivity.
Qed.

Lemma unplant_consistent (probe : Z) (s : probe_state) :
  consistent c s -> consistent c (unplant_probe_locked c probe s).
Proof.
  intros Hc h. rewrite unplant_registered, unplant_loaded, Hc.
  pose proof (wf_nonneg c Hwf) as N.
  repeat match goal with H : _ /\ _ |- _ => destruct H end.
  destruct h; cbn [needed dropped];
    rewrite !has_bit_removed, !has_bit_land by assumption;
    repeat match goal with
           | |- context [has_bit ?x ?p] => destruct (has_bit x p)
           end; reflexivity.
Qed.

Lemma has_bit_bit (p q : Z) : 0 <= p -> 0 <= q -> has_bit (bit p) q = (p =? q).
Proof.
  intros Hp Hq. rewrite has_bit_testbit by assumption.
  apply shiftl_1_testbit. assumption.
Qed.

End Planting.

Lemma initial_consistent (c : probes_h) : wf_facts c -> consistent c initial.
Proof.
  intros Hwf h. pose proof (wf_nonneg c Hwf) as N.
  repeat match goal with H : _ /\ _ |- _ => destruct H end.
  destruct h; cbn [needed initial registered loaded_probes];
    rewrite !has_bit_testbit, !Z.bits_0 by assumption; reflexivity.
Qed.

(** C1, as the code has it: plant_probe always leaves a state in which
    the registered hooks are exactly the hooks of the active categories,
    every category and hook that was active before the call is still
    active, and only requested categories were added.  When it fails,
    the categories fall into those before the failing one in the order
    of plant_probe, of which the requested ones are active (they are not
    taken back), the failing one, requested and not active (it leaves no
    hook planted), and those after it, which are as before the call. *)
Theorem plant_probe_failure_state (c : probes_h) (register_result : hook -> Z)
        (probe : Z) (s : probe_state) :
  wf_probes_h c = true ->
  consistent c s ->
  let r := plant_probe c register_result probe s in
  consistent c (snd r) /\
  (forall n, 0 <= n -> Z.testbit (loaded_probes s) n = true ->
             Z.testbit (loaded_probes (snd r)) n = true) /\
  (forall h, registered s h = true -> registered (snd r) h = true) /\
  (forall n, 0 <= n -> Z.testbit (loaded_probes (snd r)) n = true ->
             Z.testbit (loaded_probes s) n = true
             \/ (Z.testbit probe n = true /\ In n (categories c))) /\
  (fst r <> 0 ->
   exists before p after,
     categories c = before ++ p :: after /\
     has_bit probe p = true /\ has_bit (loaded_probes (snd r)) p = false /\
     (forall q, In q before -> has_bit probe q = true ->
                has_bit (loaded_probes (snd r)) q = true) /\
     (forall q, In q after ->
                has_bit (loaded_probes (snd r)) q = has_bit (loaded_probes s) q)) /\
  (fst r = 0 ->
   forall p, In p (categories c) -> has_bit probe p = true ->
             has_bit (loaded_probes (snd r)) p = true).
Proof.
  intros Hwf Hc.
  exact (plant_probe_post_holds c register_result (wf_probes_h_facts c Hwf) probe s Hc).
Qed.

Lemma plant_probe_failure_state_witness :
  let r := plant_probe numbering accept_refused 3 initial in
  fst r = -2 /\ consistent numbering (snd r) /\ loaded_probes (snd r) = 1.
Proof.
  pose proof (plant_probe_failure_state numbering accept_refused 3 initial
                eq_refl (initial_consistent numbering (wf_probes_h_facts numbering eq_refl)))
    as H.
  cbv zeta in H. destruct H as (Hc & _).
  split; [reflexivity|]. split; [exact Hc | reflexivity].
Defined.

(** C1, as the specification words it, fails: with the accept hook
    refused, the request of TCP_CONNECT and TCP_ACCEPT returns an error
    and leaves TCP_CONNECT planted and set in loaded_probes. *)
Lemma plant_probe_no_rollback :
  ~ (forall (c : probes_h) (register_result : hook -> Z) (probe : Z) (s : probe_state),
        wf_probes_h c = true -> consistent c s ->
        fst (plant_probe c register_result probe s) <> 0 ->
        loaded_probes (snd (plant_probe c register_result probe s)) = loaded_probes s
        /\ forall h, registered (snd (plant_probe c register_result probe s)) h
                     = registered s h).
Proof.
  intros H.
  destruct (H numbering accept_refused 3 initial eq_refl
              (initial_consistent numbering (wf_probes_h_facts numbering eq_refl)))
    as [Hl _].
  - vm_compute. discriminate.
  - vm_compute in Hl. discriminate.
Qed.

(** C6: unplant_probe_locked clears exactly the requested categories and
    leaves the registered hooks equal to those the remaining categories
    need, so that the close hook shared by TCP_CLOSE and UDP_CLOSE goes
    only when neither remains; after a successful request of both,
    releasing TCP_CLOSE keeps the close hook and releasing UDP_CLOSE
    afterwards removes it. *)
Theorem release_shared_close_hook (c : probes_h) (register_result : hook -> Z)
        (probe : Z) (s : probe_state) :
  wf_probes_h c = true ->
  consistent c s ->
  let s' := unplant_probe_locked c probe s in
  (forall n, 0 <= n ->
     Z.testbit (loaded_probes s') n
     = Z.testbit (loaded_probes s) n && negb (Z.testbit probe n)) /\
  consistent c s' /\
  registered s' close_jprobe
  = has_bit (loaded_probes s') (PROBE_TCP_CLOSE c)
    || has_bit (loaded_probes s') (PROBE_UDP_CLOSE c) /\
  (let r := plant_probe c register_result
              (Z.lor (bit (PROBE_TCP_CLOSE c)) (bit (PROBE_UDP_CLOSE c))) s in
   let s1 := snd r in
   let s2 := unplant_probe_locked c (bit (PROBE_TCP_CLOSE c)) s1 in
   let s3 := unplant_probe_locked c (bit (PROBE_UDP_CLOSE c)) s2 in
   fst r = 0 ->
   registered s1 close_jprobe = true /\
   has_bit (loaded_probes s2) (PROBE_TCP_CLOSE c) = false /\
   has_bit (loaded_probes s2) (PROBE_UDP_CLOSE c) = true /\
   registered s2 close_jprobe = true /\
   registered s3 close_jprobe = false).
Proof.
  intros Hwf0 Hc.
  pose proof (wf_probes_h_facts c Hwf0) as Hwf.
  pose proof (wf_nonneg c Hwf) as N. pose proof (wf_pairwise c Hwf) as P.
  repeat match goal with H : _ /\ _ |- _ => destruct H end.
  cbv zeta.
  pose proof (unplant_consistent c Hwf probe s Hc) as Hc'.
  split; [|split; [exact Hc' | split; [apply Hc'|]]].
  { intros n Hn. rewrite unplant_loaded, Z.lxor_spec, Z.land_spec.
    destruct (Z.testbit (loaded_probes s) n), (Z.testbit probe n); reflexivity. }
  set (both := Z.lor (bit (PROBE_TCP_CLOSE c)) (bit (PROBE_UDP_CLOSE c))).
  intros Hok.
  destruct (plant_probe_post_holds c register_result Hwf both s Hc)
    as (Hc1 & _ & _ & _ & _ & Hall).
  specialize (Hall Hok).
  set (s1 := snd (plant_probe c register_result both s)) in *.
  assert (T1 : has_bit (loaded_probes s1) (PROBE_TCP_CLOSE c) = true).
  { apply Hall; [unfold categories; cbn [In]; tauto|].
    unfold both. rewrite has_bit_lor, has_bit_bit, Z.eqb_refl by assumption.
    reflexivity. }
  assert (U1 : has_bit (loaded_probes s1) (PROBE_UDP_CLOSE c) = true).
  { apply Hall; [unfold categories; cbn [In]; tauto|].
    unfold both. rewrite has_bit_lor, Z.eqb_refl, orb_true_r by assumption.
    reflexivity. }
  pose proof (unplant_consistent c Hwf (bit (PROBE_TCP_CLOSE c)) s1 Hc1) as Hc2.
  set (s2 := unplant_probe_locked c (bit (PROBE_TCP_CLOSE c)) s1) in *.
  assert (T2 : has_bit (loaded_probes s2) (PROBE_TCP_CLOSE c) = false).
  { unfold s2. rewrite unplant_loaded, has_bit_removed, has_bit_bit, Z.eqb_refl
      by assumption. apply andb_false_r. }
  assert (U2 : has_bit (loaded_probes s2) (PROBE_UDP_CLOSE c) = true).
  { unfold s2. rewrite unplant_loaded, has_bit_removed, has_bit_bit, U1 by assumption.
    destruct (Z.eqb_spec (PROBE_TCP_CLOSE c) (PROBE_UDP_CLOSE c)); [congruence|].
    reflexivity. }
  pose proof (unplant_consistent c Hwf (bit (PROBE_UDP_CLOSE c)) s2 Hc2) as Hc3.
  split; [rewrite Hc1; cbn [needed]; rewrite T1; reflexivity|].
  split; [exact T2|]. split; [exact U2|].
  split; [rewrite Hc2; cbn [needed]; rewrite U2; apply orb_true_r|].
  rewrite Hc3. cbn [needed].
  rewrite !unplant_loaded, !has_bit_removed, !has_bit_bit by assumption.
  fold s2. rewrite T2, Z.eqb_refl, andb_false_r. reflexivity.
Qed.

Lemma release_shared_close_hook_witness :
  let s1 := snd (plant_probe numbering all_registered 36 initial) in
  let s2 := unplant_probe_locked numbering 4 s1 in
  let s3 := unplant_probe_locked numbering 32 s2 in
  registered s1 close_jprobe = true /\
  has_bit (loaded_probes s2) 2 = false /\
  has_bit (loaded_probes s2) 5 = true /\
  registered s2 close_jprobe = true /\
  registered s3 close_jprobe = false.
Proof.
  pose proof (release_shared_close_hook numbering all_registered 4 initial
                eq_refl (initial_consistent numbering (wf_probes_h_facts numbering eq_refl)))
    as H.
  cbv zeta in H. destruct H as (_ & _ & _ & H).
  exact (H eq_refl).
Defined.

End ProbesFacts.

(** ** Facts on the secure log device *)

Module SecureLogFacts.
Import SecureLog.

(** *** Memory *)

Lemma write_bytes_inside (m : mem) (o : Z) (bs : list Z) (a : Z) :
  o <= a < o + Z.of_nat (List.length bs) ->
  write_bytes m o bs a = nth (Z.to_nat (a - o)) bs 0.
Proof.
  intros H. unfold write_bytes.
  destruct (Z.leb_spec o a); [|lia].
  destruct (Z.ltb_spec a (o + Z.of_nat (List.length bs))); [reflexivity | lia].
Qed.

Lemma write_bytes_outside (m : mem) (o : Z) (bs : list Z) (a : Z) :
  a < o \/ o + Z.of_nat (List.length bs) <= a ->
  write_bytes m o bs a = m a.
Proof.
  intros H. unfold write_bytes.
  destruct (Z.leb_spec o a); [|reflexivity].
  destruct (Z.ltb_spec a (o + Z.of_nat (List.length bs))); [lia | reflexivity].
Qed.

Lemma read_bytes_length (m : mem) (n : nat) (o : Z) :
  List.length (read_bytes m o n) = n.
Proof.
  revert o. induction n as [|n IH]; intros o; simpl; [reflexivity|].
  rewrite IH. reflexivity.
Qed.

Lemma read_bytes_ext (m m' : mem) (n : nat) (o : Z) :
  (forall a, o <= a < o + Z.of_nat n -> m' a = m a) ->
  read_bytes m' o n = read_bytes m o n.
Proof.
  revert o. induction n as [|n IH]; intros o H; simpl; [reflexivity|].
  rewrite H by lia. f_equal. apply IH. intros a Ha. apply H. lia.
Qed.

Lemma read_bytes_app (m : mem) (n1 n2 : nat) (o : Z) :
  read_bytes m o (n1 + n2)
  = read_bytes m o n1 ++ read_bytes m (o + Z.of_nat n1) n2.
Proof.
  revert o. induction n1 as [|n1 IH]; intros o.
  - simpl. rewrite Z.add_0_r. reflexivity.
  - cbn [Nat.add read_bytes app]. rewrite IH. do 3 f_equal. lia.
Qed.

Lemma read_bytes_nth (m : mem) (n : nat) (o : Z) (i : nat) :
  (i < n)%nat -> nth i (read_bytes m o n) 0 = m (o + Z.of_nat i).
Proof.
  revert o i. induction n as [|n IH]; intros o i Hi; [lia|].
  destruct i as [|i]; simpl read_bytes; cbn [nth].
  - f_equal. lia.
  - rewrite IH by lia. f_equal. lia.
Qed.

Lemma read_write_same (m : mem) (o : Z) (bs : list Z) :
  read_bytes (write_bytes m o bs) o (List.length bs) = bs.
Proof.
  apply nth_ext with (d := 0) (d' := 0).
  - apply read_bytes_length.
  - intros i Hi. rewrite read_bytes_length in Hi.
    rewrite read_bytes_nth by exact Hi.
    rewrite write_bytes_inside by lia. f_equal. lia.
Qed.

Lemma read_write_other (m : mem) (o : Z) (bs : list Z) (o' : Z) (n : nat) :
  o' + Z.of_nat n <= o \/ o + Z.of_nat (List.length bs) <= o' ->
  read_bytes (write_bytes m o bs) o' n = read_bytes m o' n.
Proof.
  intros H. apply read_bytes_ext. intros a Ha.
  apply write_bytes_outside. lia.
Qed.

Lemma le_bytes_length (n : nat) (v : Z) : List.length (le_bytes n v) = n.
Proof.
  revert v. induction n as [|n IH]; intros v; simpl; [reflexivity|].
  rewrite IH. reflexivity.
Qed.

Lemma le_value_le_bytes (n : nat) (v : Z) :
  le_value (le_bytes n v) = v mod 2 ^ (8 * Z.of_nat n).
Proof.
  revert v. induction n as [|n IH]; intros v.
  - simpl. rewrite Z.mod_1_r. reflexivity.
  - cbn [le_bytes le_value]. rewrite IH.
    replace (8 * Z.of_nat (S n)) with (8 + 8 * Z.of_nat n) by lia.
    rewrite Z.pow_add_r by lia. change (2 ^ 8) with 256.
    assert (0 < 2 ^ (8 * Z.of_nat n)) by (apply Z.pow_pos_nonneg; lia).
    rewrite Z.rem_mul_r by lia. reflexivity.
Qed.

Lemma load_store_same (n : nat) (m : mem) (o v : Z) :
  load n (store n m o v) o = v mod 2 ^ (8 * Z.of_nat n).
Proof.
  unfold load, store.
  rewrite <- (le_bytes_length n v) at 2.
  rewrite read_write_same. apply le_value_le_bytes.
Qed.

Lemma load_write_other (n : nat) (m : mem) (o : Z) (bs : list Z) (o' : Z) :
  o' + Z.of_nat n <= o \/ o + Z.of_nat (List.length bs) <= o' ->
  load n (write_bytes m o bs) o' = load n m o'.
Proof.
  intros H. unfold load. rewrite read_write_other by exact H. reflexivity.
Qed.

Lemma load_ext (n : nat) (m m' : mem) (o : Z) :
  (forall a, o <= a < o + Z.of_nat n -> m' a = m a) ->
  load n m' o = load n m o.
Proof.
  intros H. unfold load. rewrite (read_bytes_ext m m') by exact H. reflexivity.
Qed.

Lemma firstn_length_bound {A : Type} (n : Z) (l : list A) :
  Z.of_nat (List.length (firstn (Z.to_nat n) l)) <= Z.max 0 n.
Proof.
  pose proof (firstn_le_length (Z.to_nat n) l). lia.
Qed.

Lemma firstn_nat_length_bound {A : Type} (n : nat) (l : list A) :
  Z.of_nat (List.length (firstn n l)) <= Z.of_nat n.
Proof.
  pose proof (firstn_le_length n l). lia.
Qed.

Lemma load_store_other (n k : nat) (m : mem) (o v o' : Z) :
  o' + Z.of_nat n <= o \/ o + Z.of_nat k <= o' ->
  load n (store k m o v) o' = load n m o'.
Proof.
  intros H. unfold store. apply load_write_other.
  rewrite le_bytes_length. exact H.
Qed.

Lemma read_store_other (n k : nat) (m : mem) (o v o' : Z) :
  o' + Z.of_nat n <= o \/ o + Z.of_nat k <= o' ->
  read_bytes (store k m o v) o' n = read_bytes m o' n.
Proof.
  intros H. unfold store. apply read_write_other.
  rewrite le_bytes_length. exact H.
Qed.

Lemma unchanged_refl (m : mem) (lo hi : Z) : unchanged_outside m m lo hi.
Proof. intros a _. reflexivity. Qed.

Lemma unchanged_trans (m1 m2 m3 : mem) (lo hi : Z) :
  unchanged_outside m1 m2 lo hi -> unchanged_outside m2 m3 lo hi ->
  unchanged_outside m1 m3 lo hi.
Proof.
  intros H1 H2 a Ha. rewrite H2, H1 by exact Ha. reflexivity.
Qed.

Lemma unchanged_write (m : mem) (o : Z) (bs : list Z) (lo hi : Z) :
  lo <= o -> o + Z.of_nat (List.length bs) <= hi ->
  unchanged_outside m (write_bytes m o bs) lo hi.
Proof.
  intros H1 H2 a Ha. apply write_bytes_outside. lia.
Qed.

Lemma unchanged_store (n : nat) (m : mem) (o v : Z) (lo hi : Z) :
  lo <= o -> o + Z.of_nat n <= hi ->
  unchanged_outside m (store n m o v) lo hi.
Proof.
  intros H1 H2. apply unchanged_write; [exact H1|].
  rewrite le_bytes_length. exact H2.
Qed.

Lemma unchanged_read (m m' : mem) (lo hi o : Z) (n : nat) :
  unchanged_outside m m' lo hi ->
  o + Z.of_nat n <= lo \/ hi <= o ->
  read_bytes m' o n = read_bytes m o n.
Proof.
  intros H Ho. apply read_bytes_ext. intros a Ha. apply H. lia.
Qed.

Lemma unchanged_load (m m' : mem) (lo hi o : Z) (n : nat) :
  unchanged_outside m m' lo hi ->
  o + Z.of_nat n <= lo \/ hi <= o ->
  load n m' o = load n m o.
Proof.
  intros H Ho. unfold load. rewrite (unchanged_read m m' lo hi) by assumption.
  reflexivity.
Qed.

Section Records.

Variable P : platform.
Hypothesis HD : 0 <= sizeof_current_details P.

Ltac offsets :=
  unfold get_netlog_path, get_execlog_path, off_len, off_process, off_type,
    off_net_path_len, off_protocol, off_action, off_family, off_src_port,
    off_dst_port, off_src, off_dst, off_exec_path_len, off_argv_len,
    sizeof_netlog_log, sizeof_execlog_log, sizeof_sec_log in *.

Lemma unchanged_fill_ip (m : mem) (o : Z) (ip : option (list Z)) (family lo hi : Z) :
  lo <= o -> o + 16 <= hi ->
  unchanged_outside m (fill_ip m o ip family) lo hi.
Proof.
  intros H1 H2. unfold fill_ip, copy_ip. destruct ip as [src|].
  - destruct (family =? AF_INET); [|destruct (family =? AF_INET6)].
    + apply unchanged_write; [exact H1|].
      pose proof (firstn_nat_length_bound 4 src). lia.
    + apply unchanged_write; [exact H1|].
      pose proof (firstn_nat_length_bound 16 src). lia.
    + apply unchanged_refl.
  - apply unchanged_write; [exact H1|]. rewrite repeat_length. lia.
Qed.

Lemma load_fill_ip_other (n : nat) (m : mem) (o : Z) (ip : option (list Z))
      (family o' : Z) :
  o' + Z.of_nat n <= o \/ o + 16 <= o' ->
  load n (fill_ip m o ip family) o' = load n m o'.
Proof.
  intros H. apply (unchanged_load m _ o (o + 16)); [|exact H].
  apply unchanged_fill_ip; lia.
Qed.

Lemma read_fill_ip_other (n : nat) (m : mem) (o : Z) (ip : option (list Z))
      (family o' : Z) :
  o' + Z.of_nat n <= o \/ o + 16 <= o' ->
  read_bytes (fill_ip m o ip family) o' n = read_bytes m o' n.
Proof.
  intros H. apply (unchanged_read m _ o (o + 16)); [|exact H].
  apply unchanged_fill_ip; lia.
Qed.

(** store_netlog_record writes inside its record only. *)
Lemma write_netlog_record_extent (m : mem) (record : Z) (cur path : list Z)
      (path_len size action protocol family : Z)
      (src_ip : option (list Z)) (src_port : Z)
      (dst_ip : option (list Z)) (dst_port : Z) :
  0 <= path_len ->
  unchanged_outside m
    (write_netlog_record P m record cur path path_len size action protocol
       family src_ip src_port dst_ip dst_port)
    record (record + sizeof_netlog_log P + path_len).
Proof.
  intros Hp. unfold write_netlog_record. cbv zeta.
  pose proof (firstn_length_bound (sizeof_current_details P) cur).
  pose proof (firstn_length_bound path_len (path ++ [0])).
  repeat (eapply unchanged_trans;
          [| first [ apply unchanged_store | apply unchanged_fill_ip
                   | apply unchanged_write ]; offsets; lia ]).
  apply unchanged_refl.
Qed.

Section NetlogFields.

Variables (m : mem) (record : Z) (cur path : list Z).
Variables (path_len size action protocol family : Z).
Variables (src_ip : option (list Z)) (src_port : Z).
Variables (dst_ip : option (list Z)) (dst_port : Z).

Let m' : mem :=
  write_netlog_record P m record cur path path_len size action protocol
    family src_ip src_port dst_ip dst_port.

Ltac field :=
  unfold m', write_netlog_record; cbv zeta;
  pose proof (firstn_length_bound (sizeof_current_details P) cur);
  pose proof (firstn_length_bound path_len (path ++ [0]));
  repeat first
    [ rewrite load_store_same
    | rewrite load_store_other by (offsets; lia)
    | rewrite load_fill_ip_other by (offsets; lia)
    | rewrite load_write_other by (offsets; lia)
    | rewrite read_store_other by (offsets; lia)
    | rewrite read_fill_ip_other by (offsets; lia)
    | rewrite read_write_other by (offsets; lia) ].

Lemma netlog_len_field : load 8 m' (record + off_len) = size mod 2 ^ 64.
Proof. field. reflexivity. Qed.

Lemma netlog_type_field :
  load 4 m' (record + off_type P) = LOG_NETWORK_INTERACTION P mod 2 ^ 32.
Proof. field. reflexivity. Qed.

Lemma netlog_path_len_field :
  load 8 m' (record + off_net_path_len P) = path_len mod 2 ^ 64.
Proof. field. reflexivity. Qed.

Lemma netlog_protocol_field :
  load 4 m' (record + off_protocol P) = protocol mod 2 ^ 32.
Proof. field. reflexivity. Qed.

Lemma netlog_action_field :
  load 4 m' (record + off_action P) = action mod 2 ^ 32.
Proof. field. reflexivity. Qed.

Lemma netlog_family_field :
  load 2 m' (record + off_family P) = family mod 2 ^ 16.
Proof. field. reflexivity. Qed.

Lemma netlog_src_port_field :
  load 4 m' (record + off_src_port P) = src_port mod 2 ^ 32.
Proof. field. reflexivity. Qed.

Lemma netlog_dst_port_field :
  load 4 m' (record + off_dst_port P) = dst_port mod 2 ^ 32.
Proof. field. reflexivity. Qed.

Lemma netlog_src_null :
  src_ip = None -> read_bytes m' (record + off_src P) 16 = repeat 0 16.
Proof.
  clear HD. intros ->. field. unfold fill_ip.
  apply (read_write_same _ _ (repeat 0 16)).
Qed.

Lemma netlog_dst_null :
  dst_ip = None -> read_bytes m' (record + off_dst P) 16 = repeat 0 16.
Proof.
  clear HD. intros ->. field. unfold fill_ip.
  apply (read_write_same _ _ (repeat 0 16)).
Qed.

Lemma netlog_path_bytes :
  read_bytes m' (get_netlog_path P record)
    (List.length (firstn (Z.to_nat path_len) (path ++ [0])))
  = firstn (Z.to_nat path_len) (path ++ [0]).
Proof.
  unfold m', write_netlog_record; cbv zeta. apply read_write_same.
Qed.

Lemma netlog_details_bytes :
  read_bytes m' (record + off_process)
    (List.length (firstn (Z.to_nat (sizeof_current_details P)) cur))
  = firstn (Z.to_nat (sizeof_current_details P)) cur.
Proof.
  field. apply read_write_same.
Qed.

End NetlogFields.

Section ExeclogFields.

Variables (m : mem) (record : Z) (cur path argv : list Z).
Variables (path_len argv_size size : Z).
Hypothesis Hpath : 0 <= path_len < 2 ^ 64.
Hypothesis Hargv : 0 <= argv_size.

Let m' : mem :=
  write_execlog_record P m record cur path argv path_len argv_size size.

Ltac field :=
  unfold m', write_execlog_record; cbv zeta;
  pose proof (firstn_length_bound (sizeof_current_details P) cur);
  pose proof (firstn_length_bound path_len (path ++ [0]));
  pose proof (firstn_length_bound argv_size argv);
  repeat first
    [ rewrite load_store_same
    | rewrite load_store_other by (offsets; lia)
    | rewrite load_write_other by (offsets; lia) ].

Lemma execlog_argv_place :
  get_execlog_argv P
    (store 8
       (write_bytes
          (store 8
             (store 8
                (store 4
                   (write_bytes m (record + off_process)
                      (firstn (Z.to_nat (sizeof_current_details P)) cur))
                   (record + off_type P) (LOG_EXECUTION P))
                (record + off_len) size)
             (record + off_exec_path_len P) path_len)
          (get_execlog_path P record)
          (firstn (Z.to_nat path_len) (path ++ [0])))
       (record + off_argv_len P) argv_size)
    record
  = record + sizeof_execlog_log P + path_len.
Proof.
  unfold get_execlog_argv.
  pose proof (firstn_length_bound path_len (path ++ [0])).
  rewrite load_store_other by (offsets; lia).
  rewrite load_write_other by (offsets; lia).
  rewrite load_store_same. change (2 ^ (8 * Z.of_nat 8)) with (2 ^ 64).
  rewrite Z.mod_small by lia. reflexivity.
Qed.

Lemma execlog_len_field : load 8 m' (record + off_len) = size mod 2 ^ 64.
Proof.
  unfold m', write_execlog_record; cbv zeta. rewrite execlog_argv_place.
  field. reflexivity.
Qed.

Lemma write_execlog_record_extent :
  unchanged_outside m m' record
    (record + sizeof_execlog_log P + path_len + argv_size).
Proof.
  unfold m', write_execlog_record; cbv zeta. rewrite execlog_argv_place.
  pose proof (firstn_length_bound (sizeof_current_details P) cur).
  pose proof (firstn_length_bound path_len (path ++ [0])).
  pose proof (firstn_length_bound argv_size argv).
  repeat (eapply unchanged_trans;
          [| first [ apply unchanged_store | apply unchanged_write ];
             offsets; lia ]).
  apply unchanged_refl.
Qed.

End ExeclogFields.

End Records.

(** *** Sizes *)

Lemma wf_platform_facts (P : platform) : wf_platform P = true -> wf_facts P.
Proof.
  unfold wf_platform. intros H.
  repeat match type of H with
         | _ && _ = true =>
             let H' := fresh "W" in
             apply andb_true_iff in H; destruct H as [H H']
         end.
  apply negb_true_iff in W1.
  constructor; lia.
Qed.

Lemma align_size_spec (P : platform) (s : Z) :
  0 <= s < 2 ^ 63 ->
  s <= align_size s < s + 8 /\ align_size s mod 8 = 0.
Proof.
  intros Hs. unfold align_size, LOG_ALIGN, u64.
  change (8 - 1) with (Z.ones 3). rewrite Z.land_ones by lia.
  change (2 ^ 3) with 8.
  rewrite Z.mod_mod_divide by (exists (2 ^ 61); reflexivity).
  pose proof (Z.mod_pos_bound (- s) 8 ltac:(lia)).
  rewrite Z.mod_small by lia.
  split; [lia|].
  rewrite Zplus_mod_idemp_r. replace (s + - s) with 0 by lia. reflexivity.
Qed.

Lemma capped_bounds (P : platform) (shift len : Z) :
  0 <= shift -> 0 <= len -> 0 <= LOG_BUF_LEN P < 2 ^ 31 ->
  0 <= capped P shift len <= LOG_BUF_LEN P / 2 ^ shift
  /\ capped P shift len <= len.
Proof.
  intros Hs Hl HL. unfold capped, INT_MAX.
  rewrite Z.shiftr_div_pow2 by exact Hs.
  assert (0 < 2 ^ shift) by (apply Z.pow_pos_nonneg; lia).
  assert (0 <= LOG_BUF_LEN P / 2 ^ shift <= LOG_BUF_LEN P).
  { split; [apply Z.div_pos; lia|].
    apply Z.div_le_upper_bound; [lia|]. nia. }
  destruct (Z.ltb_spec (LOG_BUF_LEN P / 2 ^ shift) len);
    destruct (Z.ltb_spec (2 ^ 31 - 1) len); cbn [orb]; lia.
Qed.

Section Placement.

Variable P : platform.
Hypothesis W : wf_facts P.

Ltac sizes :=
  unfold sizeof_netlog_log, sizeof_execlog_log, sizeof_sec_log in *.

Lemma buffer_facts :
  0 <= sizeof_current_details P /\ 0 <= LOG_BUF_LEN P / 16 /\
  LOG_BUF_LEN P < 2 ^ 31 /\
  2 * (sizeof_current_details P + LOG_BUF_LEN P / 16 + 88)
  + sizeof_current_details P + 16 < LOG_BUF_LEN P.
Proof.
  destruct W as [H1 _ _ H2 H3 _ _ _ _]. sizes.
  pose proof (Z.div_mod (LOG_BUF_LEN P) 16 ltac:(lia)) as E.
  pose proof (Z.mod_pos_bound (LOG_BUF_LEN P) 16 ltac:(lia)) as B.
  lia.
Qed.

Lemma netlog_path_len_bounds (path : list Z) :
  0 <= netlog_path_len P path <= LOG_BUF_LEN P / 16.
Proof.
  pose proof buffer_facts as F. unfold netlog_path_len.
  assert (0 <= u64 (Z.of_nat (List.length path) + 1))
    by (unfold u64; apply Z.mod_pos_bound; lia).
  destruct (capped_bounds P 4 (u64 (Z.of_nat (List.length path) + 1)))
    as [B _]; try lia.
  change (2 ^ 4) with 16 in B. exact B.
Qed.

Lemma netlog_record_size_eq (path : list Z) :
  netlog_record_size P path = sizeof_netlog_log P + netlog_path_len P path.
Proof.
  pose proof buffer_facts as F. pose proof (netlog_path_len_bounds path).
  unfold netlog_record_size, u64. sizes. apply Z.mod_small. lia.
Qed.

Lemma half_twice (x : Z) : 0 <= x -> 2 * (x / 32) <= x / 16.
Proof.
  intros Hx. change 32 with (16 * 2). rewrite <- Z.div_div by lia.
  apply Z.mul_div_le. lia.
Qed.

Lemma execlog_bounds (path : list Z) (argv_size : Z) :
  0 <= argv_size ->
  0 <= execlog_path_len P path <= LOG_BUF_LEN P / 32 /\
  0 <= capped P 5 argv_size <= LOG_BUF_LEN P / 32.
Proof.
  intros Ha. pose proof buffer_facts as F. unfold execlog_path_len.
  assert (0 <= u64 (Z.of_nat (List.length path) + 1))
    by (unfold u64; apply Z.mod_pos_bound; lia).
  destruct (capped_bounds P 5 (u64 (Z.of_nat (List.length path) + 1)))
    as [B _]; try lia.
  destruct (capped_bounds P 5 argv_size) as [B' _]; try lia.
  change (2 ^ 5) with 32 in B, B'. split; assumption.
Qed.

Lemma execlog_record_size_eq (path : list Z) (argv_size : Z) :
  0 <= argv_size ->
  execlog_record_size P path argv_size
  = sizeof_execlog_log P + execlog_path_len P path + capped P 5 argv_size.
Proof.
  intros Ha. pose proof buffer_facts as F.
  destruct (execlog_bounds path argv_size Ha) as [B1 B2].
  pose proof (half_twice (LOG_BUF_LEN P)).
  unfold execlog_record_size, u64. sizes. apply Z.mod_small. lia.
Qed.

Lemma record_size_bounds (a : append) :
  valid_append a = true ->
  sizeof_sec_log P + 16 <= record_size P a
  <= sizeof_netlog_log P + LOG_BUF_LEN P / 16.
Proof.
  intros Hv. pose proof buffer_facts as F.
  destruct a as [cur path action protocol family src sp dst dp | cur path argv n];
    cbn [record_size valid_append] in *.
  - rewrite netlog_record_size_eq. pose proof (netlog_path_len_bounds path).
    sizes. lia.
  - apply andb_true_iff in Hv. destruct Hv as [Hv _]. apply Z.leb_le in Hv.
    rewrite execlog_record_size_eq by exact Hv.
    destruct (execlog_bounds path n Hv) as [B1 B2].
    pose proof (half_twice (LOG_BUF_LEN P)).
    sizes. lia.
Qed.

(** The size find_new_record_place works with, and the room it asks
    for. *)
Lemma aligned_bounds (a : append) :
  valid_append a = true ->
  record_size P a <= align_size (record_size P a) < record_size P a + 8 /\
  u64 (align_size (record_size P a) + sizeof_sec_log P)
  = align_size (record_size P a) + sizeof_sec_log P.
Proof.
  intros Hv. pose proof buffer_facts as F.
  pose proof (record_size_bounds a Hv) as B.
  destruct (align_size_spec P (record_size P a)) as [A _]; [sizes; lia|].
  split; [exact A|]. unfold u64. apply Z.mod_small. sizes. lia.
Qed.

Lemma drop_old_stay (n : nat) (size : Z) (st : log_state) :
  log_next_seq st <= log_first_seq st
  \/ u64 (size + sizeof_sec_log P) < free_space P st ->
  drop_old P n size st = st.
Proof.
  intros H. destruct n as [|n]; [reflexivity|]. cbn [drop_old].
  destruct (Z.ltb_spec (log_first_seq st) (log_next_seq st)); [|reflexivity].
  destruct (Z.ltb_spec (u64 (size + sizeof_sec_log P)) (free_space P st));
    [reflexivity | lia].
Qed.

Lemma find_place_no_drop (size : Z) (st : log_state) :
  log_next_seq st <= log_first_seq st
  \/ u64 (align_size size + sizeof_sec_log P) < free_space P st ->
  find_new_record_place P size st
  = if LOG_BUF_LEN P <=? u64 (log_next_idx st + align_size size + sizeof_sec_log P)
    then with_next (log_next_seq st) 0
           (with_buf (store 8 (log_buf st) (log_next_idx st) 0) st)
    else st.
Proof.
  intros H. unfold find_new_record_place. cbv zeta.
  rewrite drop_old_stay by exact H. reflexivity.
Qed.

(** What an append does once the place of its record is found. *)
Lemma do_append_effect (a : append) (st : log_state) :
  valid_append a = true ->
  let pl := find_new_record_place P (record_size P a) st in
  let st' := do_append P st a in
  log_first_seq st' = log_first_seq pl /\
  log_first_idx st' = log_first_idx pl /\
  log_next_seq st' = u64 (log_next_seq pl + 1) /\
  log_next_idx st' = u32 (log_next_idx pl + record_size P a) /\
  unchanged_outside (log_buf pl) (log_buf st')
    (log_next_idx pl) (log_next_idx pl + record_size P a) /\
  load 8 (log_buf st') (log_next_idx pl + off_len) = record_size P a.
Proof.
  intros Hv. pose proof buffer_facts as F.
  pose proof (record_size_bounds a Hv) as B.
  destruct a as [cur path action protocol family src sp dst dp | cur path argv n];
    cbn [record_size valid_append do_append] in *; cbv zeta.
  - unfold store_netlog_record. cbn [log_first_seq log_first_idx log_next_seq
      log_next_idx log_buf with_next with_buf].
    repeat (split; [reflexivity|]).
    pose proof (netlog_path_len_bounds path) as L.
    split.
    + set (pl := find_new_record_place P (netlog_record_size P path) st).
      replace (log_next_idx pl + netlog_record_size P path)
        with (log_next_idx pl + sizeof_netlog_log P + netlog_path_len P path)
        by (rewrite netlog_record_size_eq; lia).
      apply write_netlog_record_extent; lia.
    + rewrite netlog_len_field by lia.
      apply Z.mod_small. unfold sizeof_netlog_log, sizeof_sec_log in *. lia.
  - apply andb_true_iff in Hv. destruct Hv as [Hv _]. apply Z.leb_le in Hv.
    destruct (execlog_bounds path n Hv) as [B1 B2].
    pose proof (half_twice (LOG_BUF_LEN P) ltac:(lia)) as HT.
    unfold store_execlog_record. cbn [log_first_seq log_first_idx log_next_seq
      log_next_idx log_buf with_next with_buf].
    repeat (split; [reflexivity|]).
    split.
    + set (pl := find_new_record_place P (execlog_record_size P path n) st).
      replace (log_next_idx pl + execlog_record_size P path n)
        with (log_next_idx pl + sizeof_execlog_log P + execlog_path_len P path
              + capped P 5 n)
        by (rewrite execlog_record_size_eq by exact Hv; lia).
      apply write_execlog_record_extent; lia.
    + rewrite execlog_len_field by lia.
      apply Z.mod_small. unfold sizeof_netlog_log, sizeof_sec_log in *. lia.
Qed.

End Placement.

Lemma stored_netlog_len (P : platform) (cur path : list Z)
      (action protocol family : Z) (src_ip : option (list Z)) (src_port : Z)
      (dst_ip : option (list Z)) (dst_port : Z) (st : log_state) :
  wf_facts P ->
  load 8
    (log_buf (store_netlog_record P cur path action protocol family
                src_ip src_port dst_ip dst_port st))
    (log_next_idx (find_new_record_place P (netlog_record_size P path) st) + off_len)
  = sizeof_netlog_log P + netlog_path_len P path.
Proof.
  intros W. unfold store_netlog_record. cbn [log_buf with_next with_buf].
  rewrite netlog_len_field by apply (wf_details P W).
  rewrite netlog_record_size_eq by exact W.
  pose proof (buffer_facts P W). pose proof (netlog_path_len_bounds P W path).
  apply Z.mod_small. unfold sizeof_netlog_log, sizeof_sec_log. lia.
Qed.

(** C2 on the code: the length store_netlog_record keeps in the header
    of a record is the size of the structure plus the length of the path;
    for the path "a" it leaves the remainder 2 modulo LOG_ALIGN. *)
Theorem header_len_not_aligned (P : platform) (cur : list Z)
        (action protocol family : Z) (src_ip : option (list Z)) (src_port : Z)
        (dst_ip : option (list Z)) (dst_port : Z) (st : log_state) :
  wf_platform P = true ->
  let st' := store_netlog_record P cur [97] action protocol family
               src_ip src_port dst_ip dst_port st in
  let record := log_next_idx (find_new_record_place P (netlog_record_size P [97]) st) in
  load 8 (log_buf st') (record + off_len) = sizeof_netlog_log P + 2
  /\ load 8 (log_buf st') (record + off_len) mod LOG_ALIGN = 2.
Proof.
  intros Hwf. pose proof (wf_platform_facts P Hwf) as W. cbv zeta.
  rewrite stored_netlog_len by exact W.
  assert (E : netlog_path_len P [97] = 2).
  { pose proof (buffer_facts P W) as F.
    pose proof (Z.div_mod (LOG_BUF_LEN P) 16 ltac:(lia)).
    pose proof (Z.mod_pos_bound (LOG_BUF_LEN P) 16 ltac:(lia)).
    unfold netlog_path_len, capped, INT_MAX. cbn [List.length].
    change (u64 (Z.of_nat 1 + 1)) with 2.
    rewrite Z.shiftr_div_pow2 by lia. change (2 ^ 4) with 16.
    destruct (Z.ltb_spec (LOG_BUF_LEN P / 16) 2); [lia|].
    reflexivity. }
  rewrite E. split; [reflexivity|].
  unfold sizeof_netlog_log, sizeof_sec_log, LOG_ALIGN.
  pose proof (wf_details_words P W) as M.
  rewrite (Z_div_exact_full_2 (sizeof_current_details P) 8) by lia.
  replace (16 + 8 * (sizeof_current_details P / 8) + 64 + 2)
    with (2 + (sizeof_current_details P / 8 + 10) * 8) by lia.
  rewrite Z.mod_add by lia. reflexivity.
Qed.

Lemma header_len_not_aligned_witness :
  let P := small 512 64 in
  let st' := store_netlog_record P [] [97] 0 0 AF_INET None 0 None 0 initial in
  load 8 (log_buf st') 0 = 90 /\ load 8 (log_buf st') 0 mod LOG_ALIGN = 2.
Proof.
  exact (header_len_not_aligned (small 512 64) [] 0 0 AF_INET None 0 None 0
           initial eq_refl).
Defined.

(** C10: store_netlog_record fills the 16 bytes of the source slot, and
    of the destination slot, with zeros when the address pointer is NULL,
    whatever the family. *)
Theorem null_address_slot_zeroed (P : platform) (cur path : list Z)
        (action protocol family : Z) (ip : option (list Z))
        (src_port dst_port : Z) (st : log_state) :
  let record := log_next_idx (find_new_record_place P (netlog_record_size P path) st) in
  read_bytes
    (log_buf (store_netlog_record P cur path action protocol family
                None src_port ip dst_port st))
    (record + off_src P) 16 = repeat 0 16
  /\
  read_bytes
    (log_buf (store_netlog_record P cur path action protocol family
                ip src_port None dst_port st))
    (record + off_dst P) 16 = repeat 0 16.
Proof.
  cbv zeta. unfold store_netlog_record. cbn [log_buf with_next with_buf].
  split; [apply netlog_src_null | apply netlog_dst_null]; reflexivity.
Qed.

(** *** Reading *)

Lemma fill_record_len_nonneg (P : platform) (m b : mem) (len record : Z) :
  0 <= snd (secure_log_read_fill_record P m b len record).
Proof.
  unfold secure_log_read_fill_record. cbv zeta.
  repeat match goal with
         | |- context [let '(_, _) := ?x in _] => destruct x
         end.
  cbn [snd]. unfold u64. apply Z.mod_pos_bound. lia.
Qed.

Lemma deliver_len_nonneg (P : platform) (st : log_state) (d : user_data) :
  0 <= fst (deliver P st d).
Proof.
  unfold deliver. cbv zeta.
  match goal with
  | |- context [secure_log_read_fill_record P ?m ?b ?l ?r] =>
      pose proof (fill_record_len_nonneg P m b l r) as H;
      destruct (secure_log_read_fill_record P m b l r)
  end.
  exact H.
Qed.

Lemma deliver_cursor (P : platform) (st : log_state) (d : user_data) :
  log_curr_seq (snd (deliver P st d)) = u64 (log_curr_seq d + 1) /\
  log_curr_idx (snd (deliver P st d))
  = next_record (log_buf st) (log_curr_idx d).
Proof.
  unfold deliver. cbv zeta.
  match goal with
  | |- context [secure_log_read_fill_record P ?m ?b ?l ?r] =>
      destruct (secure_log_read_fill_record P m b l r)
  end.
  split; reflexivity.
Qed.

(** At a marker, the line is the line of the record at the index 0. *)
Lemma deliver_at_marker (P : platform) (st : log_state) (d : user_data) :
  load 8 (log_buf st) (log_curr_idx d + off_len) = 0 ->
  let d0 := with_cursor (log_curr_seq d) 0 d in
  fst (deliver P st d) = fst (deliver P st d0) /\
  buf (snd (deliver P st d)) = buf (snd (deliver P st d0)) /\
  log_curr_idx (snd (deliver P st d)) = 0.
Proof.
  intros H. cbv zeta. unfold deliver. cbv zeta.
  cbn [log_curr_idx log_curr_seq with_cursor simple_format buf].
  unfold next_record. rewrite H. cbn [Z.eqb].
  assert (E : (if load 8 (log_buf st) (0 + off_len) =? 0 then 0 else 0) = 0)
    by (destruct (load 8 (log_buf st) (0 + off_len) =? 0); reflexivity).
  rewrite E.
  match goal with
  | |- context [secure_log_read_fill_record P ?m ?b ?l ?r] =>
      destruct (secure_log_read_fill_record P m b l r)
  end.
  repeat split; reflexivity.
Qed.

(** A read on a session whose cursor is older than the oldest record
    returns -EPIPE with nothing copied and sets the cursor to
    log_first_seq and log_first_idx; the read that follows does not
    return -EPIPE. *)
Lemma read_behind_oldest (P : platform) (st : log_state) (d : user_data)
      (nonblock : bool) (count : Z) (writable : bool) :
  log_first_seq st <= log_next_seq st ->
  log_curr_seq d < log_first_seq st ->
  let r := secure_log_read P st d nonblock count writable in
  fst r = Returns (- EPIPE) [] /\
  snd r = with_cursor (log_first_seq st) (log_first_idx st) d /\
  forall (nonblock' : bool) (count' : Z) (writable' : bool) (copied : list Z),
    fst (secure_log_read P st (snd r) nonblock' count' writable')
    <> Returns (- EPIPE) copied.
Proof.
  intros Hle Hlt. cbv zeta.
  set (d1 := with_cursor (log_first_seq st) (log_first_idx st) d).
  assert (R : secure_log_read P st d nonblock count writable
              = (Returns (- EPIPE) [], d1)).
  { unfold secure_log_read.
    destruct (Z.eqb_spec (log_curr_seq d) (log_next_seq st)); [lia|].
    destruct (Z.ltb_spec (log_curr_seq d) (log_first_seq st)); [|lia].
    reflexivity. }
  rewrite R. cbn [fst snd]. split; [reflexivity|]. split; [reflexivity|].
  intros nb' count' w' copied.
  unfold secure_log_read. replace (log_curr_seq d1) with (log_first_seq st) by reflexivity.
  destruct (Z.eqb_spec (log_first_seq st) (log_next_seq st)) as [E|E].
  - destruct nb'; [|destruct (negb (send_eof d1 =? 0))];
      cbn [fst]; unfold EAGAIN, EPIPE; intros X; inversion X.
  - rewrite Z.ltb_irrefl.
    pose proof (deliver_len_nonneg P st d1) as N.
    destruct (deliver P st d1) as [len d2]. cbn [fst snd] in *.
    destruct (Z.ltb_spec count' len); [|destruct (negb w')]; cbn [fst];
      unfold EINVAL, EFAULT, EPIPE; intros X; inversion X; lia.
Qed.

(** C5 on the code.  After nine appends of 90 bytes to a buffer of 512
    bytes the records 6 to 9 lie at the indices 0, 90, 180 and 270, and
    the oldest index, 450, is the index of the wraparound marker.  The
    session opened on the empty buffer is behind the oldest record: its
    read returns -EPIPE once, with nothing copied, and sets the cursor
    to (5, 450).  The reads that follow return the line of the record
    6, the line of the record 6 again, then the lines of the records 7
    and 8, and then -EAGAIN: the session stands at log_next_seq, its
    index on the record 9, which no read has delivered.
    After the twenty-four appends of demo_mixed the oldest index is
    1633771963, outside the buffer of 512 bytes, and that is where the
    read that returns -EPIPE puts the cursor. *)
Theorem reads_after_overflow_repeat_and_miss :
  let st := demo_nine in
  let line6 := text "netlog [    0.000000]: pid a 6 -> 443" ++ [10] in
  let line7 := text "netlog [    0.000000]: pid a 7 -> 443" ++ [10] in
  let line8 := text "netlog [    0.000000]: pid a 8 -> 443" ++ [10] in
  let cursor (r : outcome * user_data) :=
    (log_curr_seq (snd r), log_curr_idx (snd r)) in
  let lost := demo_read st 100 demo_session in
  let r1 := demo_read st 100 (snd lost) in
  let r2 := demo_read st 100 (snd r1) in
  let r3 := demo_read st 100 (snd r2) in
  let r4 := demo_read st 100 (snd r3) in
  let r5 := demo_read st 100 (snd r4) in
  let st24 := do_appends demo demo_mixed initial in
  (log_first_seq st, log_first_idx st, log_next_seq st, log_next_idx st)
  = (5, 450, 9, 360) /\
  load 8 (log_buf st) (450 + off_len) = 0 /\
  map (fun idx => (load 8 (log_buf st) (idx + off_len),
                   load 4 (log_buf st) (idx + off_src_port demo)))
      [0; 90; 180; 270]
  = [(90, 6); (90, 7); (90, 8); (90, 9)] /\
  log_curr_seq demo_session = 0 /\
  fst lost = Returns (- EPIPE) [] /\ cursor lost = (5, 450) /\
  fst r1 = Returns 38 line6 /\ cursor r1 = (6, 0) /\
  fst r2 = Returns 38 line6 /\ cursor r2 = (7, 90) /\
  fst r3 = Returns 38 line7 /\ cursor r3 = (8, 180) /\
  fst r4 = Returns 38 line8 /\ cursor r4 = (9, 270) /\
  fst r5 = Returns (- EAGAIN) [] /\
  forallb valid_append demo_mixed = true /\
  List.length demo_mixed = 24%nat /\
  LOG_BUF_LEN demo = 512 /\
  log_first_idx st24 = 1633771963 /\
  fst (demo_read st24 100 demo_session) = Returns (- EPIPE) [] /\
  log_curr_idx (snd (demo_read st24 100 demo_session)) = 1633771963.
Proof.
  vm_compute. repeat split; reflexivity.
Qed.

(** A read into a buffer too small for the line returns -EINVAL with
    nothing copied, the cursor already moved by next_record. *)
Lemma read_too_small (P : platform) (st : log_state) (d : user_data)
      (nonblock : bool) (count : Z) (writable : bool) :
  log_curr_seq d <> log_next_seq st ->
  log_first_seq st <= log_curr_seq d ->
  count < fst (deliver P st d) ->
  let r := secure_log_read P st d nonblock count writable in
  fst r = Returns (- EINVAL) [] /\
  log_curr_seq (snd r) = u64 (log_curr_seq d + 1) /\
  log_curr_idx (snd r) = next_record (log_buf st) (log_curr_idx d).
Proof.
  intros Hne Hle Hc. cbv zeta. unfold secure_log_read.
  destruct (Z.eqb_spec (log_curr_seq d) (log_next_seq st)); [lia|].
  destruct (Z.ltb_spec (log_curr_seq d) (log_first_seq st)); [lia|].
  destruct (deliver_cursor P st d) as [C1 C2].
  destruct (deliver P st d) as [len d2]. cbn [fst snd] in *.
  destruct (Z.ltb_spec count len); [|lia]. cbn [fst snd].
  split; [reflexivity|]. split; assumption.
Qed.

(** C9 on the code, at a wraparound: the session has read five records
    and stands at the index 450, where the sixth append left the marker.
    A read into 10 bytes returns -EINVAL and moves the cursor to the
    index 0, where the sixth record is; after a seventh append, the read
    into 100 bytes returns the line of the sixth record, the one whose
    delivery failed, and the session then stands at the end although the
    seventh record was never delivered. *)
Theorem read_retry_at_marker_repeats :
  let line6 := text "netlog [    0.000000]: pid a 6 -> 443" ++ [10] in
  let failed := demo_read demo_wrapped 10 demo_reader in
  let st := do_append demo demo_wrapped (demo_record 7) in
  let retry := demo_read st 100 (snd failed) in
  (log_curr_seq demo_reader, log_curr_idx demo_reader) = (5, 450) /\
  load 8 (log_buf demo_wrapped) 450 = 0 /\
  fst (demo_read demo_wrapped 100 demo_reader) = Returns 38 line6 /\
  fst failed = Returns (- EINVAL) [] /\
  (log_curr_seq (snd failed), log_curr_idx (snd failed)) = (6, 0) /\
  fst retry = Returns 38 line6 /\
  log_next_seq st = 7 /\
  fst (demo_read st 100 (snd retry)) = Returns (- EAGAIN) [].
Proof.
  vm_compute. repeat split; reflexivity.
Qed.

(** A session at a marker reads what a session at the index 0 reads. *)
Lemma read_at_marker (P : platform) (st : log_state) (d : user_data)
      (nonblock : bool) (count : Z) (writable : bool) :
  load 8 (log_buf st) (log_curr_idx d + off_len) = 0 ->
  fst (secure_log_read P st d nonblock count writable)
  = fst (secure_log_read P st (with_cursor (log_curr_seq d) 0 d)
           nonblock count writable).
Proof.
  intros H. unfold secure_log_read.
  cbn [log_curr_seq with_cursor send_eof].
  destruct (log_curr_seq d =? log_next_seq st).
  { destruct nonblock; [|destruct (negb (send_eof d =? 0))]; reflexivity. }
  destruct (log_curr_seq d <? log_first_seq st); [reflexivity|].
  destruct (deliver_at_marker P st d H) as (E1 & E2 & _).
  destruct (deliver P st d) as [len d1].
  destruct (deliver P st (with_cursor (log_curr_seq d) 0 d)) as [len0 d0].
  cbn [fst snd] in E1, E2. subst len0. rewrite E2.
  destruct (count <? len); [|destruct (negb writable)]; reflexivity.
Qed.

Section Wraparound.

Variable P : platform.
Hypothesis W : wf_facts P.

(** The loop of find_new_record_place moves the oldest record only. *)
Lemma drop_old_keeps (n : nat) (size : Z) (st : log_state) :
  log_buf (drop_old P n size st) = log_buf st /\
  log_next_seq (drop_old P n size st) = log_next_seq st /\
  log_next_idx (drop_old P n size st) = log_next_idx st.
Proof.
  revert st. induction n as [|n IH]; intros st; cbn [drop_old].
  - repeat split.
  - destruct (log_first_seq st <? log_next_seq st); [|repeat split].
    destruct (u64 (size + sizeof_sec_log P) <? free_space P st); [repeat split|].
    destruct (IH (drop_first st)) as (E1 & E2 & E3).
    rewrite E1, E2, E3. repeat split.
Qed.

Lemma drop_old_seq (n : nat) (size : Z) (st : log_state) :
  0 <= log_first_seq st <= log_next_seq st -> log_next_seq st < 2 ^ 64 ->
  log_first_seq st <= log_first_seq (drop_old P n size st) <= log_next_seq st.
Proof.
  revert st. induction n as [|n IH]; intros st H1 H2; cbn [drop_old]; [lia|].
  destruct (Z.ltb_spec (log_first_seq st) (log_next_seq st)); [|lia].
  destruct (u64 (size + sizeof_sec_log P) <? free_space P st); [lia|].
  assert (E : log_first_seq (drop_first st) = log_first_seq st + 1).
  { unfold drop_first. cbn [log_first_seq with_first].
    unfold u64. apply Z.mod_small. lia. }
  assert (E' : log_next_seq (drop_first st) = log_next_seq st) by reflexivity.
  specialize (IH (drop_first st)). rewrite E, E' in IH. lia.
Qed.

Lemma wrap_place (a : append) (st : log_state) :
  valid_append a = true ->
  0 <= log_next_idx st < 2 ^ 32 ->
  LOG_BUF_LEN P <= log_next_idx st + align_size (record_size P a) + sizeof_sec_log P ->
  find_new_record_place P (record_size P a) st
  = with_next (log_next_seq st) 0
      (with_buf (store 8 (log_buf st) (log_next_idx st) 0)
         (after_loop P (record_size P a) st)).
Proof.
  intros Hv Hidx Hend.
  pose proof (buffer_facts P W) as F.
  pose proof (record_size_bounds P W a Hv) as B.
  destruct (aligned_bounds P W a Hv) as [A U].
  unfold find_new_record_place, after_loop. cbv zeta.
  destruct (drop_old_keeps (Z.to_nat (log_next_seq st - log_first_seq st))
              (align_size (record_size P a)) st) as (K1 & K2 & K3).
  rewrite K1, K2, K3.
  assert (E : u64 (log_next_idx st + align_size (record_size P a)
                   + sizeof_sec_log P)
              = log_next_idx st + align_size (record_size P a) + sizeof_sec_log P).
  { unfold u64. apply Z.mod_small.
    unfold sizeof_netlog_log, sizeof_sec_log in *. lia. }
  rewrite E. destruct (Z.leb_spec (LOG_BUF_LEN P)
    (log_next_idx st + align_size (record_size P a) + sizeof_sec_log P));
    [reflexivity | lia].
Qed.

End Wraparound.

(** When the new record, with its alignment and a header, does not fit
    between the write offset and the end of the buffer, the append
    leaves the marker (a length of 0) at the write offset, puts the
    record at the index 0 and sets the write offset behind it.  The
    oldest record is where the loop that makes room left it: the
    wraparound itself drops nothing, and nothing at all is dropped when
    the room was there. *)
Lemma wraparound_append (P : platform) (a : append) (st : log_state) :
  wf_platform P = true ->
  valid_append a = true ->
  0 <= log_first_seq st <= log_next_seq st ->
  log_next_seq st < 2 ^ 64 - 1 ->
  0 <= log_next_idx st < 2 ^ 32 ->
  LOG_BUF_LEN P <= log_next_idx st + align_size (record_size P a) + sizeof_sec_log P ->
  let st' := do_append P st a in
  load 8 (log_buf st') (log_next_idx st + off_len) = 0 /\
  placed P st a = 0 /\
  load 8 (log_buf st') (0 + off_len) = record_size P a /\
  log_next_idx st' = record_size P a /\
  log_next_seq st' = log_next_seq st + 1 /\
  log_first_seq st' = log_first_seq (after_loop P (record_size P a) st) /\
  log_first_idx st' = log_first_idx (after_loop P (record_size P a) st) /\
  (log_next_seq st <= log_first_seq st
   \/ u64 (align_size (record_size P a) + sizeof_sec_log P) < free_space P st ->
   log_first_seq st' = log_first_seq st /\ log_first_idx st' = log_first_idx st).
Proof.
  intros Hwf Hv Hseq Hseq' Hidx Hend.
  pose proof (wf_platform_facts P Hwf) as W.
  pose proof (buffer_facts P W) as F.
  pose proof (record_size_bounds P W a Hv) as B.
  destruct (aligned_bounds P W a Hv) as [A U].
  pose proof (wrap_place P W a st Hv Hidx Hend) as Hpl.
  pose proof (drop_old_seq P (Z.to_nat (log_next_seq st - log_first_seq st))
                (align_size (record_size P a)) st Hseq ltac:(lia)) as Hdrop.
  fold (after_loop P (record_size P a) st) in Hdrop.
  destruct (do_append_effect P W a st Hv) as (E1 & E2 & E3 & E4 & E5 & E6).
  cbv zeta. unfold placed. rewrite Hpl in *.
  cbn [log_first_seq log_first_idx log_next_seq log_next_idx log_buf
         with_next with_buf] in *.
  assert (M : load 8 (log_buf (do_append P st a)) (log_next_idx st + off_len) = 0).
  { rewrite (unchanged_load _ _ _ _ _ _ E5)
      by (unfold off_len, sizeof_netlog_log, sizeof_sec_log in *; lia).
    unfold off_len. rewrite Z.add_0_r. rewrite load_store_same. reflexivity. }
  assert (N : log_next_seq (do_append P st a) = log_next_seq st + 1).
  { rewrite E3. unfold u64. apply Z.mod_small. lia. }
  split; [exact M|]. split; [reflexivity|]. split; [exact E6|].
  split. { rewrite E4. unfold u32. apply Z.mod_small.
           unfold sizeof_netlog_log, sizeof_sec_log in *. lia. }
  split; [exact N|].
  split; [exact E1|]. split; [exact E2|].
  intros Hroom. rewrite E1, E2. unfold after_loop.
  rewrite drop_old_stay by exact Hroom. split; reflexivity.
Qed.

(** C4 on the code.  The writer does what the claim says: the sixth
    append of 90 bytes does not fit behind the fifth, which ends at the
    index 450 of 512; it leaves the marker at 450, puts its record at
    the index 0 and the write offset at 90.  The reader does not: the
    session that had read five records and stood at (5, 450) reads the
    line of the record 6 and is left at (6, 0), one sequence number on
    but with its index on the record it has just delivered, not behind
    it at 90: the step over the marker was counted as a record.  After
    the appends 7 and 8, which lie at 90 and 180, its reads return the
    line of the record 6 again, then the line of the record 7, then
    -EAGAIN, the session at log_next_seq with its index on the record 8,
    which no read has delivered. *)
Theorem reader_counts_marker_as_record :
  let line6 := text "netlog [    0.000000]: pid a 6 -> 443" ++ [10] in
  let line7 := text "netlog [    0.000000]: pid a 7 -> 443" ++ [10] in
  let cursor (r : outcome * user_data) :=
    (log_curr_seq (snd r), log_curr_idx (snd r)) in
  let st6 := do_append demo demo_filled (demo_record 6) in
  let st8 := do_appends demo [demo_record 7; demo_record 8] st6 in
  let r1 := demo_read st6 100 demo_reader in
  let r2 := demo_read st8 100 (snd r1) in
  let r3 := demo_read st8 100 (snd r2) in
  let r4 := demo_read st8 100 (snd r3) in
  (log_next_seq demo_filled, log_next_idx demo_filled) = (5, 450) /\
  (log_curr_seq demo_reader, log_curr_idx demo_reader) = (5, 450) /\
  load 8 (log_buf st6) (450 + off_len) = 0 /\
  placed demo demo_filled (demo_record 6) = 0 /\
  load 8 (log_buf st6) (0 + off_len) = 90 /\
  (log_next_seq st6, log_next_idx st6) = (6, 90) /\
  fst r1 = Returns 38 line6 /\ cursor r1 = (6, 0) /\
  (log_first_seq st8, log_first_idx st8, log_next_seq st8, log_next_idx st8)
  = (4, 360, 8, 270) /\
  map (fun idx => (load 8 (log_buf st8) (idx + off_len),
                   load 4 (log_buf st8) (idx + off_src_port demo)))
      [0; 90; 180]
  = [(90, 6); (90, 7); (90, 8)] /\
  fst r2 = Returns 38 line6 /\ cursor r2 = (7, 90) /\
  fst r3 = Returns 38 line7 /\ cursor r3 = (8, 180) /\
  fst r4 = Returns (- EAGAIN) [].
Proof.
  vm_compute. repeat split; reflexivity.
Qed.

(** *** Walking the records *)

Lemma chain_S (m : mem) (idx : Z) (k : nat) (stop : Z) :
  chain m idx (S k) stop
  = (8 <= load 8 m (idx + off_len) /\ 0 <= idx /\
     idx + load 8 m (idx + off_len) <= stop /\ stop < 2 ^ 32 /\
     chain m (idx + load 8 m (idx + off_len)) k stop).
Proof. reflexivity. Qed.

Lemma chain_next (m : mem) (idx len : Z) :
  8 <= len -> 0 <= idx -> idx + len < 2 ^ 32 ->
  load 8 m (idx + off_len) = len -> next_record m idx = idx + len.
Proof.
  intros H1 H2 H3 H4. unfold next_record. rewrite H4.
  destruct (Z.eqb_spec len 0); [lia|]. unfold u32. apply Z.mod_small. lia.
Qed.

Lemma chain_unchanged (m m' : mem) (lo hi : Z) (n : nat) (idx stop : Z) :
  unchanged_outside m m' lo hi -> stop <= lo ->
  chain m idx n stop ->
  chain m' idx n stop /\ walk m' idx n = walk m idx n.
Proof.
  intros Hu Hlo. revert idx. induction n as [|n IH]; intros idx Hc.
  - split; [exact Hc | reflexivity].
  - cbn [chain] in Hc. destruct Hc as (H1 & H2 & H3 & H4 & H5).
    assert (E : load 8 m' (idx + off_len) = load 8 m (idx + off_len)).
    { apply (unchanged_load m m' lo hi); [exact Hu|]. unfold off_len. lia. }
    destruct (IH _ H5) as [IH1 IH2].
    cbn [chain walk]. rewrite E. split; [tauto|].
    rewrite !(chain_next _ idx (load 8 m (idx + off_len))) by (auto; lia).
    rewrite IH2. do 2 f_equal.
    apply (unchanged_read m m' lo hi); [exact Hu|]. lia.
Qed.

Lemma chain_snoc (m : mem) (n : nat) (idx stop : Z) :
  chain m idx n stop ->
  8 <= load 8 m (stop + off_len) -> 0 <= stop ->
  stop + load 8 m (stop + off_len) < 2 ^ 32 ->
  chain m idx (S n) (stop + load 8 m (stop + off_len)) /\
  walk m idx (S n)
  = walk m idx n
    ++ [(stop, read_bytes m stop (Z.to_nat (load 8 m (stop + off_len))))].
Proof.
  intros Hc H1 H2 H3. revert idx Hc. induction n as [|n IH]; intros idx Hc.
  - cbn [chain] in Hc. subst idx. cbn [chain walk app].
    split; [|reflexivity]. repeat split; lia.
  - cbn [chain] in Hc. destruct Hc as (C1 & C2 & C3 & C4 & C5).
    destruct (IH _ C5) as [IH1 IH2].
    split.
    + rewrite chain_S.
      split; [lia|]. split; [lia|]. split; [lia|]. split; [lia|]. exact IH1.
    + change (walk m idx (S (S n)))
        with ((idx, read_bytes m idx (Z.to_nat (load 8 m (idx + off_len))))
              :: walk m (next_record m idx) (S n)).
      change (walk m idx (S n))
        with ((idx, read_bytes m idx (Z.to_nat (load 8 m (idx + off_len))))
              :: walk m (next_record m idx) n).
      rewrite (chain_next m idx (load 8 m (idx + off_len))) by (auto; lia).
      rewrite IH2. reflexivity.
Qed.

Lemma stored_snoc (P : platform) (l : list append) (a : append) (st : log_state) :
  stored P (l ++ [a]) st
  = stored P l st
    ++ [(placed P (do_appends P l st) a,
         read_bytes (log_buf (do_append P (do_appends P l st) a))
           (placed P (do_appends P l st) a) (Z.to_nat (record_size P a)))].
Proof.
  revert st. induction l as [|b l IH]; intros st.
  - reflexivity.
  - cbn [app stored do_appends fold_left]. rewrite IH. reflexivity.
Qed.

Lemma no_eviction_snoc (P : platform) (l : list append) (a : append) (st : log_state) :
  no_eviction P (l ++ [a]) st
  = no_eviction P l st
    && (log_first_seq (do_append P (do_appends P l st) a)
        =? log_first_seq (do_appends P l st)).
Proof.
  revert st. induction l as [|b l IH]; intros st.
  - cbn. rewrite andb_true_r. reflexivity.
  - cbn [app no_eviction do_appends fold_left]. rewrite IH.
    rewrite andb_assoc. reflexivity.
Qed.

Lemma chain_count (m : mem) (n : nat) (idx stop : Z) :
  chain m idx n stop -> idx + 8 * Z.of_nat n <= stop.
Proof.
  revert idx. induction n as [|n IH]; intros idx Hc.
  - cbn [chain] in Hc. lia.
  - rewrite chain_S in Hc. destruct Hc as (C1 & C2 & C3 & C4 & C5).
    specialize (IH _ C5). lia.
Qed.

Section NoEviction.

Variable P : platform.
Hypothesis W : wf_facts P.

Lemma place_first_seq (size : Z) (st : log_state) :
  log_first_seq (find_new_record_place P size st)
  = log_first_seq (after_loop P size st).
Proof.
  unfold find_new_record_place, after_loop. cbv zeta.
  match goal with |- context [if ?b then _ else _] => destruct b end;
    reflexivity.
Qed.

Lemma filled_place (n : nat) (st : log_state) (a : append) :
  filled P n st -> valid_append a = true ->
  log_first_seq (do_append P st a) = 0 ->
  find_new_record_place P (record_size P a) st = st.
Proof.
  intros [F1 F2 F3 F4 F5] Hv H0.
  pose proof (buffer_facts P W) as F.
  pose proof (record_size_bounds P W a Hv) as B.
  destruct (aligned_bounds P W a Hv) as [A U].
  pose proof (chain_count _ _ _ _ F5) as Hn.
  destruct (do_append_effect P W a st Hv) as (E1 & _).
  rewrite H0, place_first_seq in E1.
  assert (Hroom : log_next_seq st <= log_first_seq st
                  \/ u64 (align_size (record_size P a) + sizeof_sec_log P)
                     < free_space P st).
  { destruct n as [|n]; [left; lia|]. right.
    destruct (Z.ltb_spec (u64 (align_size (record_size P a) + sizeof_sec_log P))
                (free_space P st)) as [Hlt|Hge]; [exact Hlt | exfalso].
    unfold after_loop in E1. rewrite F1, F3, Z.sub_0_r, Nat2Z.id in E1.
    cbn [drop_old] in E1.
    destruct (Z.ltb_spec (log_first_seq st) (log_next_seq st)); [|lia].
    destruct (Z.ltb_spec (u64 (align_size (record_size P a) + sizeof_sec_log P))
                (free_space P st)); [lia|].
    assert (D1 : log_first_seq (drop_first st) = 1).
    { unfold drop_first. cbn [log_first_seq with_first]. rewrite F1. reflexivity. }
    assert (D2 : log_next_seq (drop_first st) = log_next_seq st) by reflexivity.
    pose proof (drop_old_seq P n (align_size (record_size P a)) (drop_first st))
      as Hd.
    rewrite D1, D2 in Hd. lia. }
  rewrite find_place_no_drop by exact Hroom.
  assert (E : u64 (log_next_idx st + align_size (record_size P a)
                   + sizeof_sec_log P)
              = log_next_idx st + align_size (record_size P a) + sizeof_sec_log P).
  { unfold u64. apply Z.mod_small.
    unfold sizeof_netlog_log, sizeof_sec_log in *. lia. }
  rewrite E.
  destruct (Z.leb_spec (LOG_BUF_LEN P)
    (log_next_idx st + align_size (record_size P a) + sizeof_sec_log P))
    as [Hwrap|]; [exfalso | reflexivity].
  destruct Hroom as [Hempty|Hfree].
  - assert (n = 0%nat) by lia. subst n. cbn [chain] in F5.
    unfold sizeof_netlog_log, sizeof_sec_log in *. lia.
  - rewrite U in Hfree. unfold free_space in Hfree. rewrite F2 in Hfree.
    destruct (Z.ltb_spec 0 (log_next_idx st)).
    + unfold u32 in Hfree. rewrite Z.mod_small in Hfree by lia. lia.
    + unfold u32 in Hfree.
      replace (0 - log_next_idx st) with 0 in Hfree by lia.
      rewrite Z.mod_0_l in Hfree by lia.
      unfold sizeof_sec_log in *. lia.
Qed.

Lemma filled_step (n : nat) (st : log_state) (a : append) :
  filled P n st -> valid_append a = true ->
  log_first_seq (do_append P st a) = 0 ->
  placed P st a = log_next_idx st /\
  log_next_idx (do_append P st a) = log_next_idx st + record_size P a /\
  filled P (S n) (do_append P st a) /\
  walk (log_buf (do_append P st a)) 0 (S n)
  = walk (log_buf st) 0 n
    ++ [(log_next_idx st,
         read_bytes (log_buf (do_append P st a)) (log_next_idx st)
           (Z.to_nat (record_size P a)))].
Proof.
  intros Hf Hv H0. pose proof (filled_place n st a Hf Hv H0) as Hpl.
  destruct Hf as [F1 F2 F3 F4 F5].
  pose proof (buffer_facts P W) as F.
  pose proof (record_size_bounds P W a Hv) as B.
  destruct (aligned_bounds P W a Hv) as [A U].
  pose proof (chain_count _ _ _ _ F5) as Hn.
  destruct (do_append_effect P W a st Hv) as (E1 & E2 & E3 & E4 & E5 & E6).
  unfold placed. rewrite Hpl in *.
  assert (Hfit : log_next_idx st + align_size (record_size P a)
                 + sizeof_sec_log P < LOG_BUF_LEN P).
  { pose proof Hpl as Hpl'. unfold find_new_record_place in Hpl'. cbv zeta in Hpl'.
    destruct (drop_old_keeps P (Z.to_nat (log_next_seq st - log_first_seq st))
                (align_size (record_size P a)) st) as (K1 & K2 & K3).
    rewrite K3 in Hpl'.
    assert (E : u64 (log_next_idx st + align_size (record_size P a)
                     + sizeof_sec_log P)
                = log_next_idx st + align_size (record_size P a) + sizeof_sec_log P).
    { unfold u64. apply Z.mod_small.
      unfold sizeof_netlog_log, sizeof_sec_log in *. lia. }
    rewrite E in Hpl'.
    destruct (Z.leb_spec (LOG_BUF_LEN P)
      (log_next_idx st + align_size (record_size P a) + sizeof_sec_log P))
      as [Hwrap|Hno]; [exfalso | exact Hno].
    apply (f_equal log_next_idx) in Hpl'.
    cbn [log_next_idx with_next] in Hpl'.
    assert (log_next_idx st = 0) by congruence.
    unfold sizeof_netlog_log, sizeof_sec_log in *. lia. }
  assert (N : log_next_idx (do_append P st a) = log_next_idx st + record_size P a).
  { rewrite E4. unfold u32. apply Z.mod_small.
    unfold sizeof_sec_log in *. lia. }
  destruct (chain_unchanged _ _ _ _ n 0 (log_next_idx st) E5 ltac:(lia) F5)
    as [C1 C2].
  destruct (chain_snoc _ n 0 (log_next_idx st) C1) as [S1 S2].
  { rewrite E6. unfold sizeof_sec_log in *. lia. }
  { lia. }
  { rewrite E6. unfold sizeof_sec_log in *. lia. }
  rewrite E6 in S1, S2.
  split; [reflexivity|]. split; [exact N|]. split.
  - constructor.
    + rewrite E1. exact F1.
    + rewrite E2. exact F2.
    + rewrite E3, F3. unfold u64. rewrite Z.mod_small by lia. lia.
    + rewrite N. unfold sizeof_sec_log in *. lia.
    + rewrite N. exact S1.
  - rewrite S2, C2. reflexivity.
Qed.

Lemma appends_filled (l : list append) :
  forallb valid_append l = true ->
  no_eviction P l initial = true ->
  filled P (List.length l) (do_appends P l initial) /\
  walk (log_buf (do_appends P l initial)) 0 (List.length l)
  = stored P l initial.
Proof.
  pose proof (buffer_facts P W) as F.
  induction l as [|a l IH] using rev_ind; intros Hv Hn.
  - split; [|reflexivity].
    constructor; cbn; try reflexivity. unfold sizeof_sec_log in *. lia.
  - rewrite forallb_app in Hv. apply andb_true_iff in Hv. destruct Hv as [Hv Ha].
    cbn [forallb] in Ha. rewrite andb_true_r in Ha.
    rewrite no_eviction_snoc in Hn. apply andb_true_iff in Hn.
    destruct Hn as [Hn Hlast]. apply Z.eqb_eq in Hlast.
    destruct (IH Hv Hn) as [If Iw].
    rewrite (filled_first_seq _ _ _ If) in Hlast.
    destruct (filled_step _ _ a If Ha Hlast) as (S1 & _ & S2 & S3).
    assert (E : do_appends P (l ++ [a]) initial
                = do_append P (do_appends P l initial) a).
    { unfold do_appends. rewrite fold_left_app. reflexivity. }
    assert (L : List.length (l ++ [a]) = S (List.length l)).
    { rewrite length_app. cbn [List.length]. lia. }
    rewrite E, L, stored_snoc, S1. split; [exact S2|].
    rewrite S3, Iw. reflexivity.
Qed.

Lemma total_size_snoc (l : list append) (a : append) :
  total_size P (l ++ [a]) = total_size P l + record_size P a.
Proof.
  unfold total_size. induction l as [|b l IH]; cbn [app fold_right]; lia.
Qed.

Lemma total_size_nonneg (l : list append) :
  forallb valid_append l = true -> 0 <= total_size P l.
Proof.
  pose proof (buffer_facts P W) as F.
  induction l as [|a l IH]; intros Hv; cbn [total_size fold_right]; [lia|].
  cbn [forallb] in Hv. apply andb_true_iff in Hv. destruct Hv as [Ha Hv].
  pose proof (record_size_bounds P W a Ha). specialize (IH Hv).
  unfold total_size in IH. unfold sizeof_sec_log in *. lia.
Qed.

(** Appends whose sizes, with the alignment of the last one and a
    header, stay below the size of the buffer drop nothing. *)
Lemma fitting_appends_drop_nothing (l : list append) :
  forallb valid_append l = true ->
  total_size P l + 8 + sizeof_sec_log P < LOG_BUF_LEN P ->
  no_eviction P l initial = true /\
  log_next_idx (do_appends P l initial) = total_size P l.
Proof.
  pose proof (buffer_facts P W) as F.
  induction l as [|a l IH] using rev_ind; intros Hv Hfit.
  - split; reflexivity.
  - rewrite forallb_app in Hv. apply andb_true_iff in Hv. destruct Hv as [Hv Ha].
    cbn [forallb] in Ha. rewrite andb_true_r in Ha.
    rewrite total_size_snoc in *.
    pose proof (record_size_bounds P W a Ha) as B.
    destruct (aligned_bounds P W a Ha) as [A U].
    pose proof (total_size_nonneg l Hv) as T.
    destruct IH as [In Ix]; [exact Hv | unfold sizeof_sec_log in *; lia |].
    destruct (appends_filled l Hv In) as [If _].
    set (st := do_appends P l initial) in *.
    assert (Hpl : find_new_record_place P (record_size P a) st = st).
    { destruct If as [F1 F2 F3 F4 F5].
      assert (E : u64 (log_next_idx st + align_size (record_size P a)
                       + sizeof_sec_log P)
                  = log_next_idx st + align_size (record_size P a)
                    + sizeof_sec_log P).
      { unfold u64. apply Z.mod_small.
        unfold sizeof_netlog_log, sizeof_sec_log in *. lia. }
      rewrite find_place_no_drop.
      - rewrite E. destruct (Z.leb_spec (LOG_BUF_LEN P)
          (log_next_idx st + align_size (record_size P a) + sizeof_sec_log P));
          [lia | reflexivity].
      - destruct (Z.eq_dec (log_next_idx st) 0) as [Z0|Z0].
        + left. pose proof (chain_count _ _ _ _ F5). lia.
        + right. rewrite U. unfold free_space. rewrite F2.
          destruct (Z.ltb_spec 0 (log_next_idx st)); [|lia].
          unfold u32. rewrite Z.mod_small by lia. lia. }
    assert (H0 : log_first_seq (do_append P st a) = 0).
    { destruct (do_append_effect P W a st Ha) as (E1 & _).
      rewrite E1, Hpl. apply (filled_first_seq _ _ _ If). }
    destruct (filled_step _ _ a If Ha H0) as (_ & N & _).
    assert (E : do_appends P (l ++ [a]) initial = do_append P st a).
    { unfold st, do_appends. rewrite fold_left_app. reflexivity. }
    rewrite E, no_eviction_snoc, In. fold st.
    rewrite H0, (filled_first_seq _ _ _ If). split; [reflexivity|].
    rewrite N, Ix. reflexivity.
Qed.

End NoEviction.

(** When none of the appends of a sequence, run on the empty buffer,
    drops a record, the walk from the oldest record with next_record
    finds as many records as were appended, in the order of the appends,
    each at the index where its append put it and with the bytes it had
    right after its append. *)
Lemma walk_of_kept_appends (P : platform) (l : list append) :
  wf_platform P = true ->
  forallb valid_append l = true ->
  no_eviction P l initial = true ->
  let st := do_appends P l initial in
  walk (log_buf st) (log_first_idx st) (List.length l) = stored P l initial.
Proof.
  intros Hwf Hv Hn. cbv zeta.
  destruct (appends_filled P (wf_platform_facts P Hwf) l Hv Hn) as [Hf Hw].
  rewrite (filled_first_idx _ _ _ Hf). exact Hw.
Qed.




(** *** What every append keeps *)

Section Invariants.

Variable P : platform.
Hypothesis W : wf_facts P.

(** The record of an append lies inside the buffer, a header away from
    its end, and so does the marker of a wraparound. *)
Lemma append_within_buffer (a : append) (st : log_state) :
  valid_append a = true ->
  0 <= log_next_idx st -> log_next_idx st + sizeof_sec_log P < LOG_BUF_LEN P ->
  let st' := do_append P st a in
  0 <= placed P st a /\
  placed P st a + record_size P a + sizeof_sec_log P < LOG_BUF_LEN P /\
  log_next_idx st' = placed P st a + record_size P a.
Proof.
  intros Hv H0 H1. cbv zeta.
  pose proof (buffer_facts P W) as F.
  pose proof (record_size_bounds P W a Hv) as B.
  destruct (aligned_bounds P W a Hv) as [A U].
  destruct (do_append_effect P W a st Hv) as (_ & _ & _ & E4 & _).
  assert (Hpl : placed P st a = 0
                \/ (placed P st a = log_next_idx st
                    /\ log_next_idx st + align_size (record_size P a)
                       + sizeof_sec_log P < LOG_BUF_LEN P)).
  { unfold placed, find_new_record_place. cbv zeta.
    destruct (drop_old_keeps P (Z.to_nat (log_next_seq st - log_first_seq st))
                (align_size (record_size P a)) st) as (_ & _ & K).
    rewrite K.
    assert (E : u64 (log_next_idx st + align_size (record_size P a)
                     + sizeof_sec_log P)
                = log_next_idx st + align_size (record_size P a) + sizeof_sec_log P).
    { unfold u64. apply Z.mod_small.
      unfold sizeof_netlog_log, sizeof_sec_log in *. lia. }
    rewrite E.
    destruct (Z.leb_spec (LOG_BUF_LEN P)
      (log_next_idx st + align_size (record_size P a) + sizeof_sec_log P)).
    - left. reflexivity.
    - right. rewrite K. split; [reflexivity | assumption]. }
  fold (placed P st a) in E4. rewrite E4. unfold u32.
  destruct Hpl as [Z0|[Z1 Z2]].
  - rewrite Z0. rewrite Z.mod_small
      by (unfold sizeof_netlog_log, sizeof_sec_log in *; lia).
    unfold sizeof_netlog_log, sizeof_sec_log in *. lia.
  - rewrite Z1. rewrite Z.mod_small
      by (unfold sizeof_netlog_log, sizeof_sec_log in *; lia).
    unfold sizeof_netlog_log, sizeof_sec_log in *. lia.
Qed.

(** The oldest sequence number never passes the next one. *)
Lemma append_keeps_order (a : append) (st : log_state) :
  valid_append a = true ->
  0 <= log_first_seq st <= log_next_seq st -> log_next_seq st < 2 ^ 64 - 1 ->
  let st' := do_append P st a in
  log_first_seq st <= log_first_seq st' <= log_next_seq st /\
  log_next_seq st' = log_next_seq st + 1.
Proof.
  intros Hv H0 H1. cbv zeta.
  destruct (do_append_effect P W a st Hv) as (E1 & _ & E3 & _).
  rewrite place_first_seq in E1.
  pose proof (drop_old_seq P (Z.to_nat (log_next_seq st - log_first_seq st))
                (align_size (record_size P a)) st H0 ltac:(lia)) as D.
  fold (after_loop P (record_size P a) st) in D.
  assert (N : log_next_seq (find_new_record_place P (record_size P a) st)
              = log_next_seq st).
  { unfold find_new_record_place. cbv zeta.
    destruct (drop_old_keeps P (Z.to_nat (log_next_seq st - log_first_seq st))
                (align_size (record_size P a)) st) as (_ & K & _).
    match goal with |- context [if ?b then _ else _] => destruct b end;
      cbn [log_next_seq with_next with_buf]; try exact K; reflexivity. }
  rewrite E1, E3, N. unfold u64. rewrite Z.mod_small by lia. lia.
Qed.

End Invariants.

(** *** Rendering a network record *)

Lemma read_prefix_write (m : mem) (o : Z) (s t : list Z) :
  read_bytes (write_bytes m o (s ++ t)) o (List.length s) = s.
Proof.
  apply nth_ext with (d := 0) (d' := 0).
  - apply read_bytes_length.
  - intros i Hi. rewrite read_bytes_length in Hi.
    rewrite read_bytes_nth by exact Hi.
    rewrite write_bytes_inside by (rewrite length_app; lia).
    replace (Z.to_nat (o + Z.of_nat i - o)) with i by lia.
    apply app_nth1. exact Hi.
Qed.

Lemma sprintf_extends (b : mem) (n : Z) (pre s : list Z) :
  0 <= n -> read_bytes b 0 (Z.to_nat n) = pre ->
  read_bytes (sprintf b n s) 0 (Z.to_nat (n + Z.of_nat (List.length s)))
  = pre ++ s.
Proof.
  intros Hn Hpre. unfold sprintf.
  rewrite Z2Nat.inj_add, Nat2Z.id by lia.
  rewrite read_bytes_app. rewrite read_write_other by lia. rewrite Hpre.
  f_equal. replace (0 + Z.of_nat (Z.to_nat n)) with n by lia.
  apply read_prefix_write.
Qed.

Lemma snprintf_fits (b : mem) (at_ size : Z) (s : list Z) :
  Z.of_nat (List.length s) < size -> snprintf b at_ size s = sprintf b at_ s.
Proof.
  intros H. unfold snprintf, sprintf.
  destruct (Z.leb_spec size 0); [lia|].
  rewrite firstn_all2 by lia. reflexivity.
Qed.

Lemma chars_read (m : mem) (n : nat) (at_ : Z) :
  forallb (fun x => negb (x =? 0)) (read_bytes m at_ n) = true ->
  chars m at_ n = read_bytes m at_ n.
Proof.
  revert at_. induction n as [|n IH]; intros at_ H; [reflexivity|].
  cbn [read_bytes forallb] in H. apply andb_true_iff in H. destruct H as [H1 H2].
  cbn [chars read_bytes]. apply negb_true_iff in H1. rewrite H1.
  rewrite IH by exact H2. reflexivity.
Qed.

Lemma contains_app (pre sub post : list Z) :
  contains sub (pre ++ sub ++ post) = true.
Proof.
  assert (S : forall l, starts_with sub (sub ++ l) = true).
  { induction sub as [|x sub IH]; intros l; [destruct l; reflexivity|].
    cbn [app starts_with]. rewrite Z.eqb_refl, IH. reflexivity. }
  induction pre as [|y pre IH]; cbn [app].
  - destruct (sub ++ post) eqn:E; cbn [contains]; rewrite <- E, S; reflexivity.
  - cbn [contains]. rewrite IH. apply orb_true_r.
Qed.

Section Rendering.

Variable P : platform.
Hypothesis W : wf_facts P.

(** The line of a network record that is not cut: the header, the
    details, the path, the text of print_netlog and a new line. *)
Lemma fill_netlog_record (m b : mem) (len0 record : Z) (pre p net : list Z) :
  load 4 m (record + off_type P) = LOG_NETWORK_INTERACTION P ->
  sizeof_netlog_log P <= load 8 m (record + off_len) ->
  (forall size,
      precision_chars m (get_netlog_path P record)
        (to_int (load 8 m (record + off_net_path_len P))) size = p) ->
  netlog_text_of P m record = Some net ->
  0 <= len0 -> read_bytes b 0 (Z.to_nat len0) = pre ->
  let det := details_text_of P m record in
  let total := len0 + Z.of_nat (List.length det) + 1 + Z.of_nat (List.length p)
               + 1 + Z.of_nat (List.length net) in
  total < USER_BUFFER_SIZE P ->
  let r := secure_log_read_fill_record P m b len0 record in
  snd r = total + 1 /\
  read_bytes (fst r) 0 (Z.to_nat (total + 1))
  = pre ++ det ++ text " " ++ p ++ text " " ++ net ++ [10].
Proof.
  intros Htype Hlen Hpath Hnet Hlen0 Hpre det total Hfit.
  pose proof (wf_user P W) as HU.
  assert (U : forall x, 0 <= x < 2 ^ 31 -> u64 x = x)
    by (intros x Hx; unfold u64; apply Z.mod_small; lia).
  unfold secure_log_read_fill_record. cbv zeta. fold det.
  rewrite Htype, Z.eqb_refl.
  set (s1 := det ++ text " ").
  assert (L1 : Z.of_nat (List.length s1) = Z.of_nat (List.length det) + 1).
  { unfold s1. rewrite length_app. cbn [text List.length map list_ascii_of_string]. lia. }
  set (b1 := sprintf b len0 s1).
  assert (R1 : read_bytes b1 0 (Z.to_nat (len0 + Z.of_nat (List.length s1)))
               = pre ++ s1) by (apply sprintf_extends; assumption).
  rewrite (U (len0 + Z.of_nat (List.length s1))) by lia.
  set (len1 := len0 + Z.of_nat (List.length s1)) in *.
  unfold netlog_print. cbv zeta.
  destruct (Z.ltb_spec (load 8 m (record + off_len)) (sizeof_netlog_log P)); [lia|].
  rewrite Hpath, Hnet.
  rewrite (U (USER_BUFFER_SIZE P - len1)) by lia.
  set (s2 := p ++ text " ").
  assert (L2 : Z.of_nat (List.length s2) = Z.of_nat (List.length p) + 1).
  { unfold s2. rewrite length_app. cbn [text List.length map list_ascii_of_string]. lia. }
  unfold UPDATE_POINTERS.
  destruct (Z.leb_spec (USER_BUFFER_SIZE P - len1) (Z.of_nat (List.length s2)));
    [unfold total in Hfit; lia|].
  rewrite (U (len1 + Z.of_nat (List.length s2))) by (unfold total in Hfit; lia).
  rewrite (U (USER_BUFFER_SIZE P - len1 - Z.of_nat (List.length s2)))
    by (unfold total in Hfit; lia).
  rewrite snprintf_fits by lia.
  set (b2 := sprintf b1 len1 s2).
  assert (R2 : read_bytes b2 0 (Z.to_nat (len1 + Z.of_nat (List.length s2)))
               = (pre ++ s1) ++ s2) by (apply sprintf_extends; [lia | assumption]).
  set (len2 := len1 + Z.of_nat (List.length s2)) in *.
  destruct (Z.leb_spec (USER_BUFFER_SIZE P - len1 - Z.of_nat (List.length s2))
              (Z.of_nat (List.length net)));
    [unfold total, len2 in *; lia|].
  rewrite (U (len2 + Z.of_nat (List.length net)))
    by (unfold total, len2 in *; lia).
  rewrite snprintf_fits by lia.
  set (b3 := sprintf b2 len2 net).
  assert (R3 : read_bytes b3 0 (Z.to_nat (len2 + Z.of_nat (List.length net)))
               = ((pre ++ s1) ++ s2) ++ net)
    by (apply sprintf_extends; [unfold len2; lia | assumption]).
  set (len3 := len2 + Z.of_nat (List.length net)) in *.
  assert (E3 : len3 = total) by (unfold len3, len2, len1, total; lia).
  destruct (Z.eqb_spec len3 0); [lia|].
  cbn [fst snd]. rewrite (U (len3 + 1)) by lia.
  split; [lia|]. rewrite <- E3.
  assert (R4 := sprintf_extends b3 len3 (((pre ++ s1) ++ s2) ++ net)
                  (text (String "010"%char EmptyString)) ltac:(lia) R3).
  change (Z.of_nat (List.length (text (String "010"%char EmptyString))))
    with 1 in R4.
  etransitivity; [exact R4|].
  unfold s1, s2. rewrite <- !app_assoc. reflexivity.
Qed.

(** The read that delivers a network record whose line is not cut. *)
Lemma read_netlog_line (st : log_state) (d : user_data) (nonblock : bool)
      (count : Z) (p net : list Z) :
  let m := log_buf st in
  let record := log_curr_idx d in
  load 4 m (record + off_type P) = LOG_NETWORK_INTERACTION P ->
  sizeof_netlog_log P <= load 8 m (record + off_len) ->
  (forall size,
      precision_chars m (get_netlog_path P record)
        (to_int (load 8 m (record + off_net_path_len P))) size = p) ->
  netlog_text_of P m record = Some net ->
  log_curr_seq d <> log_next_seq st ->
  log_first_seq st <= log_curr_seq d ->
  let line := line_header P m record (simple_format d)
              ++ details_text_of P m record ++ text " " ++ p ++ text " "
              ++ net ++ [10] in
  Z.of_nat (List.length line) <= USER_BUFFER_SIZE P ->
  Z.of_nat (List.length line) <= count ->
  fst (secure_log_read P st d nonblock count true)
  = Returns (Z.of_nat (List.length line)) line.
Proof.
  intros m record Htype Hlen Hpath Hnet Hseq Hfirst line Hfit Hcount.
  pose proof (buffer_facts P W) as F.
  unfold secure_log_read.
  destruct (Z.eqb_spec (log_curr_seq d) (log_next_seq st)); [lia|].
  destruct (Z.ltb_spec (log_curr_seq d) (log_first_seq st)); [lia|].
  unfold deliver. cbv zeta. fold m. fold record.
  destruct (Z.eqb_spec (load 8 m (record + off_len)) 0) as [E0|_].
  { unfold sizeof_netlog_log, sizeof_sec_log in Hlen. lia. }
  set (h := line_header P m record (simple_format d)).
  set (b0 := sprintf (buf d) 0 h).
  assert (R0 : read_bytes b0 0 (Z.to_nat (Z.of_nat (List.length h))) = h).
  { apply (sprintf_extends (buf d) 0 [] h); [lia | reflexivity]. }
  assert (L : Z.of_nat (List.length line)
              = Z.of_nat (List.length h)
                + Z.of_nat (List.length (details_text_of P m record)) + 1
                + Z.of_nat (List.length p) + 1 + Z.of_nat (List.length net) + 1).
  { unfold line. fold h. rewrite !length_app.
    cbn [text List.length map list_ascii_of_string]. lia. }
  destruct (fill_netlog_record m b0 (Z.of_nat (List.length h)) record h p net
              Htype Hlen Hpath Hnet ltac:(lia) R0 ltac:(lia)) as [S1 S2].
  destruct (secure_log_read_fill_record P m b0 (Z.of_nat (List.length h)) record)
    as [b1 len1].
  cbn [fst snd] in S1, S2. subst len1. rewrite <- L in *.
  destruct (Z.ltb_spec count (Z.of_nat (List.length line))); [lia|].
  cbn [negb fst buf with_cursor with_user_buf]. rewrite S2. reflexivity.
Qed.

End Rendering.

Lemma forallb_firstn {A : Type} (f : A -> bool) (n : nat) (l : list A) :
  forallb f l = true -> forallb f (firstn n l) = true.
Proof.
  revert n. induction l as [|x l IH]; intros n H.
  - rewrite firstn_nil. reflexivity.
  - destruct n as [|n]; [reflexivity|].
    cbn [forallb] in H. apply andb_true_iff in H. destruct H as [H1 H2].
    cbn [firstn forallb]. rewrite H1, IH by exact H2. reflexivity.
Qed.

Lemma to_int_small (x : Z) : 0 <= x < 2 ^ 31 -> to_int x = x.
Proof.
  intros H. unfold to_int. rewrite Z.mod_small by lia. lia.
Qed.

(** C8, as the code has it: a path longer than LOG_BUF_LEN >> 4 is
    stored without any error, with LOG_BUF_LEN >> 4 in path_len; when
    the whole line fits in the session buffer and in the buffer of the
    caller, the read at the record returns the line whose path field is
    the path cut to that length.  A line longer than the session buffer
    is cut itself. *)
Theorem truncated_path_rendered (P : platform) (cur path : list Z)
        (action protocol family : Z) (src_ip : option (list Z)) (src_port : Z)
        (dst_ip : option (list Z)) (dst_port : Z) (st : log_state)
        (d : user_data) (nonblock : bool) (count : Z) (net : list Z) :
  wf_platform P = true ->
  forallb (fun x => negb (x =? 0)) path = true ->
  Z.shiftr (LOG_BUF_LEN P) 4 < Z.of_nat (List.length path) + 1 < 2 ^ 64 ->
  let cap := Z.shiftr (LOG_BUF_LEN P) 4 in
  let st' := store_netlog_record P cur path action protocol family
               src_ip src_port dst_ip dst_port st in
  let record := log_next_idx (find_new_record_place P (netlog_record_size P path) st) in
  log_curr_idx d = record ->
  log_curr_seq d <> log_next_seq st' ->
  log_first_seq st' <= log_curr_seq d ->
  netlog_text_of P (log_buf st') record = Some net ->
  let line := line_header P (log_buf st') record (simple_format d)
              ++ details_text_of P (log_buf st') record ++ text " "
              ++ firstn (Z.to_nat cap) path ++ text " " ++ net ++ [10] in
  Z.of_nat (List.length line) <= USER_BUFFER_SIZE P ->
  Z.of_nat (List.length line) <= count ->
  load 8 (log_buf st') (record + off_net_path_len P) = cap /\
  fst (secure_log_read P st' d nonblock count true)
  = Returns (Z.of_nat (List.length line)) line /\
  contains (firstn (Z.to_nat cap) path) line = true.
Proof.
  intros Hwf Hnz Hlong cap st' record Hidx Hseq Hfirst Hnet line Hfit Hcount.
  pose proof (wf_platform_facts P Hwf) as W.
  pose proof (buffer_facts P W) as F.
  assert (Hcap : cap = LOG_BUF_LEN P / 16).
  { unfold cap. rewrite Z.shiftr_div_pow2 by lia. reflexivity. }
  assert (Hcap' : 0 <= cap < 2 ^ 31).
  { pose proof (Z.div_mod (LOG_BUF_LEN P) 16 ltac:(lia)).
    pose proof (Z.mod_pos_bound (LOG_BUF_LEN P) 16 ltac:(lia)). lia. }
  assert (Hpl : netlog_path_len P path = cap).
  { unfold netlog_path_len, capped, INT_MAX. fold cap.
    unfold u64. rewrite Z.mod_small by lia.
    destruct (Z.ltb_spec cap (Z.of_nat (List.length path) + 1)); [|lia].
    cbn [orb]. lia. }
  assert (Hpath_len : load 8 (log_buf st') (record + off_net_path_len P) = cap).
  { unfold st', store_netlog_record. cbn [log_buf with_next with_buf].
    rewrite netlog_path_len_field by apply (wf_details P W).
    rewrite Hpl. apply Z.mod_small. lia. }
  split; [exact Hpath_len|].
  assert (Hbytes : read_bytes (log_buf st') (get_netlog_path P record) (Z.to_nat cap)
                   = firstn (Z.to_nat cap) path).
  { assert (E : firstn (Z.to_nat cap) (path ++ [0]) = firstn (Z.to_nat cap) path).
    { rewrite firstn_app.
      replace (Z.to_nat cap - List.length path)%nat with 0%nat by lia.
      cbn [firstn]. apply app_nil_r. }
    assert (L : List.length (firstn (Z.to_nat cap) (path ++ [0])) = Z.to_nat cap).
    { rewrite E. apply firstn_length_le. lia. }
    unfold st', store_netlog_record. cbn [log_buf with_next with_buf].
    rewrite <- L at 1. rewrite Hpl.
    etransitivity; [apply netlog_path_bytes | exact E]. }
  split.
  - pose proof (read_netlog_line P W st' d nonblock count
                  (firstn (Z.to_nat cap) path) net) as R.
    cbv zeta in R. rewrite Hidx in R. apply R; try assumption.
    + unfold st', store_netlog_record. cbn [log_buf with_next with_buf].
      rewrite netlog_type_field by apply (wf_details P W).
      apply Z.mod_small. apply (wf_net P W).
    + unfold st', record.
      rewrite stored_netlog_len by exact W. rewrite Hpl. lia.
    + intros size. unfold precision_chars. rewrite Hpath_len.
      rewrite to_int_small by exact Hcap'.
      destruct (Z.ltb_spec cap 0); [lia|].
      rewrite chars_read; rewrite Hbytes; [reflexivity|].
      apply forallb_firstn. exact Hnz.
  - unfold line. rewrite !app_assoc. rewrite <- !app_assoc.
    rewrite (app_assoc (line_header P (log_buf st') record (simple_format d))).
    rewrite (app_assoc _ (text " ")).
    apply contains_app.
Qed.

Lemma truncated_path_rendered_witness :
  let st' := do_append roomy initial long_record in
  let line := text "netlog [    0.000000]: pid " ++ repeat 97 32
              ++ text " 1 -> 443" ++ [10] in
  load 8 (log_buf st') (0 + off_net_path_len roomy) = 32 /\
  fst (secure_log_read roomy st' demo_session true 100 true) = Returns 69 line /\
  contains (repeat 97 32) line = true.
Proof.
  exact (truncated_path_rendered roomy [1; 0; 0; 0; 0; 0; 0; 0] long_path 1 2
           AF_INET (Some [10; 0; 0; 1]) 1 None 443 initial demo_session true 100
           (text "1 -> 443")
           eq_refl eq_refl (conj eq_refl eq_refl) eq_refl
           ltac:(vm_compute; discriminate) ltac:(vm_compute; discriminate)
           eq_refl ltac:(vm_compute; discriminate) ltac:(vm_compute; discriminate)).
Defined.

(** C8, as the specification words it, fails: with session buffers of 64
    bytes and 32 bytes kept of a path, the line of a record whose path
    had 40 bytes is cut to 63 bytes that end in TRUNC and hold 30 bytes
    of the path only. *)
Lemma truncated_path_cut_from_line :
  let st' := do_append demo initial long_record in
  load 8 (log_buf st') (0 + off_net_path_len demo) = 32 /\
  fst (secure_log_read demo st' demo_session true 100 true)
  = Returns 63 (text "netlog [    0.000000]: pid " ++ repeat 97 30
                ++ text "TRUNC" ++ [10]) /\
  contains (firstn 32 long_path)
    (text "netlog [    0.000000]: pid " ++ repeat 97 30 ++ text "TRUNC" ++ [10])
  = false.
Proof.
  vm_compute. repeat split; reflexivity.
Qed.

(** *** Seeking *)




End SecureLogFacts.

(** ** Laws of requests and releases *)

Module ProbesLaws.
Import Probes ProbesFacts.

Lemma plant_block_skip (new_probes p : Z) (plant : call) (s : probe_state) :
  has_bit new_probes p = false -> plant_block new_probes p plant s = (0, s).
Proof.
  intros H. unfold plant_block. rewrite H. reflexivity.
Qed.

Lemma and_then_skip (a b : call) (s : probe_state) :
  a s = (0, s) -> and_then a b s = b s.
Proof.
  intros H. unfold and_then. rewrite H. reflexivity.
Qed.

(** A request that asks for nothing new does nothing. *)
Lemma plant_probe_nothing_new (c : probes_h) (k : hook -> Z) (probe : Z)
      (s : probe_state) :
  wf_facts c ->
  (forall p, In p (categories c) -> has_bit probe p = true ->
             has_bit (loaded_probes s) p = true) ->
  plant_probe c k probe s = (0, s).
Proof.
  intros Hwf H.
  assert (Z0 : forall p, In p (categories c) ->
            has_bit (Z.land (Z.lxor probe (loaded_probes s)) probe) p = false).
  { intros p Hp. rewrite has_bit_new by (apply (wf_range c Hwf); exact Hp).
    specialize (H p Hp). destruct (has_bit probe p); [|reflexivity].
    rewrite H by reflexivity. reflexivity. }
  unfold plant_probe. cbv zeta.
  repeat (rewrite and_then_skip
            by (apply plant_block_skip, Z0; unfold categories; cbn [In]; tauto)).
  apply plant_block_skip, Z0. unfold categories; cbn [In]; tauto.
Qed.

Lemma implb_categories (c : probes_h) (f g : Z -> bool) :
  forallb (fun p => implb (f p) (g p)) (categories c) = true ->
  forall p, In p (categories c) -> f p = true -> g p = true.
Proof.
  intros H p Hp Hf. rewrite forallb_forall in H. specialize (H p Hp).
  rewrite Hf in H. exact H.
Qed.

(** *** The result of plant_probe *)

Section Results.

Variable c : probes_h.
Variable k : hook -> Z.

Lemma plant_pair_result (j r : hook) (failed : Z) (s : probe_state) :
  fst (plant_pair k j r failed s) = 0 \/ fst (plant_pair k j r failed s) = - failed.
Proof.
  unfold plant_pair, plant_jprobe, plant_kretprobe.
  destruct (k j <? 0); [right; reflexivity|].
  destruct (k r <? 0); [right | left]; reflexivity.
Qed.

Lemma plant_tcp_accept_result (s : probe_state) :
  fst (plant_tcp_accept c k s) = 0
  \/ fst (plant_tcp_accept c k s) = - ACCEPT_PROBE_FAILED c.
Proof.
  unfold plant_tcp_accept, plant_kretprobe.
  destruct (k accept_kretprobe <? 0); [right | left]; reflexivity.
Qed.

Lemma plant_close_unless_result (sibling : Z) (s : probe_state) :
  fst (plant_close_unless c k sibling s) = 0
  \/ fst (plant_close_unless c k sibling s) = - CLOSE_PROBE_FAILED c.
Proof.
  unfold plant_close_unless, plant_close, plant_jprobe.
  destruct (has_bit (loaded_probes s) sibling); [left; reflexivity|].
  destruct (k close_jprobe <? 0); [right | left]; reflexivity.
Qed.

Lemma plant_block_result (new_probes p : Z) (plant : call) (s : probe_state) :
  (fst (plant s) = 0 \/ In (fst (plant s)) (failures c)) ->
  fst (plant_block new_probes p plant s) = 0
  \/ In (fst (plant_block new_probes p plant s)) (failures c).
Proof.
  intros H. unfold plant_block.
  destruct (has_bit new_probes p); [|left; reflexivity].
  destruct (plant s) as [err s1]. cbn [fst] in H.
  destruct (Z.eqb_spec err 0); [left; reflexivity|].
  cbn [fst]. exact H.
Qed.

Lemma and_then_result (a b : call) (s : probe_state) :
  (fst (a s) = 0 \/ In (fst (a s)) (failures c)) ->
  (forall s1, fst (b s1) = 0 \/ In (fst (b s1)) (failures c)) ->
  fst (and_then a b s) = 0 \/ In (fst (and_then a b s)) (failures c).
Proof.
  intros Ha Hb. unfold and_then. destruct (a s) as [err s1]. cbn [fst] in Ha.
  destruct (Z.eqb_spec err 0); [apply Hb|]. cbn [fst]. exact Ha.
Qed.

Lemma plant_pair_accepted (j r : hook) (failed : Z) (s : probe_state) :
  (forall h, 0 <= k h) -> fst (plant_pair k j r failed s) = 0.
Proof.
  intros A. unfold plant_pair, plant_jprobe, plant_kretprobe.
  destruct (Z.ltb_spec (k j) 0) as [E|_]; [specialize (A j); lia|].
  destruct (Z.ltb_spec (k r) 0) as [E|_]; [specialize (A r); lia|].
  reflexivity.
Qed.

Lemma plant_close_unless_accepted (sibling : Z) (s : probe_state) :
  (forall h, 0 <= k h) -> fst (plant_close_unless c k sibling s) = 0.
Proof.
  intros A. unfold plant_close_unless, plant_close, plant_jprobe.
  destruct (has_bit (loaded_probes s) sibling); [reflexivity|].
  destruct (Z.ltb_spec (k close_jprobe) 0) as [E|_];
    [specialize (A close_jprobe); lia | reflexivity].
Qed.

Lemma plant_block_accepted (new_probes p : Z) (plant : call) (s : probe_state) :
  fst (plant s) = 0 -> fst (plant_block new_probes p plant s) = 0.
Proof.
  intros H. unfold plant_block.
  destruct (has_bit new_probes p); [|reflexivity].
  destruct (plant s) as [err s1]. cbn [fst] in H. subst err. reflexivity.
Qed.

Lemma and_then_accepted (a b : call) (s : probe_state) :
  fst (a s) = 0 -> (forall s1, fst (b s1) = 0) -> fst (and_then a b s) = 0.
Proof.
  intros Ha Hb. unfold and_then. destruct (a s) as [err s1].
  cbn [fst] in Ha. subst err. apply Hb.
Qed.

End Results.

(** The active categories of a state reached by a successful request. *)
Lemma planted_bits (c : probes_h) (k : hook -> Z) (probe : Z) (s : probe_state)
      (n : Z) :
  wf_facts c -> consistent c s ->
  fst (plant_probe c k probe s) = 0 -> 0 <= n ->
  Z.testbit (loaded_probes (snd (plant_probe c k probe s))) n
  = Z.testbit (loaded_probes s) n
    || (Z.testbit probe n && existsb (Z.eqb n) (categories c)).
Proof.
  intros Hwf Hc Hok Hn.
  destruct (plant_probe_post_holds c k Hwf probe s Hc)
    as (_ & Hkept & _ & Hbound & _ & Hall).
  specialize (Hall Hok).
  destruct (Z.testbit (loaded_probes (snd (plant_probe c k probe s))) n) eqn:E.
  - destruct (Hbound n Hn E) as [H|[H1 H2]].
    + rewrite H. reflexivity.
    + rewrite H1. cbn [andb]. assert (X : existsb (Z.eqb n) (categories c) = true).
      { apply existsb_exists. exists n. split; [exact H2 | apply Z.eqb_refl]. }
      rewrite X. symmetry. apply orb_true_r.
  - destruct (Z.testbit (loaded_probes s) n) eqn:E1.
    { rewrite (Hkept n Hn E1) in E. discriminate. }
    destruct (Z.testbit probe n) eqn:E2; [|reflexivity].
    destruct (existsb (Z.eqb n) (categories c)) eqn:E3; [|reflexivity].
    apply existsb_exists in E3. destruct E3 as (q & Hq & Heq).
    apply Z.eqb_eq in Heq. subst q.
    rewrite <- has_bit_testbit in E, E2 by exact Hn.
    rewrite (Hall n Hq E2) in E. discriminate.
Qed.

(** X1: a request whose categories are all active already returns 0 and
    leaves loaded_probes and every hook as they were, whatever the kernel
    would answer: plant_probe plants the categories of
    [(probe ^ loaded_probes) & probe] only. *)
Theorem plant_probe_active_is_noop (c : probes_h) (register_result : hook -> Z)
        (probe : Z) (s : probe_state) :
  wf_probes_h c = true ->
  forallb (fun p => implb (has_bit probe p) (has_bit (loaded_probes s) p))
          (categories c) = true ->
  plant_probe c register_result probe s = (0, s).
Proof.
  intros Hwf H. apply plant_probe_nothing_new.
  - apply wf_probes_h_facts. exact Hwf.
  - apply (implb_categories c (has_bit probe) (has_bit (loaded_probes s))). exact H.
Qed.

Lemma plant_probe_active_is_noop_witness :
  let s := snd (plant_probe numbering all_registered 5 initial) in
  plant_probe numbering accept_refused 5 s = (0, s).
Proof.
  exact (plant_probe_active_is_noop numbering accept_refused 5
           (snd (plant_probe numbering all_registered 5 initial)) eq_refl eq_refl).
Defined.

(** X2: plant_probe is idempotent: after a request that returned 0, the
    same request returns 0 again and changes nothing, even when the
    kernel would now refuse every registration. *)
Theorem plant_probe_twice (c : probes_h) (first second : hook -> Z)
        (probe : Z) (s : probe_state) :
  wf_probes_h c = true ->
  consistent c s ->
  fst (plant_probe c first probe s) = 0 ->
  plant_probe c second probe (snd (plant_probe c first probe s))
  = (0, snd (plant_probe c first probe s)).
Proof.
  intros Hwf0 Hc Hok. pose proof (wf_probes_h_facts c Hwf0) as Hwf.
  apply plant_probe_nothing_new; [exact Hwf|].
  destruct (plant_probe_post_holds c first Hwf probe s Hc)
    as (_ & _ & _ & _ & _ & Hall).
  exact (Hall Hok).
Qed.

Lemma plant_probe_twice_witness :
  let s := snd (plant_probe numbering all_registered 63 initial) in
  plant_probe numbering (fun _ => -22) 63 s = (0, s).
Proof.
  exact (plant_probe_twice numbering all_registered (fun _ => -22) 63 initial
           eq_refl (initial_consistent numbering (wf_probes_h_facts numbering eq_refl))
           eq_refl).
Defined.

(** X3: plant_probe returns 0 or the negated code of the planter that
    failed, -CONNECT_PROBE_FAILED, -ACCEPT_PROBE_FAILED,
    -CLOSE_PROBE_FAILED or -BIND_PROBE_FAILED: the value the kernel gave
    to the failed registration is not passed on. *)
Theorem plant_probe_returns_failure_code (c : probes_h)
        (register_result : hook -> Z) (probe : Z) (s : probe_state) :
  fst (plant_probe c register_result probe s) = 0
  \/ In (fst (plant_probe c register_result probe s)) (failures c).
Proof.
  assert (Pair : forall j r failed s1, In (- failed) (failures c) ->
            fst (plant_pair register_result j r failed s1) = 0
            \/ In (fst (plant_pair register_result j r failed s1)) (failures c)).
  { intros j r failed s1 Hin.
    destruct (plant_pair_result register_result j r failed s1) as [E|E];
      [left; exact E | right; rewrite E; exact Hin]. }
  assert (Close : forall sibling s1,
            fst (plant_close_unless c register_result sibling s1) = 0
            \/ In (fst (plant_close_unless c register_result sibling s1)) (failures c)).
  { intros sibling s1.
    destruct (plant_close_unless_result c register_result sibling s1) as [E|E];
      [left; exact E | right; rewrite E; unfold failures; cbn [In]; tauto]. }
  unfold plant_probe. cbv zeta.
  repeat (apply and_then_result; [|intros ?]); apply plant_block_result.
  - apply Pair. unfold failures; cbn [In]; tauto.
  - match goal with
    | |- fst (plant_tcp_accept _ _ ?s1) = 0 \/ _ =>
        destruct (plant_tcp_accept_result c register_result s1) as [E|E];
          [left; exact E | right; rewrite E; unfold failures; cbn [In]; tauto]
    end.
  - apply Close.
  - apply Pair. unfold failures; cbn [In]; tauto.
  - apply Pair. unfold failures; cbn [In]; tauto.
  - apply Close.
Qed.

(** X4: the kernel is the only source of failure: when it accepts every
    registration, plant_probe returns 0 and the active categories are
    those active before together with the requested ones. *)
Theorem plant_probe_accepted (c : probes_h) (register_result : hook -> Z)
        (probe : Z) (s : probe_state) :
  wf_probes_h c = true ->
  consistent c s ->
  (forall h, 0 <= register_result h) ->
  let r := plant_probe c register_result probe s in
  fst r = 0 /\
  forall n, 0 <= n ->
    Z.testbit (loaded_probes (snd r)) n
    = Z.testbit (loaded_probes s) n
      || (Z.testbit probe n && existsb (Z.eqb n) (categories c)).
Proof.
  intros Hwf0 Hc A. pose proof (wf_probes_h_facts c Hwf0) as Hwf. cbv zeta.
  assert (Hok : fst (plant_probe c register_result probe s) = 0).
  { unfold plant_probe. cbv zeta.
    repeat (apply and_then_accepted; [|intros ?]); apply plant_block_accepted.
    - apply plant_pair_accepted. exact A.
    - unfold plant_tcp_accept, plant_kretprobe.
      destruct (Z.ltb_spec (register_result accept_kretprobe) 0) as [E|_];
        [specialize (A accept_kretprobe); lia | reflexivity].
    - apply plant_close_unless_accepted. exact A.
    - apply plant_pair_accepted. exact A.
    - apply plant_pair_accepted. exact A.
    - apply plant_close_unless_accepted. exact A. }
  split; [exact Hok|]. intros n Hn. apply planted_bits; assumption.
Qed.

Lemma plant_probe_accepted_witness :
  let r := plant_probe numbering all_registered 36 initial in
  fst r = 0 /\ loaded_probes (snd r) = 36.
Proof.
  pose proof (plant_probe_accepted numbering all_registered 36 initial eq_refl
                (initial_consistent numbering (wf_probes_h_facts numbering eq_refl))
                (fun h => Z.le_refl 0)) as H.
  cbv zeta in H. destruct H as [H _].
  split; [exact H | reflexivity].
Defined.

(** X5: a request followed by the release of the same mask gives back
    the state before the request, when none of the bits of the mask was
    active: loaded_probes and the registered hooks are as before. *)
Theorem plant_then_unplant_restores (c : probes_h) (register_result : hook -> Z)
        (probe : Z) (s : probe_state) :
  wf_probes_h c = true ->
  consistent c s ->
  Z.land (loaded_probes s) probe = 0 ->
  fst (plant_probe c register_result probe s) = 0 ->
  let s' := unplant_probe c probe (snd (plant_probe c register_result probe s)) in
  loaded_probes s' = loaded_probes s /\
  forall h, registered s' h = registered s h.
Proof.
  intros Hwf0 Hc Hnone Hok. pose proof (wf_probes_h_facts c Hwf0) as Hwf.
  cbv zeta. unfold unplant_probe.
  set (s1 := snd (plant_probe c register_result probe s)).
  assert (Hc1 : consistent c s1).
  { destruct (plant_probe_post_holds c register_result Hwf probe s Hc) as (H & _).
    exact H. }
  assert (L : loaded_probes (unplant_probe_locked c probe s1) = loaded_probes s).
  { rewrite unplant_loaded. apply Z.bits_inj'. intros n Hn.
    rewrite Z.lxor_spec, Z.land_spec. unfold s1.
    rewrite (planted_bits c register_result probe s n Hwf Hc Hok Hn).
    assert (E : Z.testbit (loaded_probes s) n && Z.testbit probe n = false).
    { rewrite <- Z.land_spec, Hnone. apply Z.bits_0. }
    destruct (Z.testbit (loaded_probes s) n), (Z.testbit probe n),
      (existsb (Z.eqb n) (categories c)); cbn in *; congruence. }
  split; [exact L|]. intros h.
  rewrite (unplant_consistent c Hwf probe s1 Hc1 h), L. symmetry. apply Hc.
Qed.

Lemma plant_then_unplant_restores_witness :
  let s := snd (plant_probe numbering all_registered 4 initial) in
  let s' := unplant_probe numbering 32 (snd (plant_probe numbering all_registered 32 s)) in
  loaded_probes s' = 4 /\ registered s' close_jprobe = true.
Proof.
  set (s := snd (plant_probe numbering all_registered 4 initial)).
  assert (Hc : consistent numbering s).
  { destruct (plant_probe_post_holds numbering all_registered
                (wf_probes_h_facts numbering eq_refl) 4 initial
                (initial_consistent numbering (wf_probes_h_facts numbering eq_refl)))
      as (H & _). exact H. }
  pose proof (plant_then_unplant_restores numbering all_registered 32 s
                eq_refl Hc eq_refl eq_refl) as H.
  cbv zeta in H. destruct H as [H1 H2].
  split; [exact H1 | exact (H2 close_jprobe)].
Defined.

(** X6: unplant_all, whose mask is (1 << (PROBES_NUMBER + 1)) - 1, leaves
    no category active and no hook registered, when the bit numbers of
    the categories do not pass PROBES_NUMBER. *)
Theorem unplant_all_clears (c : probes_h) (s : probe_state) :
  wf_probes_h c = true ->
  forallb (fun p => p <=? PROBES_NUMBER c) (categories c) = true ->
  (PROBES_NUMBER c <? 30) = true ->
  consistent c s ->
  let s' := unplant_all c s in
  (forall p, In p (categories c) -> has_bit (loaded_probes s') p = false) /\
  (forall h, registered s' h = false).
Proof.
  intros Hwf0 Hle _ Hc. pose proof (wf_probes_h_facts c Hwf0) as Hwf. cbv zeta.
  unfold unplant_all, unplant_probe.
  set (mask := Z.shiftl 1 (PROBES_NUMBER c + 1) - 1).
  assert (M : forall p, In p (categories c) -> has_bit mask p = true).
  { intros p Hp. pose proof (wf_range c Hwf p Hp) as R.
    rewrite forallb_forall in Hle. specialize (Hle p Hp). apply Z.leb_le in Hle.
    rewrite has_bit_testbit by lia.
    replace mask with (Z.ones (PROBES_NUMBER c + 1))
      by (unfold mask, Z.ones; lia).
    apply Z.ones_spec_low. lia. }
  assert (B : forall p, In p (categories c) ->
            has_bit (loaded_probes (unplant_probe_locked c mask s)) p = false).
  { intros p Hp. pose proof (wf_range c Hwf p Hp) as R.
    rewrite unplant_loaded, has_bit_removed, (M p Hp) by lia.
    apply andb_false_r. }
  split; [exact B|]. intros h.
  rewrite (unplant_consistent c Hwf mask s Hc h).
  destruct h; cbn [needed]; rewrite ?B by (unfold categories; cbn [In]; tauto);
    reflexivity.
Qed.

Lemma unplant_all_clears_witness :
  let s' := unplant_all numbering (snd (plant_probe numbering all_registered 63 initial)) in
  (forall p, In p (categories numbering) -> has_bit (loaded_probes s') p = false) /\
  (forall h, registered s' h = false).
Proof.
  assert (Hc : consistent numbering (snd (plant_probe numbering all_registered 63 initial))).
  { destruct (plant_probe_post_holds numbering all_registered
                (wf_probes_h_facts numbering eq_refl) 63 initial
                (initial_consistent numbering (wf_probes_h_facts numbering eq_refl)))
      as (H & _). exact H. }
  exact (unplant_all_clears numbering
           (snd (plant_probe numbering all_registered 63 initial))
           eq_refl eq_refl eq_refl Hc).
Defined.

Lemma serve_invariant (c : probes_h) (r : request) (s : probe_state) :
  wf_facts c ->
  consistent c s /\
  (forall n, 0 <= n -> Z.testbit (loaded_probes s) n = true -> In n (categories c)) ->
  consistent c (serve c s r) /\
  (forall n, 0 <= n -> Z.testbit (loaded_probes (serve c s r)) n = true ->
             In n (categories c)).
Proof.
  intros Hwf [Hc Hb].
  assert (U : forall probe,
            consistent c (unplant_probe_locked c probe s) /\
            (forall n, 0 <= n ->
               Z.testbit (loaded_probes (unplant_probe_locked c probe s)) n = true ->
               In n (categories c))).
  { intros probe. split; [apply unplant_consistent; assumption|].
    intros n Hn. rewrite unplant_loaded, Z.lxor_spec, Z.land_spec.
    intros E. apply (Hb n Hn).
    destruct (Z.testbit (loaded_probes s) n); [reflexivity|discriminate]. }
  destruct r as [probe k|probe|]; cbn [serve].
  - destruct (plant_probe_post_holds c k Hwf probe s Hc)
      as (H1 & _ & _ & Hbound & _).
    split; [exact H1|]. intros n Hn E.
    destruct (Hbound n Hn E) as [H|[_ H]]; [apply (Hb n Hn H) | exact H].
  - apply U.
  - apply U.
Qed.

(** X7: whatever requests and releases the module has served since it was
    loaded, and whatever the kernel answered, the registered hooks are
    exactly those the active categories need (the close hook is
    registered when TCP_CLOSE or UDP_CLOSE is active, each other hook
    when its category is) and loaded_probes holds bits of categories
    only. *)
Theorem served_requests_keep_hooks (c : probes_h) (l : list request) :
  wf_probes_h c = true ->
  let s := serve_all c l initial in
  (forall h, registered s h = needed c (loaded_probes s) h) /\
  (forall n, 0 <= n -> Z.testbit (loaded_probes s) n = true -> In n (categories c)).
Proof.
  intros Hwf0. pose proof (wf_probes_h_facts c Hwf0) as Hwf. cbv zeta.
  unfold serve_all.
  assert (G : forall s,
            consistent c s /\
            (forall n, 0 <= n -> Z.testbit (loaded_probes s) n = true ->
                       In n (categories c)) ->
            consistent c (fold_left (serve c) l s) /\
            (forall n, 0 <= n ->
               Z.testbit (loaded_probes (fold_left (serve c) l s)) n = true ->
               In n (categories c))).
  { induction l as [|r l IH]; intros s H; [exact H|].
    cbn [fold_left]. apply IH. apply serve_invariant; assumption. }
  apply G. split; [apply initial_consistent; exact Hwf|].
  intros n Hn. cbn [initial loaded_probes]. rewrite Z.bits_0. discriminate.
Qed.

Lemma served_requests_keep_hooks_witness :
  let s := serve_all numbering
             [Plant 63 bind_refused; Unplant 4; Plant 16 all_registered; UnplantAll]
             initial in
  (forall h, registered s h = needed numbering (loaded_probes s) h) /\
  (forall n, 0 <= n -> Z.testbit (loaded_probes s) n = true ->
             In n (categories numbering)).
Proof.
  exact (served_requests_keep_hooks numbering
           [Plant 63 bind_refused; Unplant 4; Plant 16 all_registered; UnplantAll]
           eq_refl).
Defined.

(** X8: probe_status follows requests and releases: right after the
    release of a mask it returns 0 for that mask, and right after a
    request that returned 0 it returns 1 for every mask that holds a
    requested category. *)
Theorem probe_status_follows (c : probes_h) (register_result : hook -> Z)
        (probe mask p : Z) (s : probe_state) :
  wf_probes_h c = true ->
  consistent c s ->
  In p (categories c) ->
  has_bit probe p = true ->
  has_bit mask p = true ->
  probe_status probe (unplant_probe c probe s) = 0 /\
  (fst (plant_probe c register_result probe s) = 0 ->
   probe_status mask (snd (plant_probe c register_result probe s)) = 1).
Proof.
  intros Hwf0 Hc Hp Hprobe Hmask. pose proof (wf_probes_h_facts c Hwf0) as Hwf.
  pose proof (wf_range c Hwf p Hp) as R.
  split.
  - unfold probe_status, unplant_probe. rewrite unplant_loaded.
    assert (E : Z.land probe
                  (Z.lxor (loaded_probes s) (Z.land (loaded_probes s) probe)) = 0).
    { apply Z.bits_inj'. intros n Hn.
      rewrite Z.land_spec, Z.lxor_spec, Z.land_spec, Z.bits_0.
      destruct (Z.testbit probe n), (Z.testbit (loaded_probes s) n); reflexivity. }
    rewrite E. reflexivity.
  - intros Hok. unfold probe_status.
    destruct (plant_probe_post_holds c register_result Hwf probe s Hc)
      as (_ & _ & _ & _ & _ & Hall).
    specialize (Hall Hok p Hp Hprobe).
    set (s1 := snd (plant_probe c register_result probe s)) in *.
    destruct (Z.eqb_spec (Z.land mask (loaded_probes s1)) 0) as [E|_]; [|reflexivity].
    rewrite has_bit_testbit in Hall, Hmask by lia.
    assert (X : Z.testbit (Z.land mask (loaded_probes s1)) p = true)
      by (rewrite Z.land_spec, Hall, Hmask; reflexivity).
    rewrite E, Z.bits_0 in X. discriminate.
Qed.

Lemma probe_status_follows_witness :
  probe_status 3 (unplant_probe numbering 3 initial) = 0 /\
  probe_status 7 (snd (plant_probe numbering all_registered 3 initial)) = 1.
Proof.
  destruct (probe_status_follows numbering all_registered 3 7 1 initial eq_refl
              (initial_consistent numbering (wf_probes_h_facts numbering eq_refl))
              (or_intror (or_introl eq_refl)) eq_refl eq_refl) as [H1 H2].
  split; [exact H1 | exact (H2 eq_refl)].
Defined.

End ProbesLaws.

(** ** Facts on the handlers of the network probes *)

Module NetlogProbesFacts.
Import NetlogProbes.

Section Handlers.

Variable c : Probes.probes_h.
Variable N : netlog_h.
Variable P : SecureLog.platform.

Lemma log_if_not_whitelisted_cases (K : kernel) (s : sock) (protocol action : Z)
      (lg : SecureLog.log_state) :
  log_if_not_whitelisted N P K s protocol action lg = lg
  \/ logged N P K s protocol action lg
       (log_if_not_whitelisted N P K s protocol action lg).
Proof.
  unfold log_if_not_whitelisted, logged. cbv zeta.
  destruct (path_from_mm (mm (current K)) (MAX_EXEC_PATH N)) as [path|];
    [|left; reflexivity].
  destruct (WHITELISTING N
            && is_whitelisted N path (sk_family s) (dst_ip_of s) (ntohs (DPORT s)))
    eqn:E; [left; reflexivity|].
  right. exists path. split; [reflexivity|]. split; [exact E | reflexivity].
Qed.

(** What log_inet does: nothing but to the log, and to the log what
    log_if_not_whitelisted does for a struct sock that passes the
    test. *)
Lemma log_inet_cases (K : kernel) (sock ipproto protocol action : Z) (st : state) :
  match_socket (log_inet N P K sock ipproto protocol action st) = match_socket st /\
  probes (log_inet N P K sock ipproto protocol action st) = probes st /\
  held (log_inet N P K sock ipproto protocol action st) = held st /\
  (log (log_inet N P K sock ipproto protocol action st) = log st
   \/ exists s,
        sk (socket_at K sock) = Some s /\ is_inet s = true /\
        sk_protocol s = ipproto /\
        logged N P K s protocol action (log st)
          (log (log_inet N P K sock ipproto protocol action st))).
Proof.
  unfold log_inet. destruct (sk (socket_at K sock)) as [s|]; [|auto].
  destruct (is_inet s && (sk_protocol s =? ipproto)) eqn:E; [|auto].
  apply andb_true_iff in E. destruct E as [E1 E2]. apply Z.eqb_eq in E2.
  cbn [match_socket probes held log with_log].
  repeat (split; [reflexivity|]).
  destruct (log_if_not_whitelisted_cases K s protocol action (log st)) as [H|H];
    [left; exact H|].
  right. exists s. auto.
Qed.

(** A handler writes the slot of its own task only, and never
    loaded_probes. *)
Lemma handle_other_slot (st : state) (e : kernel * event) (p : Z) :
  pid (current (fst e)) <> p ->
  match_socket (handle c N P st e) p = match_socket st p.
Proof.
  intros Hp. destruct e as [K e]. cbn [fst] in Hp.
  assert (S : forall v st0, match_socket (set_match (pid (current K)) v st0) p
                            = match_socket st0 p).
  { intros v st0. cbn [match_socket set_match].
    destruct (Z.eqb_spec p (pid (current K))); [congruence | reflexivity]. }
  assert (L : forall sock i pr a st0,
            match_socket (log_inet N P K sock i pr a st0) = match_socket st0).
  { intros. apply log_inet_cases. }
  destruct e; cbn [handle fst snd];
    unfold pre_inet_stream_connect, post_inet_stream_connect,
      pre_inet_dgram_connect, post_inet_dgram_connect, post_sys_accept,
      pre_sys_close, post_sys_bind, pre_sys_bind; cbv zeta;
    rewrite ?S;
    repeat match goal with
           | |- context [if ?b then _ else _] => destruct b
           | |- context [match sk ?x with _ => _ end] => destruct (sk x)
           end;
    cbn [match_socket sockfd_put get with_log]; rewrite ?S, ?L;
    cbn [match_socket sockfd_put get with_log]; reflexivity.
Qed.

Lemma handle_all_other_slot (l : list (kernel * event)) (st : state) (p : Z) :
  others p l = true ->
  match_socket (handle_all c N P l st) p = match_socket st p.
Proof.
  unfold handle_all, others. revert st.
  induction l as [|e l IH]; intros st H; [reflexivity|].
  cbn [forallb] in H. apply andb_true_iff in H. destruct H as [H1 H2].
  cbn [fold_left]. rewrite IH by exact H2.
  apply handle_other_slot. apply negb_true_iff, Z.eqb_neq in H1. exact H1.
Qed.

Lemma slot_cleared (p : Z) (st : state) :
  match_socket (set_match p NULL st) p = NULL.
Proof.
  cbn [match_socket set_match]. rewrite Z.eqb_refl. reflexivity.
Qed.

End Handlers.

(** X9: the socket a task leaves in match_socket at the entry of
    inet_stream_connect is the one the exit handler of the same task
    finds, whatever handlers other tasks run in between; the exit
    handler logs it as the kernel shows it at the exit and empties the
    slot. *)
Theorem connect_exit_finds_entry_socket (c : Probes.probes_h) (N : netlog_h)
        (P : SecureLog.platform) (K K' : kernel) (sock : Z)
        (l : list (kernel * event)) (st : state) :
  pid (current K') = pid (current K) ->
  others (pid (current K)) l = true ->
  let st1 := handle_all c N P l (pre_inet_stream_connect K sock st) in
  let st2 := post_inet_stream_connect N P K' st1 in
  match_socket st1 (pid (current K)) = sock /\
  log st2
  = log (if sock =? NULL then st1
         else log_inet N P K' sock IPPROTO_TCP (PROTO_TCP N) (ACTION_CONNECT N) st1) /\
  match_socket st2 (pid (current K)) = NULL.
Proof.
  intros Hpid Ho. cbv zeta.
  assert (E : match_socket (handle_all c N P l (pre_inet_stream_connect K sock st))
                (pid (current K)) = sock).
  { rewrite handle_all_other_slot by exact Ho.
    unfold pre_inet_stream_connect. cbn [match_socket set_match].
    rewrite Z.eqb_refl. reflexivity. }
  split; [exact E|].
  unfold post_inet_stream_connect. cbv zeta. rewrite Hpid, E.
  split; [reflexivity | apply slot_cleared].
Qed.

Lemma connect_exit_finds_entry_socket_witness :
  let st1 := handle_all Probes.numbering headers SecureLog.demo
               [(task 8, Pre_sys_bind 4); (task 8, Post_sys_bind)]
               (pre_inet_stream_connect (task 7) 100 initial) in
  let st2 := post_inet_stream_connect headers SecureLog.demo (task 7) st1 in
  match_socket st1 7 = 100 /\
  SecureLog.log_next_seq (log st2) = 2 /\
  match_socket st2 7 = NULL.
Proof.
  destruct (connect_exit_finds_entry_socket Probes.numbering headers SecureLog.demo
              (task 7) (task 7) 100
              [(task 8, Pre_sys_bind 4); (task 8, Post_sys_bind)] initial
              eq_refl eq_refl) as (H1 & _ & H3).
  split; [exact H1|]. split; [reflexivity | exact H3].
Defined.


(** X11: an exit handler that finds the slot of its task empty logs
    nothing, and each of the three exit handlers that read the table
    leaves the slot empty: between two entries a task is logged at most
    once. *)
Theorem exit_handlers_log_once (c : Probes.probes_h) (N : netlog_h)
        (P : SecureLog.platform) (K K' : kernel) (e1 e2 : event) (st : state) :
  pid (current K') = pid (current K) ->
  In e1 [Post_inet_stream_connect; Post_inet_dgram_connect; Post_sys_bind] ->
  In e2 [Post_inet_stream_connect; Post_inet_dgram_connect; Post_sys_bind] ->
  let st1 := handle c N P st (K, e1) in
  let st2 := handle c N P st1 (K', e2) in
  match_socket st1 (pid (current K)) = NULL /\
  log st2 = log st1 /\
  (forall x, held st2 x = held st1 x).
Proof.
  intros Hpid H1 H2. cbv zeta.
  assert (S1 : match_socket (handle c N P st (K, e1)) (pid (current K)) = NULL).
  { cbn [In] in H1. destruct H1 as [<-|[<-|[<-|[]]]]; cbn [handle fst snd];
      apply slot_cleared. }
  split; [exact S1|].
  set (st1 := handle c N P st (K, e1)) in *.
  cbn [In] in H2. destruct H2 as [<-|[<-|[<-|[]]]]; cbn [handle fst snd];
    unfold post_inet_stream_connect, post_inet_dgram_connect, post_sys_bind;
    cbv zeta; rewrite Hpid, S1; cbn [Z.eqb NULL log held set_match];
    split; reflexivity.
Qed.

Lemma exit_handlers_log_once_witness :
  let st := pre_inet_stream_connect (task 7) 100 initial in
  let st1 := handle Probes.numbering headers SecureLog.demo st
               (task 7, Post_inet_stream_connect) in
  let st2 := handle Probes.numbering headers SecureLog.demo st1
               (task 7, Post_sys_bind) in
  SecureLog.log_next_seq (log st1) = 1 /\ log st2 = log st1.
Proof.
  destruct (exit_handlers_log_once Probes.numbering headers SecureLog.demo
              (task 7) (task 7) Post_inet_stream_connect Post_sys_bind
              (pre_inet_stream_connect (task 7) 100 initial)
              eq_refl (or_introl eq_refl) (or_intror (or_intror (or_introl eq_refl))))
    as (_ & H & _).
  split; [reflexivity | exact H].
Defined.

(** X12: pre_sys_close serves the two close categories from one hook: it
    logs a TCP socket only when TCP_CLOSE is active and the destination
    port is not 0, a UDP socket only when UDP_CLOSE is active and the
    source port is not 0, and nothing else; it never writes match_socket
    and gives back the reference sockfd_lookup took. *)
Theorem close_handler_gated (c : Probes.probes_h) (N : netlog_h)
        (P : SecureLog.platform) (K : kernel) (fd : Z) (st : state) :
  let st' := pre_sys_close c N P K fd st in
  match_socket st' = match_socket st /\
  probes st' = probes st /\
  (forall x, held st' x = held st x) /\
  (log st' = log st
   \/ exists s,
        sockfd_lookup K fd <> NULL /\
        sk (socket_at K (sockfd_lookup K fd)) = Some s /\ is_inet s = true /\
        ((sk_protocol s = IPPROTO_TCP /\ DPORT s <> 0 /\
          has_bit (Probes.loaded_probes (probes st)) (Probes.PROBE_TCP_CLOSE c) = true /\
          logged N P K s (PROTO_TCP N) (ACTION_CLOSE N) (log st) (log st'))
         \/ (sk_protocol s = IPPROTO_UDP /\ SPORT s <> 0 /\
             has_bit (Probes.loaded_probes (probes st)) (Probes.PROBE_UDP_CLOSE c) = true /\
             logged N P K s (PROTO_UDP N) (ACTION_CLOSE N) (log st) (log st')))).
Proof.
  cbv zeta. unfold pre_sys_close. cbv zeta.
  destruct (Z.eqb_spec (sockfd_lookup K fd) NULL) as [E0|E0]; [auto|].
  set (sock := sockfd_lookup K fd) in *.
  assert (B : forall x,
            (if x =? sock then (if x =? sock then held st x + 1 else held st x) - 1
             else (if x =? sock then held st x + 1 else held st x)) = held st x).
  { intros x. destruct (x =? sock); lia. }
  destruct (sk (socket_at K sock)) as [s|];
    [|cbn [match_socket probes held log sockfd_put get]; auto].
  destruct (is_inet s) eqn:I1; cbn [negb];
    [|cbn [match_socket probes held log sockfd_put get]; auto].
  cbn [probes get].
  destruct (has_bit (Probes.loaded_probes (probes st)) (Probes.PROBE_TCP_CLOSE c))
    eqn:B1; cbn [andb].
  - destruct (Z.eqb_spec (sk_protocol s) IPPROTO_TCP) as [E1|E1]; cbn [andb].
    + destruct (Z.eqb_spec (DPORT s) 0) as [E2|E2]; cbn [negb].
      * assert (X : (sk_protocol s =? IPPROTO_UDP) = false).
        { rewrite E1. reflexivity. }
        rewrite X, andb_false_r. cbn [andb].
        cbn [match_socket probes held log sockfd_put get]. auto.
      * cbn [match_socket probes held log sockfd_put get with_log].
        repeat (split; [auto|]).
        destruct (log_if_not_whitelisted_cases N P K s (PROTO_TCP N) (ACTION_CLOSE N)
                    (log st)) as [H|H]; [left; exact H|].
        right. exists s. split; [exact E0|]. split; [reflexivity|].
        split; [exact I1|]. left. auto.
    + destruct (has_bit (Probes.loaded_probes (probes st)) (Probes.PROBE_UDP_CLOSE c)
                && (sk_protocol s =? IPPROTO_UDP) && negb (SPORT s =? 0)) eqn:E2;
        cbn [match_socket probes held log sockfd_put get with_log]; [|auto].
      apply andb_true_iff in E2. destruct E2 as [E2 E4].
      apply andb_true_iff in E2. destruct E2 as [E2 E3].
      apply Z.eqb_eq in E3. apply negb_true_iff, Z.eqb_neq in E4.
      repeat (split; [auto|]).
      destruct (log_if_not_whitelisted_cases N P K s (PROTO_UDP N) (ACTION_CLOSE N)
                  (log st)) as [H|H]; [left; exact H|].
      right. exists s. split; [exact E0|]. split; [reflexivity|].
      split; [exact I1|]. right. auto.
  - destruct (has_bit (Probes.loaded_probes (probes st)) (Probes.PROBE_UDP_CLOSE c)
              && (sk_protocol s =? IPPROTO_UDP) && negb (SPORT s =? 0)) eqn:E2;
      cbn [match_socket probes held log sockfd_put get with_log]; [|auto].
    apply andb_true_iff in E2. destruct E2 as [E2 E4].
    apply andb_true_iff in E2. destruct E2 as [E2 E3].
    apply Z.eqb_eq in E3. apply negb_true_iff, Z.eqb_neq in E4.
    repeat (split; [auto|]).
    destruct (log_if_not_whitelisted_cases N P K s (PROTO_UDP N) (ACTION_CLOSE N)
                (log st)) as [H|H]; [left; exact H|].
    right. exists s. split; [exact E0|]. split; [reflexivity|].
    split; [exact I1|]. right. auto.
Qed.

(** X13: the reference pre_sys_bind takes with sockfd_lookup is the one
    post_sys_bind gives back: after the two handlers of a task whose slot
    was empty, every socket has the references it had and the slot is
    empty again; a descriptor that is no socket leaves the table as it
    was. *)
Theorem bind_reference_balance (c : Probes.probes_h) (N : netlog_h)
        (P : SecureLog.platform) (K K' : kernel) (sockfd : Z) (st : state) :
  pid (current K') = pid (current K) ->
  match_socket st (pid (current K)) = NULL ->
  let st1 := pre_sys_bind K sockfd st in
  let st2 := post_sys_bind N P K' st1 in
  held st1 (sockfd_lookup K sockfd)
  = (if sockfd_lookup K sockfd =? NULL then held st NULL
     else held st (sockfd_lookup K sockfd) + 1) /\
  (forall x, held st2 x = held st x) /\
  match_socket st2 (pid (current K)) = NULL.
Proof.
  intros Hpid H0. cbv zeta. unfold pre_sys_bind, post_sys_bind. cbv zeta.
  rewrite Hpid.
  destruct (Z.eqb_spec (sockfd_lookup K sockfd) NULL) as [E|E].
  - rewrite H0. cbn [Z.eqb NULL held set_match]. rewrite E.
    split; [reflexivity|]. split; [reflexivity | apply slot_cleared].
  - set (sock := sockfd_lookup K sockfd) in *.
    cbn [match_socket set_match get held]. rewrite !Z.eqb_refl.
    destruct (Z.eqb_spec sock NULL) as [|_]; [contradiction|].
    split; [reflexivity|].
    split; [|reflexivity].
    intros x. cbn [held set_match sockfd_put].
    destruct (log_inet_cases N P K' sock IPPROTO_UDP (PROTO_UDP N) (ACTION_BIND N)
                (set_match (pid (current K)) sock (get sock st)))
      as (_ & _ & Hh & _).
    rewrite Hh. cbn [held set_match get].
    destruct (x =? sock); lia.
Qed.

Lemma bind_reference_balance_witness :
  let st1 := pre_sys_bind (task 7) 4 initial in
  let st2 := post_sys_bind headers SecureLog.demo (task 7) st1 in
  held st1 200 = 1 /\ (forall x, held st2 x = 0) /\ match_socket st2 7 = NULL.
Proof.
  exact (bind_reference_balance Probes.numbering headers SecureLog.demo
           (task 7) (task 7) 4 initial eq_refl eq_refl).
Defined.

End NetlogProbesFacts.

(** ** Laws of the secure log *)

Module SecureLogLaws.
Import SecureLog SecureLogFacts.

Lemma unchanged_wider (m m' : mem) (lo hi lo' hi' : Z) :
  unchanged_outside m m' lo hi -> lo' <= lo -> hi <= hi' ->
  unchanged_outside m m' lo' hi'.
Proof.
  intros H H1 H2 a Ha. apply H. lia.
Qed.

Lemma do_appends_snoc (P : platform) (l : list append) (a : append) (st : log_state) :
  do_appends P (l ++ [a]) st = do_append P (do_appends P l st) a.
Proof.
  unfold do_appends. rewrite fold_left_app. reflexivity.
Qed.

Lemma forallb_snoc {A : Type} (f : A -> bool) (l : list A) (a : A) :
  forallb f (l ++ [a]) = true -> forallb f l = true /\ f a = true.
Proof.
  rewrite forallb_app. intros H. apply andb_true_iff in H. destruct H as [H1 H2].
  cbn [forallb] in H2. rewrite andb_true_r in H2. split; assumption.
Qed.

(** *** What every sequence of appends keeps *)

Section Reachable.

Variable P : platform.
Hypothesis W : wf_facts P.

(** find_new_record_place writes the marker only. *)
Lemma place_buf (size : Z) (st : log_state) :
  unchanged_outside (log_buf st) (log_buf (find_new_record_place P size st))
    (log_next_idx st) (log_next_idx st + 8).
Proof.
  unfold find_new_record_place. cbv zeta.
  destruct (drop_old_keeps P (Z.to_nat (log_next_seq st - log_first_seq st))
              (align_size size) st) as (K1 & _ & K3).
  match goal with |- context [if ?b then _ else _] => destruct b end.
  - cbn [log_buf with_next with_buf]. rewrite K1, K3.
    apply unchanged_store; cbn; lia.
  - rewrite K1. apply unchanged_refl.
Qed.

Lemma append_inside (a : append) (st : log_state) :
  valid_append a = true ->
  0 <= log_next_idx st -> log_next_idx st + sizeof_sec_log P < LOG_BUF_LEN P ->
  unchanged_outside (log_buf st) (log_buf (do_append P st a)) 0 (LOG_BUF_LEN P).
Proof.
  intros Hv H0 H1.
  pose proof (buffer_facts P W) as F.
  pose proof (record_size_bounds P W a Hv) as B.
  destruct (append_within_buffer P W a st Hv H0 H1) as (A1 & A2 & _).
  destruct (do_append_effect P W a st Hv) as (_ & _ & _ & _ & E5 & _).
  fold (placed P st a) in E5.
  apply (unchanged_trans _ (log_buf (find_new_record_place P (record_size P a) st))).
  - apply (unchanged_wider _ _ (log_next_idx st) (log_next_idx st + 8));
      [apply place_buf | lia | unfold sizeof_sec_log in *; lia].
  - apply (unchanged_wider _ _ (placed P st a) (placed P st a + record_size P a));
      [exact E5 | lia | unfold sizeof_sec_log in *; lia].
Qed.

Lemma appends_inside (l : list append) (st : log_state) :
  forallb valid_append l = true ->
  0 <= log_next_idx st -> log_next_idx st + sizeof_sec_log P < LOG_BUF_LEN P ->
  0 <= log_next_idx (do_appends P l st) /\
  log_next_idx (do_appends P l st) + sizeof_sec_log P < LOG_BUF_LEN P /\
  unchanged_outside (log_buf st) (log_buf (do_appends P l st)) 0 (LOG_BUF_LEN P).
Proof.
  intros Hv H0 H1. pose proof (buffer_facts P W) as F.
  induction l as [|a l IH] using rev_ind.
  - split; [exact H0|]. split; [exact H1 | apply unchanged_refl].
  - apply forallb_snoc in Hv. destruct Hv as [Hv Ha].
    destruct (IH Hv) as (I0 & I1 & I2).
    rewrite do_appends_snoc.
    pose proof (record_size_bounds P W a Ha) as B.
    destruct (append_within_buffer P W a (do_appends P l st) Ha I0 I1)
      as (A1 & A2 & A3).
    cbv zeta in A3. rewrite A3.
    split; [unfold sizeof_sec_log in *; lia|].
    split; [unfold sizeof_sec_log in *; lia|].
    apply (unchanged_trans _ (log_buf (do_appends P l st))); [exact I2|].
    apply append_inside; assumption.
Qed.

Lemma appends_count (l : list append) :
  forallb valid_append l = true ->
  Z.of_nat (List.length l) < 2 ^ 64 ->
  log_next_seq (do_appends P l initial) = Z.of_nat (List.length l) /\
  0 <= log_first_seq (do_appends P l initial) <= log_next_seq (do_appends P l initial).
Proof.
  induction l as [|a l IH] using rev_ind; intros Hv Hn.
  - cbn. lia.
  - apply forallb_snoc in Hv. destruct Hv as [Hv Ha].
    rewrite length_app in *. cbn [List.length] in *.
    destruct (IH Hv ltac:(lia)) as [I1 I2].
    rewrite do_appends_snoc.
    destruct (append_keeps_order P W a (do_appends P l initial) Ha I2 ltac:(lia))
      as [O1 O2].
    cbv zeta in O1, O2. rewrite O2, I1. split; lia.
Qed.

Lemma drop_old_first_read (n : nat) (size : Z) (st : log_state) :
  first_read (drop_old P n size st) = first_read st.
Proof.
  revert st. induction n as [|n IH]; intros st; cbn [drop_old]; [reflexivity|].
  destruct (log_first_seq st <? log_next_seq st); [|reflexivity].
  destruct (u64 (size + sizeof_sec_log P) <? free_space P st); [reflexivity|].
  rewrite IH. reflexivity.
Qed.

Lemma do_append_first_read (a : append) (st : log_state) :
  first_read (do_append P st a) = first_read st.
Proof.
  assert (E : forall size, first_read (find_new_record_place P size st) = first_read st).
  { intros size. unfold find_new_record_place. cbv zeta.
    match goal with |- context [if ?b then _ else _] => destruct b end;
      cbn [first_read with_next with_buf]; apply drop_old_first_read. }
  destruct a; cbn [do_append]; unfold store_netlog_record, store_execlog_record;
    cbv zeta; cbn [first_read with_next with_buf]; apply E.
Qed.

Lemma do_appends_first_read (l : list append) (st : log_state) :
  first_read (do_appends P l st) = first_read st.
Proof.
  unfold do_appends. revert st.
  induction l as [|a l IH]; intros st; [reflexivity|].
  cbn [fold_left]. rewrite IH. apply do_append_first_read.
Qed.

End Reachable.

(** X14: appends never write outside log_buf: after any sequence of
    appends since the module was loaded, the write offset is inside the
    buffer, a header away from its end, and every byte outside the
    LOG_BUF_LEN bytes of the buffer is as it was. *)
Theorem appends_stay_in_buffer (P : platform) (l : list append) :
  wf_platform P = true ->
  forallb valid_append l = true ->
  let st := do_appends P l initial in
  0 <= log_next_idx st /\
  log_next_idx st + sizeof_sec_log P < LOG_BUF_LEN P /\
  forall a, a < 0 \/ LOG_BUF_LEN P <= a -> log_buf st a = zeroed a.
Proof.
  intros Hwf Hv. pose proof (wf_platform_facts P Hwf) as W. cbv zeta.
  pose proof (buffer_facts P W) as F.
  destruct (appends_inside P W l initial Hv) as (H1 & H2 & H3).
  - cbn. lia.
  - cbn [initial log_next_idx]. unfold sizeof_sec_log. lia.
  - split; [exact H1|]. split; [exact H2|]. exact H3.
Qed.

Lemma appends_stay_in_buffer_witness :
  let st := do_appends demo (map demo_record [1; 2; 3; 4; 5; 6; 7; 8; 9]) initial in
  0 <= log_next_idx st /\
  log_next_idx st + sizeof_sec_log demo < 512 /\
  forall a, a < 0 \/ 512 <= a -> log_buf st a = 0.
Proof.
  exact (appends_stay_in_buffer demo (map demo_record [1; 2; 3; 4; 5; 6; 7; 8; 9])
           eq_refl eq_refl).
Defined.

(** X15: log_next_seq counts the appends: after n appends since the module
    was loaded it is n, and log_first_seq has not passed it, whatever was
    dropped. *)
Theorem sequence_numbers_count_appends (P : platform) (l : list append) :
  wf_platform P = true ->
  forallb valid_append l = true ->
  Z.of_nat (List.length l) < 2 ^ 64 ->
  let st := do_appends P l initial in
  log_next_seq st = Z.of_nat (List.length l) /\
  0 <= log_first_seq st <= log_next_seq st.
Proof.
  intros Hwf Hv Hn. cbv zeta.
  apply appends_count; [apply wf_platform_facts|..]; assumption.
Qed.

Lemma sequence_numbers_count_appends_witness :
  let st := do_appends demo (map demo_record [1; 2; 3; 4; 5; 6; 7; 8; 9]) initial in
  log_next_seq st = 9 /\ 0 <= log_first_seq st <= log_next_seq st.
Proof.
  exact (sequence_numbers_count_appends demo
           (map demo_record [1; 2; 3; 4; 5; 6; 7; 8; 9]) eq_refl eq_refl eq_refl).
Defined.



(** X17: only the first open since the module was loaded starts at the
    oldest record: it clears first_read, no append sets it again, and
    every later open starts the session at the write position, where it
    sees none of the records appended before it. *)
Theorem only_first_open_sees_history (P : platform) (junk junk' : mem)
        (fmt eof fmt' eof' : Z) (l : list append) (st : log_state) :
  let first := secure_log_open junk fmt eof st in
  let st2 := do_appends P l (snd first) in
  let later := secure_log_open junk' fmt' eof' st2 in
  (log_curr_seq (fst first), log_curr_idx (fst first))
  = (if first_read st then (log_first_seq st, log_first_idx st)
     else (log_next_seq st, log_next_idx st)) /\
  first_read st2 = false /\
  (log_curr_seq (fst later), log_curr_idx (fst later))
  = (log_next_seq st2, log_next_idx st2) /\
  snd later = st2 /\
  fst (secure_log_read P st2 (fst later) true 0 true) = Returns (- EAGAIN) [].
Proof.
  cbv zeta.
  assert (F1 : first_read (snd (secure_log_open junk fmt eof st)) = false).
  { unfold secure_log_open. destruct (first_read st) eqn:E; [reflexivity | exact E]. }
  assert (F2 : first_read (do_appends P l (snd (secure_log_open junk fmt eof st)))
               = false).
  { rewrite do_appends_first_read. exact F1. }
  split.
  { unfold secure_log_open. destruct (first_read st); reflexivity. }
  split; [exact F2|].
  set (st2 := do_appends P l (snd (secure_log_open junk fmt eof st))) in *.
  unfold secure_log_open at 1 2 3 4. rewrite F2. cbn [fst snd log_curr_seq log_curr_idx].
  split; [reflexivity|]. split; [reflexivity|].
  unfold secure_log_read. cbn [log_curr_seq]. rewrite Z.eqb_refl. reflexivity.
Qed.

(** *** Reading record after record *)

(** A read at a record moves the session on by one record, whatever it
    returns. *)
Lemma read_on_record (P : platform) (st : log_state) (d : user_data)
      (a : read_args) :
  log_curr_seq d <> log_next_seq st ->
  log_first_seq st <= log_curr_seq d ->
  log_curr_seq (read_on P st d a) = u64 (log_curr_seq d + 1) /\
  log_curr_idx (read_on P st d a) = next_record (log_buf st) (log_curr_idx d).
Proof.
  intros Hne Hle. unfold read_on, secure_log_read.
  destruct (Z.eqb_spec (log_curr_seq d) (log_next_seq st)); [lia|].
  destruct (Z.ltb_spec (log_curr_seq d) (log_first_seq st)); [lia|].
  destruct (deliver_cursor P st d) as [C1 C2].
  destruct (deliver P st d) as [len d1]. cbn [fst snd] in C1, C2.
  destruct (snd (fst a) <? len); [|destruct (negb (snd a))]; cbn [snd];
    split; assumption.
Qed.

Lemma reads_along_chain (P : platform) (st : log_state) (stop : Z)
      (l : list read_args) :
  log_next_seq st < 2 ^ 64 ->
  forall (d : user_data) (n : nat),
    log_first_seq st <= log_curr_seq d ->
    0 <= log_curr_seq d ->
    log_curr_seq d + Z.of_nat n = log_next_seq st ->
    chain (log_buf st) (log_curr_idx d) n stop ->
    (List.length l <= n)%nat ->
    log_curr_seq (reads P st l d) = log_curr_seq d + Z.of_nat (List.length l) /\
    log_curr_idx (reads P st l d)
    = nth (List.length l) (map fst (walk (log_buf st) (log_curr_idx d) n)) stop.
Proof.
  intros Hmax. unfold reads.
  induction l as [|a l IH]; intros d n Hfirst H0 Hseq Hc Hlen.
  - cbn [fold_left List.length]. split; [lia|].
    destruct n as [|n]; cbn [walk map nth]; [exact Hc | reflexivity].
  - destruct n as [|n]; [cbn [List.length] in Hlen; lia|].
    rewrite chain_S in Hc. destruct Hc as (C1 & C2 & C3 & C4 & C5).
    destruct (read_on_record P st d a ltac:(lia) Hfirst) as [R1 R2].
    rewrite (chain_next _ _ (load 8 (log_buf st) (log_curr_idx d + off_len)))
      in R2 by (auto; lia).
    unfold u64 in R1. rewrite Z.mod_small in R1 by lia.
    cbn [fold_left List.length].
    destruct (IH (read_on P st d a) n) as [I1 I2].
    + lia.
    + lia.
    + lia.
    + rewrite R2. exact C5.
    + cbn [List.length] in Hlen. lia.
    + split; [lia|]. rewrite I2, R2. cbn [walk map nth].
      rewrite (chain_next _ _ (load 8 (log_buf st) (log_curr_idx d + off_len)))
        by (auto; lia).
      reflexivity.
Qed.

(** X18: reads visit the records in the order of the appends: on a buffer
    filled by appends that dropped nothing, a session that starts at the
    oldest record stands after k reads, whatever they returned, at the
    record of the append k + 1, after as many reads as there were appends
    at the write position, where a non-blocking read returns -EAGAIN. *)
Theorem reads_visit_records_in_order (P : platform) (l : list append)
        (calls : list read_args) (d : user_data) :
  wf_platform P = true ->
  forallb valid_append l = true ->
  no_eviction P l initial = true ->
  log_curr_seq d = 0 -> log_curr_idx d = 0 ->
  (List.length calls <= List.length l)%nat ->
  let st := do_appends P l initial in
  let d' := reads P st calls d in
  log_curr_seq d' = Z.of_nat (List.length calls) /\
  log_curr_idx d'
  = nth (List.length calls) (map fst (stored P l initial)) (log_next_idx st) /\
  (List.length calls = List.length l ->
   log_curr_idx d' = log_next_idx st /\
   forall count writable,
     fst (secure_log_read P st d' true count writable) = Returns (- EAGAIN) []).
Proof.
  intros Hwf Hv Hn Hs Hi Hlen. pose proof (wf_platform_facts P Hwf) as W.
  cbv zeta.
  destruct (appends_filled P W l Hv Hn) as [[F1 F2 F3 F4 F5] Hw].
  pose proof (chain_count _ _ _ _ F5) as Hc.
  pose proof (buffer_facts P W) as F.
  set (st := do_appends P l initial) in *.
  destruct (reads_along_chain P st (log_next_idx st) calls ltac:(lia) d
              (List.length l)) as [R1 R2]; try lia.
  - rewrite Hi. exact F5.
  - rewrite Hi, Hw in R2. rewrite Hs in R1.
    split; [lia|]. split; [exact R2|].
    intros E. split.
    + rewrite R2, E. apply nth_overflow. rewrite length_map.
      rewrite <- Hw. clear. generalize (log_buf st) 0.
      induction (List.length l) as [|n IH]; intros m i; cbn [walk List.length];
        [lia | specialize (IH m (next_record m i)); lia].
    + intros count writable. unfold secure_log_read.
      rewrite R1, E, F3, Z.eqb_refl. reflexivity.
Qed.

Lemma reads_visit_records_in_order_witness :
  let st := do_appends demo (map demo_record [1; 2; 3]) initial in
  let d' := reads demo st [(true, 0, true); (true, 100, false); (false, 100, true)]
              demo_session in
  log_curr_seq d' = 3 /\ log_curr_idx d' = log_next_idx st /\
  fst (secure_log_read demo st d' true 100 true) = Returns (- EAGAIN) [].
Proof.
  destruct (reads_visit_records_in_order demo (map demo_record [1; 2; 3])
              [(true, 0, true); (true, 100, false); (false, 100, true)]
              demo_session eq_refl eq_refl eq_refl eq_refl eq_refl
              ltac:(vm_compute; lia)) as (H1 & _ & H3).
  destruct (H3 eq_refl) as [H4 H5].
  split; [exact H1|]. split; [exact H4 | apply H5].
Defined.

(** *** Lines that fit and lines that are cut *)

Lemma read_bytes_firstn (m : mem) (o : Z) (n k : nat) :
  (k <= n)%nat -> read_bytes m o k = firstn k (read_bytes m o n).
Proof.
  intros H. replace n with (k + (n - k))%nat by lia.
  rewrite read_bytes_app, firstn_app, read_bytes_length.
  replace (k - k)%nat with 0%nat by lia. cbn [firstn]. rewrite app_nil_r.
  symmetry. apply firstn_all2. rewrite read_bytes_length. lia.
Qed.

Lemma firstn_app_le {A : Type} (n : nat) (l1 l2 : list A) :
  (n <= List.length l1)%nat -> firstn n (l1 ++ l2) = firstn n l1.
Proof.
  intros H. rewrite firstn_app.
  replace (n - List.length l1)%nat with 0%nat by lia.
  cbn [firstn]. apply app_nil_r.
Qed.

(** snprintf of a text that does not fit: the bytes up to the end of the
    room are those of the text, cut. *)
Lemma snprintf_cut (b : mem) (at_ size : Z) (pre s : list Z) :
  0 <= at_ -> read_bytes b 0 (Z.to_nat at_) = pre ->
  0 <= size <= Z.of_nat (List.length s) ->
  read_bytes (snprintf b at_ size s) 0 (Z.to_nat (at_ + size - 1))
  = firstn (Z.to_nat (at_ + size - 1)) (pre ++ s).
Proof.
  intros Hat Hpre Hsize.
  assert (Lpre : List.length pre = Z.to_nat at_)
    by (rewrite <- Hpre; apply read_bytes_length).
  unfold snprintf. destruct (Z.leb_spec size 0).
  - rewrite (read_bytes_firstn b 0 (Z.to_nat at_)) by lia. rewrite Hpre.
    rewrite firstn_app.
    replace (Z.to_nat (at_ + size - 1) - List.length pre)%nat with 0%nat by lia.
    cbn [firstn]. rewrite app_nil_r. reflexivity.
  - replace (Z.to_nat (at_ + size - 1))
      with (Z.to_nat at_ + Z.to_nat (size - 1))%nat by lia.
    rewrite read_bytes_app.
    rewrite read_write_other by lia. rewrite Hpre.
    rewrite <- Lpre at 2. rewrite firstn_app_2. f_equal.
    replace (0 + Z.of_nat (Z.to_nat at_)) with at_ by lia.
    assert (L : List.length (firstn (Z.to_nat (size - 1)) s) = Z.to_nat (size - 1))
      by (apply firstn_length_le; lia).
    rewrite <- L at 2. apply read_prefix_write.
Qed.

Lemma text_length_1 (s : list Z) : Z.of_nat (List.length (s ++ text " "))
                                  = Z.of_nat (List.length s) + 1.
Proof.
  rewrite length_app. cbn [text List.length map list_ascii_of_string]. lia.
Qed.

Section Lines.

Variable P : platform.
Hypothesis W : wf_facts P.

Lemma u64_small (x : Z) : 0 <= x < 2 ^ 31 -> u64 x = x.
Proof.
  intros H. unfold u64. apply Z.mod_small. lia.
Qed.

(** netlog_print on a path and a text that fit: both are printed one
    behind the other. *)
Lemma netlog_print_fits (m b : mem) (len record : Z) (p net : list Z) :
  sizeof_netlog_log P <= load 8 m (record + off_len) ->
  (forall size,
      precision_chars m (get_netlog_path P record)
        (to_int (load 8 m (record + off_net_path_len P))) size = p) ->
  netlog_text_of P m record = Some net ->
  0 <= len ->
  len + Z.of_nat (List.length p) + 1 + Z.of_nat (List.length net)
  < USER_BUFFER_SIZE P ->
  netlog_print P m record b len
  = (sprintf (sprintf b len (p ++ text " ")) (len + Z.of_nat (List.length p) + 1) net,
     len + Z.of_nat (List.length p) + 1 + Z.of_nat (List.length net)).
Proof.
  intros Hlen Hpath Hnet H0 Hfit. pose proof (wf_user P W) as HU.
  unfold netlog_print. cbv zeta.
  destruct (Z.ltb_spec (load 8 m (record + off_len)) (sizeof_netlog_log P)); [lia|].
  rewrite Hpath, Hnet. rewrite (u64_small (USER_BUFFER_SIZE P - len)) by lia.
  unfold UPDATE_POINTERS. rewrite !text_length_1.
  destruct (Z.leb_spec (USER_BUFFER_SIZE P - len) (Z.of_nat (List.length p) + 1));
    [lia|].
  rewrite (u64_small (len + (Z.of_nat (List.length p) + 1))) by lia.
  rewrite (u64_small (USER_BUFFER_SIZE P - len - (Z.of_nat (List.length p) + 1)))
    by lia.
  destruct (Z.leb_spec (USER_BUFFER_SIZE P - len - (Z.of_nat (List.length p) + 1))
              (Z.of_nat (List.length net))); [lia|].
  rewrite !snprintf_fits by (rewrite ?text_length_1; lia).
  rewrite u64_small by lia.
  f_equal; [f_equal|]; lia.
Qed.

(** netlog_print on a path and a text that do not fit: it returns 0 and
    leaves the buffer filled with what fits of them. *)
Lemma netlog_print_cut (m b : mem) (len record : Z) (pre p net : list Z) :
  sizeof_netlog_log P <= load 8 m (record + off_len) ->
  (forall size,
      precision_chars m (get_netlog_path P record)
        (to_int (load 8 m (record + off_net_path_len P))) size = p) ->
  netlog_text_of P m record = Some net ->
  0 <= len <= USER_BUFFER_SIZE P ->
  read_bytes b 0 (Z.to_nat len) = pre ->
  USER_BUFFER_SIZE P
  <= len + Z.of_nat (List.length p) + 1 + Z.of_nat (List.length net) ->
  snd (netlog_print P m record b len) = 0 /\
  read_bytes (fst (netlog_print P m record b len)) 0
    (Z.to_nat (USER_BUFFER_SIZE P - 1))
  = firstn (Z.to_nat (USER_BUFFER_SIZE P - 1)) (pre ++ p ++ text " " ++ net).
Proof.
  intros Hlen Hpath Hnet H0 Hpre Hcut. pose proof (wf_user P W) as HU.
  assert (Lpre : List.length pre = Z.to_nat len)
    by (rewrite <- Hpre; apply read_bytes_length).
  unfold netlog_print. cbv zeta.
  destruct (Z.ltb_spec (load 8 m (record + off_len)) (sizeof_netlog_log P)); [lia|].
  rewrite Hpath, Hnet. rewrite (u64_small (USER_BUFFER_SIZE P - len)) by lia.
  unfold UPDATE_POINTERS. rewrite !text_length_1.
  destruct (Z.leb_spec (USER_BUFFER_SIZE P - len) (Z.of_nat (List.length p) + 1)).
  - cbn [fst snd]. split; [reflexivity|].
    replace (USER_BUFFER_SIZE P - 1) with (len + (USER_BUFFER_SIZE P - len) - 1) by lia.
    rewrite (snprintf_cut b len (USER_BUFFER_SIZE P - len) pre (p ++ text " "))
      by (rewrite ?text_length_1; auto; lia).
    replace (pre ++ p ++ text " " ++ net) with ((pre ++ p ++ text " ") ++ net)
      by (rewrite <- !app_assoc; reflexivity).
    rewrite (firstn_app_le _ (pre ++ p ++ text " ") net); [reflexivity|].
    rewrite length_app. pose proof (text_length_1 p). lia.
  - rewrite (u64_small (len + (Z.of_nat (List.length p) + 1))) by lia.
    rewrite (u64_small (USER_BUFFER_SIZE P - len - (Z.of_nat (List.length p) + 1)))
      by lia.
    destruct (Z.leb_spec (USER_BUFFER_SIZE P - len - (Z.of_nat (List.length p) + 1))
                (Z.of_nat (List.length net))); [|lia].
    cbn [fst snd]. split; [reflexivity|].
    rewrite (snprintf_fits b) by (rewrite ?text_length_1; lia).
    set (len2 := len + (Z.of_nat (List.length p) + 1)).
    assert (R2 : read_bytes (sprintf b len (p ++ text " ")) 0 (Z.to_nat len2)
                 = pre ++ p ++ text " ").
    { unfold len2. rewrite <- text_length_1.
      apply sprintf_extends; [lia | exact Hpre]. }
    replace (USER_BUFFER_SIZE P - len - (Z.of_nat (List.length p) + 1))
      with (USER_BUFFER_SIZE P - len2) by (unfold len2; lia).
    replace (USER_BUFFER_SIZE P - 1)
      with (len2 + (USER_BUFFER_SIZE P - len2) - 1) by lia.
    rewrite (snprintf_cut _ len2 (USER_BUFFER_SIZE P - len2) (pre ++ p ++ text " ") net)
      by (auto; unfold len2; lia).
    rewrite <- !app_assoc. reflexivity.
Qed.

(** The end of secure_log_read_fill_record on a cut line: the mark and
    the new line take the last six bytes. *)
Lemma cut_mark (b : mem) (full : list Z) :
  read_bytes b 0 (Z.to_nat (USER_BUFFER_SIZE P - 1))
  = firstn (Z.to_nat (USER_BUFFER_SIZE P - 1)) full ->
  read_bytes
    (sprintf (sprintf b (USER_BUFFER_SIZE P - 7) (text "TRUNC"))
       (USER_BUFFER_SIZE P - 2) (text (String "010"%char EmptyString)))
    0 (Z.to_nat (USER_BUFFER_SIZE P - 1))
  = firstn (Z.to_nat (USER_BUFFER_SIZE P - 7)) full ++ text "TRUNC" ++ [10].
Proof.
  intros H. pose proof (wf_user P W) as HU.
  assert (H7 : read_bytes b 0 (Z.to_nat (USER_BUFFER_SIZE P - 7))
               = firstn (Z.to_nat (USER_BUFFER_SIZE P - 7)) full).
  { rewrite (read_bytes_firstn b 0 (Z.to_nat (USER_BUFFER_SIZE P - 1))) by lia.
    rewrite H, firstn_firstn. f_equal. lia. }
  pose proof (sprintf_extends b (USER_BUFFER_SIZE P - 7) _ (text "TRUNC")
                ltac:(lia) H7) as R1.
  change (Z.of_nat (List.length (text "TRUNC"))) with 5 in R1.
  replace (USER_BUFFER_SIZE P - 7 + 5) with (USER_BUFFER_SIZE P - 2) in R1 by lia.
  pose proof (sprintf_extends _ (USER_BUFFER_SIZE P - 2) _
                (text (String "010"%char EmptyString)) ltac:(lia) R1) as R2.
  change (Z.of_nat (List.length (text (String "010"%char EmptyString))))
    with 1 in R2.
  replace (USER_BUFFER_SIZE P - 2 + 1) with (USER_BUFFER_SIZE P - 1) in R2 by lia.
  rewrite R2, <- app_assoc. reflexivity.
Qed.

(** secure_log_read_fill_record on a network record whose line fits. *)
Lemma fill_netlog_record_fits (m b : mem) (len0 record : Z) (p net : list Z) :
  load 4 m (record + off_type P) = LOG_NETWORK_INTERACTION P ->
  sizeof_netlog_log P <= load 8 m (record + off_len) ->
  (forall size,
      precision_chars m (get_netlog_path P record)
        (to_int (load 8 m (record + off_net_path_len P))) size = p) ->
  netlog_text_of P m record = Some net ->
  0 <= len0 ->
  let det := details_text_of P m record in
  let total := len0 + Z.of_nat (List.length det) + 1 + Z.of_nat (List.length p)
               + 1 + Z.of_nat (List.length net) in
  total < USER_BUFFER_SIZE P ->
  exists b3,
    secure_log_read_fill_record P m b len0 record
    = (sprintf b3 total (text (String "010"%char EmptyString)), total + 1).
Proof.
  intros Htype Hlen Hpath Hnet Hlen0 det total Hfit.
  pose proof (wf_user P W) as HU.
  unfold secure_log_read_fill_record. cbv zeta. fold det.
  rewrite Htype, Z.eqb_refl, text_length_1.
  rewrite (u64_small (len0 + (Z.of_nat (List.length det) + 1)))
    by (unfold total in Hfit; lia).
  rewrite (netlog_print_fits m _ _ record p net)
    by (auto; unfold total in Hfit; lia).
  match goal with
  | |- context [if ?x =? 0 then _ else _] => destruct (Z.eqb_spec x 0); [lia|]
  end.
  eexists. f_equal; [f_equal; unfold total; lia|].
  rewrite u64_small by (unfold total in Hfit; lia). unfold total. lia.
Qed.

(** secure_log_read_fill_record on a network record whose line does not
    fit. *)
Lemma fill_netlog_record_cut (m b : mem) (len0 record : Z) (pre p net : list Z) :
  load 4 m (record + off_type P) = LOG_NETWORK_INTERACTION P ->
  sizeof_netlog_log P <= load 8 m (record + off_len) ->
  (forall size,
      precision_chars m (get_netlog_path P record)
        (to_int (load 8 m (record + off_net_path_len P))) size = p) ->
  netlog_text_of P m record = Some net ->
  0 <= len0 -> read_bytes b 0 (Z.to_nat len0) = pre ->
  let det := details_text_of P m record in
  len0 + Z.of_nat (List.length det) + 1 <= USER_BUFFER_SIZE P ->
  USER_BUFFER_SIZE P
  <= len0 + Z.of_nat (List.length det) + 1 + Z.of_nat (List.length p) + 1
     + Z.of_nat (List.length net) ->
  let r := secure_log_read_fill_record P m b len0 record in
  snd r = USER_BUFFER_SIZE P - 1 /\
  read_bytes (fst r) 0 (Z.to_nat (USER_BUFFER_SIZE P - 1))
  = firstn (Z.to_nat (USER_BUFFER_SIZE P - 7))
      (pre ++ det ++ text " " ++ p ++ text " " ++ net)
    ++ text "TRUNC" ++ [10].
Proof.
  intros Htype Hlen Hpath Hnet Hlen0 Hpre det Hhead Hcut.
  pose proof (wf_user P W) as HU.
  unfold secure_log_read_fill_record. cbv zeta. fold det.
  rewrite Htype, Z.eqb_refl, text_length_1.
  rewrite (u64_small (len0 + (Z.of_nat (List.length det) + 1))) by lia.
  set (len1 := len0 + (Z.of_nat (List.length det) + 1)).
  set (b1 := sprintf b len0 (det ++ text " ")).
  assert (R1 : read_bytes b1 0 (Z.to_nat len1) = pre ++ det ++ text " ").
  { unfold len1, b1. rewrite <- text_length_1.
    apply sprintf_extends; [lia | exact Hpre]. }
  destruct (netlog_print_cut m b1 len1 record (pre ++ det ++ text " ") p net
              Hlen Hpath Hnet ltac:(unfold len1; lia) R1 ltac:(unfold len1; lia))
    as [E0 Rc].
  destruct (netlog_print P m record b1 len1) as [b2 l2]. cbn [fst snd] in E0, Rc.
  subst l2. cbn [Z.eqb fst snd].
  split; [rewrite u64_small by lia; lia|].
  rewrite <- !app_assoc in Rc. apply cut_mark. exact Rc.
Qed.

Lemma chars_until_nul (m : mem) (p : list Z) :
  forallb (fun x => negb (x =? 0)) p = true ->
  forall (at_ : Z) (n : nat),
    read_bytes m at_ (List.length p) = p ->
    m (at_ + Z.of_nat (List.length p)) = 0 ->
    (List.length p < n)%nat ->
    chars m at_ n = p.
Proof.
  induction p as [|x p IH]; intros Hnz at_ n Hr H0 Hn.
  - destruct n as [|n]; [cbn in Hn; lia|]. cbn [chars].
    cbn [List.length] in H0. replace (at_ + Z.of_nat 0) with at_ in H0 by lia.
    rewrite H0. reflexivity.
  - destruct n as [|n]; [cbn in Hn; lia|].
    cbn [forallb] in Hnz. apply andb_true_iff in Hnz. destruct Hnz as [Hx Hnz].
    cbn [List.length read_bytes] in Hr. injection Hr as Hm Hr.
    cbn [chars]. rewrite Hm. apply negb_true_iff in Hx. rewrite Hx.
    f_equal. apply IH; [exact Hnz | exact Hr | | cbn [List.length] in Hn; lia].
    cbn [List.length] in H0.
    replace (at_ + 1 + Z.of_nat (List.length p))
      with (at_ + Z.of_nat (S (List.length p))) by lia.
    exact H0.
Qed.

(** The session buffer after a read that delivers. *)
Lemma read_delivers (st : log_state) (d : user_data) (nonblock : bool) (count : Z) :
  log_curr_seq d <> log_next_seq st ->
  log_first_seq st <= log_curr_seq d ->
  load 8 (log_buf st) (log_curr_idx d + off_len) <> 0 ->
  let h := line_header P (log_buf st) (log_curr_idx d) (simple_format d) in
  let r := secure_log_read_fill_record P (log_buf st) (sprintf (buf d) 0 h)
             (Z.of_nat (List.length h)) (log_curr_idx d) in
  snd r <= count ->
  fst (secure_log_read P st d nonblock count true)
  = Returns (snd r) (read_bytes (fst r) 0 (Z.to_nat (snd r))) /\
  buf (snd (secure_log_read P st d nonblock count true)) = fst r.
Proof.
  intros Hseq Hfirst Hlen h r Hcount. unfold secure_log_read.
  destruct (Z.eqb_spec (log_curr_seq d) (log_next_seq st)); [lia|].
  destruct (Z.ltb_spec (log_curr_seq d) (log_first_seq st)); [lia|].
  unfold deliver. cbv zeta.
  destruct (Z.eqb_spec (load 8 (log_buf st) (log_curr_idx d + off_len)) 0);
    [contradiction|].
  fold h. fold r. destruct r as [b1 len1]. cbn [fst snd] in *.
  destruct (Z.ltb_spec count len1); [lia|].
  cbn [negb fst snd buf with_cursor with_user_buf]. split; reflexivity.
Qed.

End Lines.

(** X19: a line that does not fit in the session buffer is cut: when the
    header and the details fit but the path and the text of print_netlog
    do not, the read returns USER_BUFFER_SIZE - 1 bytes, the first
    USER_BUFFER_SIZE - 7 bytes of the whole line followed by TRUNC and a
    new line. *)
Theorem cut_line_ends_in_TRUNC (P : platform) (st : log_state) (d : user_data)
        (nonblock : bool) (count : Z) (p net : list Z) :
  wf_platform P = true ->
  let m := log_buf st in
  let record := log_curr_idx d in
  load 4 m (record + off_type P) = LOG_NETWORK_INTERACTION P ->
  sizeof_netlog_log P <= load 8 m (record + off_len) ->
  (forall size,
      precision_chars m (get_netlog_path P record)
        (to_int (load 8 m (record + off_net_path_len P))) size = p) ->
  netlog_text_of P m record = Some net ->
  log_curr_seq d <> log_next_seq st ->
  log_first_seq st <= log_curr_seq d ->
  let head := line_header P m record (simple_format d)
              ++ details_text_of P m record ++ text " " in
  let full := head ++ p ++ text " " ++ net in
  Z.of_nat (List.length head) <= USER_BUFFER_SIZE P ->
  USER_BUFFER_SIZE P <= Z.of_nat (List.length full) ->
  USER_BUFFER_SIZE P - 1 <= count ->
  fst (secure_log_read P st d nonblock count true)
  = Returns (USER_BUFFER_SIZE P - 1)
      (firstn (Z.to_nat (USER_BUFFER_SIZE P - 7)) full ++ text "TRUNC" ++ [10]).
Proof.
  intros Hwf m record Htype Hlen Hpath Hnet Hseq Hfirst head full Hhead Hcut Hcount.
  pose proof (wf_platform_facts P Hwf) as W.
  pose proof (buffer_facts P W) as F.
  set (h := line_header P m record (simple_format d)).
  assert (R0 : read_bytes (sprintf (buf d) 0 h) 0 (Z.to_nat (Z.of_nat (List.length h)))
               = h).
  { apply (sprintf_extends (buf d) 0 [] h); [lia | reflexivity]. }
  assert (L1 : Z.of_nat (List.length head)
               = Z.of_nat (List.length h)
                 + Z.of_nat (List.length (details_text_of P m record)) + 1).
  { unfold head. fold h. rewrite !length_app.
    cbn [text List.length map list_ascii_of_string]. lia. }
  assert (L2 : Z.of_nat (List.length full)
               = Z.of_nat (List.length head) + Z.of_nat (List.length p) + 1
                 + Z.of_nat (List.length net)).
  { unfold full. rewrite !length_app.
    cbn [text List.length map list_ascii_of_string]. lia. }
  destruct (fill_netlog_record_cut P W m (sprintf (buf d) 0 h)
              (Z.of_nat (List.length h)) record h p net
              Htype Hlen Hpath Hnet ltac:(lia) R0 ltac:(lia) ltac:(lia)) as [S1 S2].
  destruct (read_delivers P st d nonblock count Hseq Hfirst) as [R _].
  - unfold sizeof_netlog_log, sizeof_sec_log in Hlen. fold m record. lia.
  - fold m record h. rewrite S1. exact Hcount.
  - fold m record h in R. rewrite R, S1, S2. unfold full, head. fold h.
    rewrite <- !app_assoc. reflexivity.
Qed.

Lemma cut_line_ends_in_TRUNC_witness :
  fst (secure_log_read demo (do_append demo initial long_record) demo_session
         true 100 true)
  = Returns 63 (text "netlog [    0.000000]: pid " ++ repeat 97 30
                ++ text "TRUNC" ++ [10]).
Proof.
  exact (cut_line_ends_in_TRUNC demo (do_append demo initial long_record)
           demo_session true 100 (repeat 97 32) (text "1 -> 443")
           eq_refl eq_refl ltac:(vm_compute; discriminate) (fun _ => eq_refl)
           eq_refl ltac:(vm_compute; discriminate) ltac:(vm_compute; discriminate)
           ltac:(vm_compute; discriminate) ltac:(vm_compute; discriminate)
           ltac:(vm_compute; discriminate)).
Defined.

(** X20: the line of a network record can take the whole session buffer:
    when the line with its new line has exactly USER_BUFFER_SIZE bytes,
    the read returns all of them, and the NUL that closes the new line is
    stored at buf[USER_BUFFER_SIZE], the byte behind the
    USER_BUFFER_SIZE bytes of buf. *)
Theorem full_line_closing_nul (P : platform) (st : log_state) (d : user_data)
        (nonblock : bool) (count : Z) (p net : list Z) :
  wf_platform P = true ->
  let m := log_buf st in
  let record := log_curr_idx d in
  load 4 m (record + off_type P) = LOG_NETWORK_INTERACTION P ->
  sizeof_netlog_log P <= load 8 m (record + off_len) ->
  (forall size,
      precision_chars m (get_netlog_path P record)
        (to_int (load 8 m (record + off_net_path_len P))) size = p) ->
  netlog_text_of P m record = Some net ->
  log_curr_seq d <> log_next_seq st ->
  log_first_seq st <= log_curr_seq d ->
  let line := line_header P m record (simple_format d)
              ++ details_text_of P m record ++ text " " ++ p ++ text " "
              ++ net ++ [10] in
  Z.of_nat (List.length line) = USER_BUFFER_SIZE P ->
  USER_BUFFER_SIZE P <= count ->
  let r := secure_log_read P st d nonblock count true in
  fst r = Returns (USER_BUFFER_SIZE P) line /\
  buf (snd r) (USER_BUFFER_SIZE P) = 0.
Proof.
  intros Hwf m record Htype Hlen Hpath Hnet Hseq Hfirst line Hfull Hcount.
  pose proof (wf_platform_facts P Hwf) as W. cbv zeta.
  split.
  - rewrite <- Hfull.
    apply (read_netlog_line P W st d nonblock count p net); auto; fold m record line; lia.
  - set (h := line_header P m record (simple_format d)).
    assert (L : Z.of_nat (List.length line)
                = Z.of_nat (List.length h)
                  + Z.of_nat (List.length (details_text_of P m record)) + 1
                  + Z.of_nat (List.length p) + 1 + Z.of_nat (List.length net) + 1).
    { unfold line. fold h. rewrite !length_app.
      cbn [text List.length map list_ascii_of_string]. lia. }
    destruct (fill_netlog_record_fits P W m (sprintf (buf d) 0 h)
                (Z.of_nat (List.length h)) record p net
                Htype Hlen Hpath Hnet ltac:(lia) ltac:(lia)) as [b3 E].
    destruct (read_delivers P st d nonblock count Hseq Hfirst) as [_ R].
    + unfold sizeof_netlog_log, sizeof_sec_log in Hlen.
      pose proof (buffer_facts P W). fold m record. lia.
    + fold m record h. rewrite E. cbn [snd]. lia.
    + fold m record h in R. rewrite R, E. cbn [fst].
      unfold sprintf. rewrite write_bytes_inside
        by (cbn [text List.length map list_ascii_of_string app]; lia).
      match goal with
      | |- nth (Z.to_nat ?x) _ _ = _ => replace x with 1 by lia
      end.
      reflexivity.
Qed.

Lemma full_line_closing_nul_witness :
  let r := secure_log_read (small 512 38)
             (do_append (small 512 38) initial (demo_record 1))
             (with_user_buf (fun _ => 7) demo_session) true 100 true in
  fst r = Returns 38 (text "netlog [    0.000000]: pid a 1 -> 443" ++ [10]) /\
  buf (snd r) 38 = 0.
Proof.
  exact (full_line_closing_nul (small 512 38)
           (do_append (small 512 38) initial (demo_record 1))
           (with_user_buf (fun _ => 7) demo_session) true 100 [97] (text "1 -> 443")
           eq_refl eq_refl ltac:(vm_compute; discriminate) (fun _ => eq_refl)
           eq_refl ltac:(vm_compute; discriminate) ltac:(vm_compute; discriminate)
           eq_refl ltac:(vm_compute; discriminate)).
Defined.

(** *** The fields of a stored record *)

Lemma to_int_u32 (x : Z) : to_int (x mod 2 ^ 32) = to_int x.
Proof.
  unfold to_int. rewrite Zplus_mod_idemp_l. reflexivity.
Qed.

Section Slots.

Variable P : platform.
Hypothesis HD : 0 <= sizeof_current_details P.

Variables (m : mem) (record : Z) (cur path : list Z).
Variables (path_len size action protocol family : Z).
Variables (src_ip : option (list Z)) (src_port : Z).
Variables (dst_ip : option (list Z)) (dst_port : Z).

Ltac layout :=
  unfold get_netlog_path, off_len, off_process, off_type, off_net_path_len,
    off_protocol, off_action, off_family, off_src_port, off_dst_port, off_src,
    off_dst, sizeof_netlog_log, sizeof_sec_log in *.

(** The record up to the write of the family. *)
Let scalars : mem :=
  store 2
    (store 4
       (store 4
          (store 8
             (store 8
                (store 4
                   (write_bytes m (record + off_process)
                      (firstn (Z.to_nat (sizeof_current_details P)) cur))
                   (record + off_type P) (LOG_NETWORK_INTERACTION P))
                (record + off_len) size)
             (record + off_net_path_len P) path_len)
          (record + off_action P) action)
       (record + off_protocol P) protocol)
    (record + off_family P) family.

Lemma scalars_keep_slots (a : Z) (n : nat) :
  record + off_src P <= a -> a + Z.of_nat n <= record + off_dst P + 16 ->
  read_bytes scalars a n = read_bytes m a n.
Proof.
  intros H1 H2. unfold scalars.
  pose proof (firstn_length_bound (sizeof_current_details P) cur).
  rewrite !read_store_other by (layout; lia).
  rewrite read_write_other by (layout; lia).
  reflexivity.
Qed.

(** The source slot once the record is written: what fill_ip left. *)
Lemma src_slot (a : Z) (n : nat) :
  record + off_src P <= a -> a + Z.of_nat n <= record + off_src P + 16 ->
  read_bytes
    (write_netlog_record P m record cur path path_len size action protocol
       family src_ip src_port dst_ip dst_port) a n
  = read_bytes (fill_ip scalars (record + off_src P) src_ip family) a n.
Proof.
  intros H1 H2. unfold write_netlog_record. cbv zeta. fold scalars.
  rewrite read_write_other by (layout; lia).
  rewrite !read_store_other by (layout; lia).
  rewrite read_fill_ip_other by (layout; lia).
  reflexivity.
Qed.

(** The destination slot once the record is written. *)
Lemma dst_slot (a : Z) (n : nat) :
  record + off_dst P <= a -> a + Z.of_nat n <= record + off_dst P + 16 ->
  read_bytes
    (write_netlog_record P m record cur path path_len size action protocol
       family src_ip src_port dst_ip dst_port) a n
  = read_bytes
      (fill_ip (fill_ip scalars (record + off_src P) src_ip family)
         (record + off_dst P) dst_ip family) a n.
Proof.
  intros H1 H2. unfold write_netlog_record. cbv zeta. fold scalars.
  rewrite read_write_other by (layout; lia).
  rewrite !read_store_other by (layout; lia).
  reflexivity.
Qed.

Lemma src_fill_keeps_dst (a : Z) (n : nat) :
  record + off_dst P <= a -> a + Z.of_nat n <= record + off_dst P + 16 ->
  read_bytes (fill_ip scalars (record + off_src P) src_ip family) a n
  = read_bytes m a n.
Proof.
  intros H1 H2.
  rewrite read_fill_ip_other by (layout; lia).
  apply scalars_keep_slots; layout; lia.
Qed.

End Slots.

(** What fill_ip leaves in a slot, by the family: the first bytes are
    the address, the bytes behind an IPv4 address and the whole slot of
    any other family are those the buffer held. *)
Lemma slot_by_family (m0 : mem) (slot : Z) (src : list Z) (family : Z) :
  (family = AF_INET ->
   read_bytes (fill_ip m0 slot (Some src) family) slot (List.length (firstn 4 src))
   = firstn 4 src /\
   read_bytes (fill_ip m0 slot (Some src) family) (slot + 4) 12
   = read_bytes m0 (slot + 4) 12) /\
  (family = AF_INET6 ->
   read_bytes (fill_ip m0 slot (Some src) family) slot (List.length (firstn 16 src))
   = firstn 16 src) /\
  (family <> AF_INET -> family <> AF_INET6 ->
   read_bytes (fill_ip m0 slot (Some src) family) slot 16 = read_bytes m0 slot 16).
Proof.
  unfold fill_ip, copy_ip. split; [|split].
  - intros ->. cbn [Z.eqb AF_INET Pos.eqb]. split; [apply read_write_same|].
    pose proof (firstn_nat_length_bound 4 src).
    apply read_write_other. lia.
  - intros ->. cbn [Z.eqb AF_INET AF_INET6 Pos.eqb]. apply read_write_same.
  - intros H4 H6.
    destruct (Z.eqb_spec family AF_INET); [contradiction|].
    destruct (Z.eqb_spec family AF_INET6); [contradiction|]. reflexivity.
Qed.

(** X21: every field of a stored network record reads back as stored: the
    type, the length, the length of the path, the action, the protocol,
    the family, the two ports, the details of the process and the path
    with its NUL; no write of store_netlog_record overwrites an earlier
    one. *)
Theorem netlog_record_fields_read_back (P : platform) (cur path : list Z)
        (action protocol family : Z) (src_ip : option (list Z)) (src_port : Z)
        (dst_ip : option (list Z)) (dst_port : Z) (st : log_state) :
  wf_platform P = true ->
  let st' := store_netlog_record P cur path action protocol family
               src_ip src_port dst_ip dst_port st in
  let record := log_next_idx (find_new_record_place P (netlog_record_size P path) st) in
  let m := log_buf st' in
  load 4 m (record + off_type P) = LOG_NETWORK_INTERACTION P /\
  load 8 m (record + off_len) = sizeof_netlog_log P + netlog_path_len P path /\
  load 8 m (record + off_net_path_len P) = netlog_path_len P path /\
  load 4 m (record + off_action P) = action mod 2 ^ 32 /\
  load 4 m (record + off_protocol P) = protocol mod 2 ^ 32 /\
  load 2 m (record + off_family P) = family mod 2 ^ 16 /\
  to_int (load 4 m (record + off_src_port P)) = to_int src_port /\
  to_int (load 4 m (record + off_dst_port P)) = to_int dst_port /\
  read_bytes m (record + off_process)
    (List.length (firstn (Z.to_nat (sizeof_current_details P)) cur))
  = firstn (Z.to_nat (sizeof_current_details P)) cur /\
  read_bytes m (get_netlog_path P record)
    (List.length (firstn (Z.to_nat (netlog_path_len P path)) (path ++ [0])))
  = firstn (Z.to_nat (netlog_path_len P path)) (path ++ [0]).
Proof.
  intros Hwf. pose proof (wf_platform_facts P Hwf) as W.
  pose proof (wf_details P W) as HD. pose proof (buffer_facts P W) as F.
  pose proof (netlog_path_len_bounds P W path) as B.
  cbv zeta. split.
  { unfold store_netlog_record. cbn [log_buf with_next with_buf].
    rewrite netlog_type_field by exact HD. apply Z.mod_small. apply (wf_net P W). }
  split; [apply stored_netlog_len; exact W|].
  unfold store_netlog_record. cbn [log_buf with_next with_buf].
  split.
  { rewrite netlog_path_len_field by exact HD. apply Z.mod_small. lia. }
  split; [apply netlog_action_field; exact HD|].
  split; [apply netlog_protocol_field; exact HD|].
  split; [apply netlog_family_field; exact HD|].
  split; [rewrite netlog_src_port_field by exact HD; apply to_int_u32|].
  split; [rewrite netlog_dst_port_field by exact HD; apply to_int_u32|].
  split; [apply netlog_details_bytes; exact HD | apply netlog_path_bytes].
Qed.

Lemma netlog_record_fields_read_back_witness :
  let m := log_buf (do_append demo initial (demo_record 40000)) in
  load 4 m (0 + off_type demo) = 0 /\
  load 8 m (0 + off_len) = 90 /\
  load 8 m (0 + off_net_path_len demo) = 2 /\
  load 4 m (0 + off_action demo) = 1 /\
  load 4 m (0 + off_protocol demo) = 2 /\
  load 2 m (0 + off_family demo) = 2 /\
  to_int (load 4 m (0 + off_src_port demo)) = 40000 /\
  to_int (load 4 m (0 + off_dst_port demo)) = 443 /\
  read_bytes m (0 + off_process) 8 = [1; 0; 0; 0; 0; 0; 0; 0] /\
  read_bytes m (get_netlog_path demo 0) 2 = [97; 0].
Proof.
  exact (netlog_record_fields_read_back demo [1; 0; 0; 0; 0; 0; 0; 0] [97] 1 2
           AF_INET (Some [10; 0; 0; 1]) 40000 None 443 initial eq_refl).
Defined.

(** X22: what store_netlog_record leaves in the two address slots of 16
    bytes, for addresses that are not NULL: for AF_INET the 4 bytes of
    the address, the 12 bytes behind them being those the buffer held
    before the call; for AF_INET6 the 16 bytes of the address; for any
    other family nothing, the slot keeps the 16 bytes the buffer held. *)
Theorem address_slots_by_family (P : platform) (cur path : list Z)
        (action protocol family : Z) (src dst : list Z) (src_port dst_port : Z)
        (st : log_state) :
  wf_platform P = true ->
  let pl := find_new_record_place P (netlog_record_size P path) st in
  let st' := store_netlog_record P cur path action protocol family
               (Some src) src_port (Some dst) dst_port st in
  let record := log_next_idx pl in
  let old := log_buf pl in
  let m := log_buf st' in
  (family = AF_INET ->
   read_bytes m (record + off_src P) (List.length (firstn 4 src)) = firstn 4 src /\
   read_bytes m (record + off_src P + 4) 12 = read_bytes old (record + off_src P + 4) 12 /\
   read_bytes m (record + off_dst P) (List.length (firstn 4 dst)) = firstn 4 dst /\
   read_bytes m (record + off_dst P + 4) 12 = read_bytes old (record + off_dst P + 4) 12) /\
  (family = AF_INET6 ->
   read_bytes m (record + off_src P) (List.length (firstn 16 src)) = firstn 16 src /\
   read_bytes m (record + off_dst P) (List.length (firstn 16 dst)) = firstn 16 dst) /\
  (family <> AF_INET -> family <> AF_INET6 ->
   read_bytes m (record + off_src P) 16 = read_bytes old (record + off_src P) 16 /\
   read_bytes m (record + off_dst P) 16 = read_bytes old (record + off_dst P) 16).
Proof.
  intros Hwf. pose proof (wf_platform_facts P Hwf) as W.
  pose proof (wf_details P W) as HD. cbv zeta.
  unfold store_netlog_record. cbn [log_buf with_next with_buf].
  set (pl := find_new_record_place P (netlog_record_size P path) st).
  set (record := log_next_idx pl).
  set (m0 := log_buf pl).
  pose proof (firstn_nat_length_bound 4 src) as S4.
  pose proof (firstn_nat_length_bound 16 src) as S16.
  pose proof (firstn_nat_length_bound 4 dst) as D4.
  pose proof (firstn_nat_length_bound 16 dst) as D16.
  assert (O : off_dst P = off_src P + 16) by (unfold off_dst, off_src; lia).
  split; [|split].
  - intros E4.
    split; [|split; [|split]].
    + rewrite src_slot by lia.
      apply (slot_by_family _ (record + off_src P) src family). exact E4.
    + rewrite src_slot by lia.
      destruct (slot_by_family
                  (store 2
                     (store 4
                        (store 4
                           (store 8
                              (store 8
                                 (store 4
                                    (write_bytes m0 (record + off_process)
                                       (firstn (Z.to_nat (sizeof_current_details P)) cur))
                                    (record + off_type P) (LOG_NETWORK_INTERACTION P))
                                 (record + off_len) (netlog_record_size P path))
                              (record + off_net_path_len P) (netlog_path_len P path))
                           (record + off_action P) action)
                        (record + off_protocol P) protocol)
                     (record + off_family P) family)
                  (record + off_src P) src family) as [[_ H] _]; [exact E4|].
      rewrite H. apply scalars_keep_slots; [exact HD | lia | lia].
    + rewrite dst_slot by lia.
      apply (slot_by_family _ (record + off_dst P) dst family). exact E4.
    + rewrite dst_slot by lia.
      match goal with
      | |- read_bytes (fill_ip ?M _ _ _) _ _ = _ =>
          destruct (slot_by_family M (record + off_dst P) dst family) as [[_ H] _];
            [exact E4|]
      end.
      rewrite H. apply src_fill_keeps_dst; [exact HD | lia | lia].
  - intros E6. split.
    + rewrite src_slot by lia.
      apply (slot_by_family _ (record + off_src P) src family). exact E6.
    + rewrite dst_slot by lia.
      apply (slot_by_family _ (record + off_dst P) dst family). exact E6.
  - intros N4 N6. split.
    + rewrite src_slot by lia.
      match goal with
      | |- read_bytes (fill_ip ?M _ _ _) _ _ = _ =>
          destruct (slot_by_family M (record + off_src P) src family) as (_ & _ & H)
      end.
      rewrite (H N4 N6). apply scalars_keep_slots; [exact HD | lia | lia].
    + rewrite dst_slot by lia.
      match goal with
      | |- read_bytes (fill_ip ?M _ _ _) _ _ = _ =>
          destruct (slot_by_family M (record + off_dst P) dst family) as (_ & _ & H)
      end.
      rewrite (H N4 N6). apply src_fill_keeps_dst; [exact HD | lia | lia].
Qed.

Lemma address_slots_by_family_witness :
  let st := do_append demo initial (demo_record 1) in
  let st' := store_netlog_record demo [1; 0; 0; 0; 0; 0; 0; 0] [97] 1 2 AF_INET
               (Some [10; 0; 0; 2]) 40000 (Some [10; 0; 0; 1]) 443 st in
  read_bytes (log_buf st') (90 + off_src demo) 4 = [10; 0; 0; 2] /\
  read_bytes (log_buf st') (90 + off_src demo + 4) 12
  = read_bytes (log_buf st) (90 + off_src demo + 4) 12.
Proof.
  destruct (address_slots_by_family demo [1; 0; 0; 0; 0; 0; 0; 0] [97] 1 2 AF_INET
              [10; 0; 0; 2] [10; 0; 0; 1] 40000 443
              (do_append demo initial (demo_record 1)) eq_refl) as [H _].
  destruct (H eq_refl) as (H1 & H2 & _).
  split; [exact H1 | exact H2].
Defined.

(** *** Reading back what was stored *)

(** A C string in memory, read with a precision that covers it. *)
Lemma chars_of_string (m : mem) (at_ : Z) (p : list Z) :
  forallb (fun x => negb (x =? 0)) p = true ->
  read_bytes m at_ (List.length p + 1) = p ++ [0] ->
  chars m at_ (List.length p + 1) = p.
Proof.
  intros Hnz Hr. rewrite read_bytes_app in Hr. cbn [read_bytes] in Hr.
  assert (L : List.length (read_bytes m at_ (List.length p)) = List.length p)
    by apply read_bytes_length.
  apply app_inj_tail in Hr. destruct Hr as [H1 H2].
  apply chars_until_nul; [exact Hnz | exact H1 | exact H2 | lia].
Qed.

(** The line of a network record whose path was stored whole. *)
Lemma stored_path_line (P : platform) (cur path : list Z)
        (action protocol family : Z) (src_ip : option (list Z)) (src_port : Z)
        (dst_ip : option (list Z)) (dst_port : Z) (st : log_state)
        (d : user_data) (nonblock : bool) (count : Z) (net : list Z) :
  wf_platform P = true ->
  forallb (fun x => negb (x =? 0)) path = true ->
  Z.of_nat (List.length path) + 1 <= Z.shiftr (LOG_BUF_LEN P) 4 ->
  let st' := store_netlog_record P cur path action protocol family
               src_ip src_port dst_ip dst_port st in
  let record := log_next_idx (find_new_record_place P (netlog_record_size P path) st) in
  log_curr_idx d = record ->
  log_curr_seq d <> log_next_seq st' ->
  log_first_seq st' <= log_curr_seq d ->
  netlog_text_of P (log_buf st') record = Some net ->
  let line := line_header P (log_buf st') record (simple_format d)
              ++ details_text_of P (log_buf st') record ++ text " "
              ++ path ++ text " " ++ net ++ [10] in
  Z.of_nat (List.length line) <= USER_BUFFER_SIZE P ->
  Z.of_nat (List.length line) <= count ->
  load 8 (log_buf st') (record + off_net_path_len P)
  = Z.of_nat (List.length path) + 1 /\
  read_bytes (log_buf st') (get_netlog_path P record) (List.length path + 1)
  = path ++ [0] /\
  fst (secure_log_read P st' d nonblock count true)
  = Returns (Z.of_nat (List.length line)) line.
Proof.
  intros Hwf Hnz Hshort st' record Hidx Hseq Hfirst Hnet line Hfit Hcount.
  pose proof (wf_platform_facts P Hwf) as W.
  pose proof (buffer_facts P W) as F.
  assert (Hcap : Z.shiftr (LOG_BUF_LEN P) 4 = LOG_BUF_LEN P / 16).
  { rewrite Z.shiftr_div_pow2 by lia. reflexivity. }
  assert (Hcap' : 0 <= LOG_BUF_LEN P / 16 < 2 ^ 31).
  { pose proof (Z.div_mod (LOG_BUF_LEN P) 16 ltac:(lia)).
    pose proof (Z.mod_pos_bound (LOG_BUF_LEN P) 16 ltac:(lia)). lia. }
  assert (Hpl : netlog_path_len P path = Z.of_nat (List.length path) + 1).
  { unfold netlog_path_len, capped, INT_MAX. rewrite Hcap.
    unfold u64. rewrite Z.mod_small by lia.
    destruct (Z.ltb_spec (LOG_BUF_LEN P / 16) (Z.of_nat (List.length path) + 1));
      [lia|].
    destruct (Z.ltb_spec (2 ^ 31 - 1) (Z.of_nat (List.length path) + 1)); [lia|].
    reflexivity. }
  assert (Hpath_len : load 8 (log_buf st') (record + off_net_path_len P)
                      = Z.of_nat (List.length path) + 1).
  { unfold st', store_netlog_record. cbn [log_buf with_next with_buf].
    rewrite netlog_path_len_field by apply (wf_details P W).
    rewrite Hpl. apply Z.mod_small. lia. }
  split; [exact Hpath_len|].
  assert (Hbytes : read_bytes (log_buf st') (get_netlog_path P record)
                     (List.length path + 1) = path ++ [0]).
  { assert (E : firstn (Z.to_nat (netlog_path_len P path)) (path ++ [0]) = path ++ [0]).
    { apply firstn_all2. rewrite length_app. cbn [List.length]. lia. }
    assert (L : List.length (firstn (Z.to_nat (netlog_path_len P path)) (path ++ [0]))
                = (List.length path + 1)%nat).
    { rewrite E, length_app. reflexivity. }
    unfold st', store_netlog_record. cbn [log_buf with_next with_buf].
    rewrite <- L. etransitivity; [apply netlog_path_bytes | exact E]. }
  split; [exact Hbytes|].
  pose proof (read_netlog_line P W st' d nonblock count path net) as R.
  cbv zeta in R. rewrite Hidx in R. apply R; try assumption.
  - unfold st', store_netlog_record. cbn [log_buf with_next with_buf].
    rewrite netlog_type_field by apply (wf_details P W).
    apply Z.mod_small. apply (wf_net P W).
  - unfold st', record. rewrite stored_netlog_len by exact W. rewrite Hpl. lia.
  - intros size. unfold precision_chars. rewrite Hpath_len.
    rewrite to_int_small by lia.
    destruct (Z.ltb_spec (Z.of_nat (List.length path) + 1) 0); [lia|].
    replace (Z.to_nat (Z.of_nat (List.length path) + 1))
      with (List.length path + 1)%nat by lia.
    apply chars_of_string; assumption.
Qed.

(** X23: a path that fits is stored and rendered whole: store_netlog_record
    keeps a path of less than LOG_BUF_LEN >> 4 bytes with its NUL, and
    the read at the record returns the line made of the header, the
    details of the process, the path, the text of print_netlog and a new
    line, when the line fits in the session buffer and in the buffer of
    the caller. *)
Theorem whole_path_rendered (P : platform) (cur path : list Z)
        (action protocol family : Z) (src_ip : option (list Z)) (src_port : Z)
        (dst_ip : option (list Z)) (dst_port : Z) (st : log_state)
        (d : user_data) (nonblock : bool) (count : Z) (net : list Z) :
  wf_platform P = true ->
  forallb (fun x => negb (x =? 0)) path = true ->
  Z.of_nat (List.length path) + 1 <= Z.shiftr (LOG_BUF_LEN P) 4 ->
  let st' := store_netlog_record P cur path action protocol family
               src_ip src_port dst_ip dst_port st in
  let record := log_next_idx (find_new_record_place P (netlog_record_size P path) st) in
  log_curr_idx d = record ->
  log_curr_seq d <> log_next_seq st' ->
  log_first_seq st' <= log_curr_seq d ->
  netlog_text_of P (log_buf st') record = Some net ->
  let line := line_header P (log_buf st') record (simple_format d)
              ++ details_text_of P (log_buf st') record ++ text " "
              ++ path ++ text " " ++ net ++ [10] in
  Z.of_nat (List.length line) <= USER_BUFFER_SIZE P ->
  Z.of_nat (List.length line) <= count ->
  load 8 (log_buf st') (record + off_net_path_len P)
  = Z.of_nat (List.length path) + 1 /\
  read_bytes (log_buf st') (get_netlog_path P record) (List.length path + 1)
  = path ++ [0] /\
  fst (secure_log_read P st' d nonblock count true)
  = Returns (Z.of_nat (List.length line)) line.
Proof.
  exact (stored_path_line P cur path action protocol family src_ip src_port
           dst_ip dst_port st d nonblock count net).
Qed.


Lemma whole_path_rendered_witness :
  let st' := do_append demo initial (demo_record 40000) in
  load 8 (log_buf st') (0 + off_net_path_len demo) = 2 /\
  read_bytes (log_buf st') (get_netlog_path demo 0) 2 = [97; 0] /\
  fst (secure_log_read demo st' demo_session true 100 true)
  = Returns 42 (text "netlog [    0.000000]: pid a 40000 -> 443" ++ [10]).
Proof.
  exact (whole_path_rendered demo [1; 0; 0; 0; 0; 0; 0; 0] [97] 1 2
           AF_INET (Some [10; 0; 0; 1]) 40000 None 443 initial demo_session true 100
           (text "40000 -> 443")
           eq_refl eq_refl ltac:(vm_compute; discriminate) eq_refl
           ltac:(vm_compute; discriminate) ltac:(vm_compute; discriminate)
           eq_refl ltac:(vm_compute; discriminate) ltac:(vm_compute; discriminate)).
Defined.

(** *** Execution records *)

Section ExecFields.

Variable P : platform.
Hypothesis HD : 0 <= sizeof_current_details P.

Variables (m : mem) (record : Z) (cur path argv : list Z).
Variables (path_len argv_size size : Z).
Hypothesis Hpath : 0 <= path_len < 2 ^ 64.
Hypothesis Hargv : 0 <= argv_size.

Let m' : mem :=
  write_execlog_record P m record cur path argv path_len argv_size size.

Ltac layout :=
  unfold get_execlog_path, off_len, off_process, off_type, off_exec_path_len,
    off_argv_len, sizeof_execlog_log, sizeof_sec_log in *.

Ltac written :=
  unfold m', write_execlog_record; cbv zeta; rewrite execlog_argv_place by exact Hpath;
  pose proof (firstn_length_bound (sizeof_current_details P) cur);
  pose proof (firstn_length_bound path_len (path ++ [0]));
  pose proof (firstn_length_bound argv_size argv).

Lemma execlog_type_field :
  load 4 m' (record + off_type P) = LOG_EXECUTION P mod 2 ^ 32.
Proof.
  written.
  rewrite load_write_other by (layout; lia).
  rewrite load_store_other by (layout; lia).
  rewrite load_write_other by (layout; lia).
  rewrite !load_store_other by (layout; lia).
  apply load_store_same.
Qed.

Lemma execlog_path_len_field :
  load 8 m' (record + off_exec_path_len P) = path_len.
Proof.
  written.
  rewrite load_write_other by (layout; lia).
  rewrite load_store_other by (layout; lia).
  rewrite load_write_other by (layout; lia).
  rewrite load_store_same. change (2 ^ (8 * Z.of_nat 8)) with (2 ^ 64).
  apply Z.mod_small. exact Hpath.
Qed.

Lemma execlog_argv_len_field :
  load 8 m' (record + off_argv_len P) = argv_size mod 2 ^ 64.
Proof.
  written.
  rewrite load_write_other by (layout; lia).
  apply load_store_same.
Qed.

Lemma execlog_path_bytes :
  read_bytes m' (get_execlog_path P record)
    (List.length (firstn (Z.to_nat path_len) (path ++ [0])))
  = firstn (Z.to_nat path_len) (path ++ [0]).
Proof.
  written.
  rewrite read_write_other by (layout; lia).
  rewrite read_store_other by (layout; lia).
  apply read_write_same.
Qed.

Lemma execlog_argv_bytes :
  read_bytes m' (get_execlog_argv P m' record)
    (List.length (firstn (Z.to_nat argv_size) argv))
  = firstn (Z.to_nat argv_size) argv.
Proof.
  unfold get_execlog_argv. rewrite execlog_path_len_field.
  written. apply read_write_same.
Qed.

End ExecFields.

Section ExecLines.

Variable P : platform.
Hypothesis W : wf_facts P.

(** execlog_print on a path and arguments that fit. *)
Lemma execlog_print_fits (m b : mem) (len record : Z) (p q : list Z) :
  sizeof_execlog_log P <= load 8 m (record + off_len) ->
  (forall size,
      precision_chars m (get_execlog_path P record)
        (to_int (load 8 m (record + off_exec_path_len P))) size = p) ->
  (forall size,
      precision_chars m (get_execlog_argv P m record)
        (to_int (load 8 m (record + off_argv_len P))) size = q) ->
  0 <= len ->
  len + Z.of_nat (List.length p) + 1 + Z.of_nat (List.length q)
  < USER_BUFFER_SIZE P ->
  execlog_print P m record b len
  = (sprintf b len (p ++ text " " ++ q),
     len + Z.of_nat (List.length p) + 1 + Z.of_nat (List.length q)).
Proof.
  intros Hlen Hpath Hargv H0 Hfit. pose proof (wf_user P W) as HU.
  assert (L : Z.of_nat (List.length (p ++ text " " ++ q))
              = Z.of_nat (List.length p) + 1 + Z.of_nat (List.length q)).
  { rewrite !length_app. cbn [text List.length map list_ascii_of_string]. lia. }
  unfold execlog_print. cbv zeta.
  destruct (Z.ltb_spec (load 8 m (record + off_len)) (sizeof_execlog_log P)); [lia|].
  rewrite Hpath, Hargv. rewrite (u64_small (USER_BUFFER_SIZE P - len)) by lia.
  unfold UPDATE_POINTERS. rewrite L.
  destruct (Z.leb_spec (USER_BUFFER_SIZE P - len)
              (Z.of_nat (List.length p) + 1 + Z.of_nat (List.length q))); [lia|].
  rewrite snprintf_fits by lia. rewrite u64_small by lia.
  f_equal. lia.
Qed.

(** The read that delivers an execution record whose line is not
    cut. *)
Lemma read_execlog_line (st : log_state) (d : user_data) (nonblock : bool)
      (count : Z) (p q : list Z) :
  let m := log_buf st in
  let record := log_curr_idx d in
  load 4 m (record + off_type P) = LOG_EXECUTION P ->
  sizeof_execlog_log P <= load 8 m (record + off_len) ->
  (forall size,
      precision_chars m (get_execlog_path P record)
        (to_int (load 8 m (record + off_exec_path_len P))) size = p) ->
  (forall size,
      precision_chars m (get_execlog_argv P m record)
        (to_int (load 8 m (record + off_argv_len P))) size = q) ->
  log_curr_seq d <> log_next_seq st ->
  log_first_seq st <= log_curr_seq d ->
  let line := line_header P m record (simple_format d)
              ++ details_text_of P m record ++ text " " ++ p ++ text " "
              ++ q ++ [10] in
  Z.of_nat (List.length line) <= USER_BUFFER_SIZE P ->
  Z.of_nat (List.length line) <= count ->
  fst (secure_log_read P st d nonblock count true)
  = Returns (Z.of_nat (List.length line)) line.
Proof.
  intros m record Htype Hlen Hpath Hargv Hseq Hfirst line Hfit Hcount.
  pose proof (buffer_facts P W) as F. pose proof (wf_user P W) as HU.
  set (h := line_header P m record (simple_format d)).
  set (det := details_text_of P m record).
  assert (L : Z.of_nat (List.length line)
              = Z.of_nat (List.length h) + Z.of_nat (List.length det) + 1
                + Z.of_nat (List.length p) + 1 + Z.of_nat (List.length q) + 1).
  { unfold line. fold h det. rewrite !length_app.
    cbn [text List.length map list_ascii_of_string]. lia. }
  assert (R0 : read_bytes (sprintf (buf d) 0 h) 0 (Z.to_nat (Z.of_nat (List.length h)))
               = h).
  { apply (sprintf_extends (buf d) 0 [] h); [lia | reflexivity]. }
  set (len1 := Z.of_nat (List.length h) + (Z.of_nat (List.length det) + 1)).
  set (total := len1 + Z.of_nat (List.length p) + 1 + Z.of_nat (List.length q)).
  assert (E : secure_log_read_fill_record P m (sprintf (buf d) 0 h)
                (Z.of_nat (List.length h)) record
              = (sprintf
                   (sprintf (sprintf (sprintf (buf d) 0 h) (Z.of_nat (List.length h))
                               (det ++ text " "))
                      len1 (p ++ text " " ++ q))
                   total (text (String "010"%char EmptyString)),
                 total + 1)).
  { unfold secure_log_read_fill_record. cbv zeta. fold det.
    rewrite Htype.
    destruct (Z.eqb_spec (LOG_EXECUTION P) (LOG_NETWORK_INTERACTION P)) as [X|_].
    { pose proof (wf_types P W). congruence. }
    rewrite Z.eqb_refl, text_length_1.
    rewrite (u64_small (Z.of_nat (List.length h) + (Z.of_nat (List.length det) + 1)))
      by lia.
    fold len1.
    rewrite (execlog_print_fits m _ len1 record p q)
      by (auto; unfold len1; lia).
    fold total.
    destruct (Z.eqb_spec total 0); [unfold total, len1 in *; lia|].
    rewrite u64_small by (unfold total, len1; lia). reflexivity. }
  destruct (read_delivers P st d nonblock count Hseq Hfirst) as [R _].
  - unfold sizeof_execlog_log, sizeof_sec_log in Hlen. fold m record. lia.
  - fold m record h. rewrite E. cbn [snd]. unfold total, len1. lia.
  - fold m record h in R. rewrite R, E. cbn [fst snd].
    replace (total + 1) with (Z.of_nat (List.length line))
      by (unfold total, len1; lia).
    f_equal.
    assert (R1 : read_bytes (sprintf (sprintf (buf d) 0 h) (Z.of_nat (List.length h))
                               (det ++ text " ")) 0 (Z.to_nat len1)
                 = h ++ det ++ text " ").
    { unfold len1. rewrite <- text_length_1.
      apply sprintf_extends; [lia | exact R0]. }
    assert (L2 : Z.of_nat (List.length (p ++ text " " ++ q))
                 = Z.of_nat (List.length p) + 1 + Z.of_nat (List.length q)).
    { rewrite !length_app. cbn [text List.length map list_ascii_of_string]. lia. }
    pose proof (sprintf_extends _ len1 _ (p ++ text " " ++ q)
                  ltac:(unfold len1; lia) R1) as R2.
    rewrite L2 in R2.
    replace (len1 + (Z.of_nat (List.length p) + 1 + Z.of_nat (List.length q)))
      with total in R2 by (unfold total; lia).
    pose proof (sprintf_extends _ total _ (text (String "010"%char EmptyString))
                  ltac:(unfold total, len1; lia) R2) as R3.
    change (Z.of_nat (List.length (text (String "010"%char EmptyString))))
      with 1 in R3.
    replace (Z.of_nat (List.length line)) with (total + 1)
      by (unfold total, len1; lia).
    rewrite R3. unfold line. fold h det. rewrite <- !app_assoc. reflexivity.
Qed.

End ExecLines.

(** X24: an execution record is read back as it was stored: for a path and
    an argument block without NUL that pass neither LOG_BUF_LEN >> 5,
    store_execlog_record keeps both, the arguments right behind the NUL
    of the path, and the read at the record returns the line made of the
    header, the details of the process, the path, the arguments and a
    new line, when the line fits in the session buffer and in the buffer
    of the caller. *)
Theorem execlog_record_read_back (P : platform) (cur path argv : list Z)
        (st : log_state) (d : user_data) (nonblock : bool) (count : Z) :
  wf_platform P = true ->
  forallb (fun x => negb (x =? 0)) path = true ->
  forallb (fun x => negb (x =? 0)) argv = true ->
  Z.of_nat (List.length path) + 1 <= Z.shiftr (LOG_BUF_LEN P) 5 ->
  Z.of_nat (List.length argv) <= Z.shiftr (LOG_BUF_LEN P) 5 ->
  let argv_size := Z.of_nat (List.length argv) in
  let st' := store_execlog_record P cur path argv argv_size st in
  let record :=
    log_next_idx (find_new_record_place P (execlog_record_size P path argv_size) st) in
  log_curr_idx d = record ->
  log_curr_seq d <> log_next_seq st' ->
  log_first_seq st' <= log_curr_seq d ->
  let line := line_header P (log_buf st') record (simple_format d)
              ++ details_text_of P (log_buf st') record ++ text " "
              ++ path ++ text " " ++ argv ++ [10] in
  Z.of_nat (List.length line) <= USER_BUFFER_SIZE P ->
  Z.of_nat (List.length line) <= count ->
  load 8 (log_buf st') (record + off_len)
  = sizeof_execlog_log P + Z.of_nat (List.length path) + 1
    + Z.of_nat (List.length argv) /\
  get_execlog_argv P (log_buf st') record
  = get_execlog_path P record + Z.of_nat (List.length path) + 1 /\
  fst (secure_log_read P st' d nonblock count true)
  = Returns (Z.of_nat (List.length line)) line.
Proof.
  intros Hwf Hnzp Hnza Hshort Hargs argv_size st' record Hidx Hseq Hfirst line
    Hfit Hcount.
  pose proof (wf_platform_facts P Hwf) as W.
  pose proof (buffer_facts P W) as F. pose proof (wf_details P W) as HD.
  assert (Hcap : Z.shiftr (LOG_BUF_LEN P) 5 = LOG_BUF_LEN P / 32).
  { rewrite Z.shiftr_div_pow2 by lia. reflexivity. }
  assert (Hcap' : 0 <= LOG_BUF_LEN P / 32 < 2 ^ 31).
  { pose proof (Z.div_mod (LOG_BUF_LEN P) 32 ltac:(lia)).
    pose proof (Z.mod_pos_bound (LOG_BUF_LEN P) 32 ltac:(lia)). lia. }
  rewrite Hcap in *.
  assert (Hpl : execlog_path_len P path = Z.of_nat (List.length path) + 1).
  { unfold execlog_path_len, capped, INT_MAX. rewrite Hcap.
    unfold u64. rewrite Z.mod_small by lia.
    destruct (Z.ltb_spec (LOG_BUF_LEN P / 32) (Z.of_nat (List.length path) + 1));
      [lia|].
    destruct (Z.ltb_spec (2 ^ 31 - 1) (Z.of_nat (List.length path) + 1)); [lia|].
    reflexivity. }
  assert (Hal : capped P 5 argv_size = argv_size).
  { unfold capped, INT_MAX, argv_size. rewrite Hcap.
    destruct (Z.ltb_spec (LOG_BUF_LEN P / 32) (Z.of_nat (List.length argv))); [lia|].
    destruct (Z.ltb_spec (2 ^ 31 - 1) (Z.of_nat (List.length argv))); [lia|].
    reflexivity. }
  assert (Hsize : execlog_record_size P path argv_size
                  = sizeof_execlog_log P + Z.of_nat (List.length path) + 1
                    + Z.of_nat (List.length argv)).
  { rewrite (execlog_record_size_eq P W) by (unfold argv_size; lia).
    rewrite Hpl, Hal. unfold argv_size. lia. }
  assert (M : log_buf st'
              = write_execlog_record P
                  (log_buf (find_new_record_place P
                              (execlog_record_size P path argv_size) st))
                  record cur path argv (execlog_path_len P path)
                  (capped P 5 argv_size) (execlog_record_size P path argv_size))
    by reflexivity.
  assert (Hlen : load 8 (log_buf st') (record + off_len)
                 = sizeof_execlog_log P + Z.of_nat (List.length path) + 1
                   + Z.of_nat (List.length argv)).
  { rewrite M, execlog_len_field by (auto; rewrite Hpl; lia).
    rewrite Hsize. apply Z.mod_small.
    unfold sizeof_execlog_log, sizeof_sec_log. lia. }
  assert (Hplen : load 8 (log_buf st') (record + off_exec_path_len P)
                  = Z.of_nat (List.length path) + 1).
  { rewrite M, execlog_path_len_field by (auto; rewrite ?Hpl, ?Hal; unfold argv_size; lia).
    exact Hpl. }
  assert (Halen : load 8 (log_buf st') (record + off_argv_len P)
                  = Z.of_nat (List.length argv)).
  { rewrite M, execlog_argv_len_field by (auto; rewrite ?Hpl, ?Hal; unfold argv_size; lia).
    rewrite Hal. unfold argv_size. apply Z.mod_small. lia. }
  assert (Hplace : get_execlog_argv P (log_buf st') record
                   = get_execlog_path P record + Z.of_nat (List.length path) + 1).
  { unfold get_execlog_argv, get_execlog_path. rewrite Hplen. lia. }
  split; [exact Hlen|]. split; [exact Hplace|].
  pose proof (read_execlog_line P W st' d nonblock count path argv) as R.
  cbv zeta in R. rewrite Hidx in R. apply R; try assumption.
  - rewrite M, execlog_type_field by (auto; rewrite ?Hpl, ?Hal; unfold argv_size; lia).
    apply Z.mod_small. apply (wf_exec P W).
  - rewrite Hlen. lia.
  - intros size. unfold precision_chars. rewrite Hplen.
    rewrite to_int_small by lia.
    destruct (Z.ltb_spec (Z.of_nat (List.length path) + 1) 0); [lia|].
    replace (Z.to_nat (Z.of_nat (List.length path) + 1))
      with (List.length path + 1)%nat by lia.
    apply chars_of_string; [exact Hnzp|].
    assert (E : firstn (Z.to_nat (execlog_path_len P path)) (path ++ [0]) = path ++ [0]).
    { apply firstn_all2. rewrite length_app. cbn [List.length]. lia. }
    assert (L : List.length (firstn (Z.to_nat (execlog_path_len P path)) (path ++ [0]))
                = (List.length path + 1)%nat).
    { rewrite E, length_app. reflexivity. }
    rewrite <- L, M.
    etransitivity;
      [apply execlog_path_bytes; auto; rewrite ?Hpl, ?Hal; unfold argv_size; lia
      | exact E].
  - intros size. unfold precision_chars. rewrite Halen.
    rewrite to_int_small by lia.
    destruct (Z.ltb_spec (Z.of_nat (List.length argv)) 0); [lia|].
    rewrite Nat2Z.id.
    assert (E : firstn (Z.to_nat (capped P 5 argv_size)) argv = argv).
    { apply firstn_all2. rewrite Hal. unfold argv_size. lia. }
    assert (B : read_bytes (log_buf st') (get_execlog_argv P (log_buf st') record)
                  (List.length argv) = argv).
    { pose proof (execlog_argv_bytes P
                    (log_buf (find_new_record_place P
                                (execlog_record_size P path argv_size) st))
                    record cur path argv (execlog_path_len P path)
                    (capped P 5 argv_size) (execlog_record_size P path argv_size)
                    ltac:(rewrite Hpl; lia)) as X.
      rewrite <- M, E in X. exact X. }
    rewrite chars_read; rewrite B; [reflexivity | exact Hnza].
Qed.

Lemma execlog_record_read_back_witness :
  let st' := do_append demo initial demo_exec in
  load 8 (log_buf st') (0 + off_len) = 46 /\
  get_execlog_argv demo (log_buf st') 0 = get_execlog_path demo 0 + 1 + 1 /\
  fst (secure_log_read demo st' demo_session true 100 true)
  = Returns 35 (text "execlog [    0.000000]: pid a a -l" ++ [10]).
Proof.
  exact (execlog_record_read_back demo [1; 0; 0; 0; 0; 0; 0; 0] [97] [97; 32; 45; 108]
           initial demo_session true 100
           eq_refl eq_refl eq_refl ltac:(vm_compute; discriminate)
           ltac:(vm_compute; discriminate) eq_refl
           ltac:(vm_compute; discriminate) ltac:(vm_compute; discriminate)
           ltac:(vm_compute; discriminate) ltac:(vm_compute; discriminate)).
Defined.

(** *** Capacity *)

(** X25: appends that stay within the capacity drop nothing: when the
    sizes of the records, with 8 bytes of alignment and a header, stay
    below LOG_BUF_LEN, no append of the sequence drops a record, the
    oldest record stays at the index 0 with the sequence number 0, and
    the records lie back to back up to the write offset, which is the sum
    of their sizes. *)
Theorem appends_within_capacity_drop_nothing (P : platform) (l : list append) :
  wf_platform P = true ->
  forallb valid_append l = true ->
  total_size P l + 8 + sizeof_sec_log P < LOG_BUF_LEN P ->
  let st := do_appends P l initial in
  no_eviction P l initial = true /\
  log_first_seq st = 0 /\ log_first_idx st = 0 /\
  log_next_seq st = Z.of_nat (List.length l) /\
  log_next_idx st = total_size P l /\
  chain (log_buf st) 0 (List.length l) (total_size P l).
Proof.
  intros Hwf Hv Hfit. pose proof (wf_platform_facts P Hwf) as W. cbv zeta.
  destruct (fitting_appends_drop_nothing P W l Hv Hfit) as [Hn Hi].
  destruct (appends_filled P W l Hv Hn) as [[F1 F2 F3 F4 F5] _].
  rewrite Hi in F5. auto 7.
Qed.

Lemma appends_within_capacity_drop_nothing_witness :
  let l := map demo_record [1; 2; 3; 4; 5] in
  let st := do_appends demo l initial in
  no_eviction demo l initial = true /\
  log_first_seq st = 0 /\ log_first_idx st = 0 /\
  log_next_seq st = 5 /\ log_next_idx st = 450 /\
  chain (log_buf st) 0 5 450.
Proof.
  exact (appends_within_capacity_drop_nothing demo (map demo_record [1; 2; 3; 4; 5])
           eq_refl eq_refl ltac:(vm_compute; reflexivity)).
Defined.

End SecureLogLaws.

(** ** Facts on the creation of the device *)

Module DeviceFacts.
Import Device.

(** X27: init_secure_dev creates all of its objects or none: it returns 0
    with the class, the region, the character device and the device
    created, or the negative answer of the call that failed with every
    object created before it destroyed again; destroy_secure_dev leaves
    none of them. *)
Theorem init_secure_dev_all_or_nothing (k : answers) :
  let r := init_secure_dev k nothing in
  ((fst r = 0 /\ forall o, snd r o = true)
   \/ (fst r < 0 /\ In (fst r) [class_create k; alloc_chrdev_region k;
                                 cdev_add k; device_create k]
       /\ forall o, snd r o = false)) /\
  (forall o, destroy_secure_dev (snd r) o = false).
Proof.
  cbv zeta. unfold init_secure_dev, IS_ERR, PTR_ERR. cbv zeta.
  destruct (Z.leb_spec (-4095) (class_create k));
    destruct (Z.ltb_spec (class_create k) 0); cbn [andb fst snd];
    try (split; [right; split; [lia|]; split; [cbn [In]; tauto|]; intros []; reflexivity
                | intros []; reflexivity]);
    (destruct (Z.ltb_spec (alloc_chrdev_region k) 0); cbn [fst snd];
     [split; [right; split; [lia|]; split; [cbn [In]; tauto|]; intros []; reflexivity
             | intros []; reflexivity]|]);
    (destruct (Z.ltb_spec (cdev_add k) 0); cbn [fst snd];
     [split; [right; split; [lia|]; split; [cbn [In]; tauto|]; intros []; reflexivity
             | intros []; reflexivity]|]);
    destruct (Z.leb_spec (-4095) (device_create k));
    destruct (Z.ltb_spec (device_create k) 0); cbn [andb fst snd];
    try (split; [right; split; [lia|]; split; [cbn [In]; tauto|]; intros []; reflexivity
                | intros []; reflexivity]);
    (split; [left; split; [reflexivity|]; intros []; reflexivity
            | intros []; reflexivity]).
Qed.

End DeviceFacts.

(** ** From a probe to a line of the device *)

Module EndToEnd.
Import NetlogProbes.

(** X28: a connect that the exit handler of inet_stream_connect logs is
    read from the device: for a TCP socket of the family AF_INET or
    AF_INET6 left in match_socket by the entry handler, a path of the
    executable that is resolved, not whitelisted and fits, the handler
    appends one record and empties the slot, and the read at that record
    returns the line that holds the path and the text print_netlog gives
    for the record. *)
Theorem connect_is_read_back (c : Probes.probes_h) (N : netlog_h)
        (P : SecureLog.platform) (K : kernel) (s : sock) (path : list Z)
        (st : state) (d : SecureLog.user_data) (nonblock : bool) (count : Z)
        (net : list Z) :
  SecureLog.wf_platform P = true ->
  match_socket st (pid (current K)) <> NULL ->
  sk (socket_at K (match_socket st (pid (current K)))) = Some s ->
  is_inet s = true ->
  sk_protocol s = IPPROTO_TCP ->
  path_from_mm (mm (current K)) (MAX_EXEC_PATH N) = Some path ->
  WHITELISTING N
  && is_whitelisted N path (sk_family s) (dst_ip_of s) (ntohs (DPORT s)) = false ->
  forallb (fun x => negb (x =? 0)) path = true ->
  Z.of_nat (List.length path) + 1 <= Z.shiftr (SecureLog.LOG_BUF_LEN P) 4 ->
  let st' := handle c N P st (K, Post_inet_stream_connect) in
  let record :=
    SecureLog.log_next_idx
      (SecureLog.find_new_record_place P (SecureLog.netlog_record_size P path)
         (log st)) in
  SecureLog.log_curr_idx d = record ->
  SecureLog.log_curr_seq d <> SecureLog.log_next_seq (log st') ->
  SecureLog.log_first_seq (log st') <= SecureLog.log_curr_seq d ->
  SecureLog.netlog_text_of P (SecureLog.log_buf (log st')) record = Some net ->
  let line :=
    SecureLog.line_header P (SecureLog.log_buf (log st')) record
      (SecureLog.simple_format d)
    ++ SecureLog.details_text_of P (SecureLog.log_buf (log st')) record
    ++ SecureLog.text " " ++ path ++ SecureLog.text " " ++ net ++ [10] in
  Z.of_nat (List.length line) <= SecureLog.USER_BUFFER_SIZE P ->
  Z.of_nat (List.length line) <= count ->
  log st'
  = SecureLog.store_netlog_record P (details K) path (u8 (ACTION_CONNECT N))
      (u8 (PROTO_TCP N)) (sk_family s) (src_ip_of s) (ntohs (SPORT s))
      (dst_ip_of s) (ntohs (DPORT s)) (log st) /\
  match_socket st' (pid (current K)) = NULL /\
  fst (SecureLog.secure_log_read P (log st') d nonblock count true)
  = SecureLog.Returns (Z.of_nat (List.length line)) line.
Proof.
  intros Hwf Hsock Hsk Hinet Hproto Hpath Hwl Hnz Hshort st'.
  assert (L : log st'
              = SecureLog.store_netlog_record P (details K) path
                  (u8 (ACTION_CONNECT N)) (u8 (PROTO_TCP N)) (sk_family s)
                  (src_ip_of s) (ntohs (SPORT s)) (dst_ip_of s) (ntohs (DPORT s))
                  (log st)).
  { unfold st'. cbn [handle fst snd]. unfold post_inet_stream_connect. cbv zeta.
    destruct (Z.eqb_spec (match_socket st (pid (current K))) NULL); [contradiction|].
    cbn [log set_match]. unfold log_inet. rewrite Hsk, Hinet, Hproto, Z.eqb_refl.
    cbn [andb log with_log]. unfold log_if_not_whitelisted. cbv zeta.
    rewrite Hpath, Hwl. reflexivity. }
  intros record Hidx Hseq Hfirst Hnet line Hfit Hcount.
  split; [exact L|].
  split; [unfold st'; cbn [handle fst snd]; apply NetlogProbesFacts.slot_cleared|].
  revert Hseq Hfirst Hnet line Hfit Hcount. rewrite L.
  intros Hseq Hfirst Hnet line Hfit Hcount.
  apply (SecureLogLaws.stored_path_line P (details K) path (u8 (ACTION_CONNECT N))
           (u8 (PROTO_TCP N)) (sk_family s) (src_ip_of s) (ntohs (SPORT s))
           (dst_ip_of s) (ntohs (DPORT s)) (log st) d nonblock count net);
    assumption.
Qed.

Lemma connect_is_read_back_witness :
  let st := pre_inet_stream_connect (task 7) 100 initial in
  let st' := handle Probes.numbering headers SecureLog.demo st
               (task 7, Post_inet_stream_connect) in
  match_socket st' 7 = NULL /\
  fst (SecureLog.secure_log_read SecureLog.demo (log st') SecureLog.demo_session
         true 100 true)
  = SecureLog.Returns 42
      (SecureLog.text "netlog [    0.000000]: pid a 40000 -> 443" ++ [10]).
Proof.
  destruct (connect_is_read_back Probes.numbering headers SecureLog.demo (task 7)
              tcp_sock [97] (pre_inet_stream_connect (task 7) 100 initial)
              SecureLog.demo_session true 100 (SecureLog.text "40000 -> 443")
              eq_refl ltac:(vm_compute; discriminate) eq_refl eq_refl eq_refl eq_refl
              eq_refl eq_refl ltac:(vm_compute; discriminate) eq_refl
              ltac:(vm_compute; discriminate) ltac:(vm_compute; discriminate)
              eq_refl ltac:(vm_compute; discriminate)
              ltac:(vm_compute; discriminate)) as (_ & H1 & H2).
  split; [exact H1 | exact H2].
Defined.

End EndToEnd.
